(** * Chunked upload and PDF render pipeline of the LMS backend

    Shallow embedding of
    - [src/modules/upload/chunked-upload.service.ts] (in-memory session map),
    - the Redis-backed variant of the same service,
    - [src/modules/upload/upload.service.ts] (single-request upload and the
      secure read endpoints),
    - the [pdf-processing] BullMQ worker,
    - [config/upload-limits.config.ts].

    Asynchronous TypeScript code is embedded as functions in a state monad
    with exceptions over a record [World] that holds every store the code
    touches (session map, Redis, scratch directories, Prisma tables, Bunny
    storage, the job queue, the console).  A thrown exception keeps the
    effects performed before it, exactly as in the source. *)

From Stdlib Require Import ZArith Lia Ascii String List.
From stdpp Require Import base option numbers list strings pretty gmap sets fin_maps.

Local Open Scope string_scope.
Local Open Scope list_scope.
Local Open Scope Z_scope.

(** ** Bytes and JavaScript string helpers *)

(** A Node [Buffer]. *)
Abbreviation bytes := (list Byte.byte).

(** [Number.prototype.toString()] on an integer. *)
Definition toString (n : Z) : string := pretty n.

Fixpoint repeat_char (c : ascii) (n : nat) : string :=
  match n with
  | O => ""
  | S k => String c (repeat_char c k)
  end.

(** [s.padStart(n, c)] for a one-character filler. *)
Definition padStart (n : nat) (c : ascii) (s : string) : string :=
  repeat_char c (n - String.length s) +:+ s.

(** ** Errors

    [utils/app-error.ts] is not part of the sources at hand; the class is
    used everywhere as [new AppError(message, statusCode)]. *)

Inductive Error : Type :=
  | AppError (message : string) (statusCode : Z)
  | FsError (code : string) (path : string)
  | StorageError (what : string) (key : string)
  | PrismaError (code : string)
  | LibError (what : string).

(** The error taxonomy of the HTTP surface. *)
Inductive ErrorKind : Type :=
  | InvalidRequest | Forbidden | NotFound | Locked | Unavailable | Internal.

Definition kindOf (e : Error) : ErrorKind :=
  match e with
  | AppError _ 400 => InvalidRequest
  | AppError _ 403 => Forbidden
  | AppError _ 404 => NotFound
  | AppError _ 423 => Locked
  | AppError _ 503 => Unavailable
  | _ => Internal
  end.

Inductive Result (A : Type) : Type :=
  | Ok (a : A)
  | Throw (e : Error).
Arguments Ok {A} a.
Arguments Throw {A} e.

Definition isOk {A} (r : Result A) : bool :=
  match r with Ok _ => true | Throw _ => false end.

(** ** Configuration: [UPLOAD_LIMITS] *)

Module UPLOAD_LIMITS.
Definition IMAGE : Z := 5 * 1024 * 1024.
Definition LOGO : Z := 2 * 1024 * 1024.
Definition PDF : Z := 100 * 1024 * 1024.
Definition CHUNK : Z := 5 * 1024 * 1024.
Definition MAX_TOTAL_FILE : Z := 500 * 1024 * 1024.
End UPLOAD_LIMITS.

(** [Math.ceil(a / b)] for integers [a] and a positive integer [b].  On the
    values that reach it ([a <= MAX_TOTAL_FILE]) the double division is
    exact enough for the ceiling to be the integer one. *)
Definition ceilDiv (a b : Z) : Z := - ((- a) / b).

(** ** Data model *)

(** [ChunkedUploadSession] of the in-memory service: [receivedChunks] is a
    JavaScript [Set<number>]. *)
Record ChunkedUploadSession : Type := {
  uploadId : string;
  filename : string;
  fileSize : Z;
  mimeType : string;
  totalChunks : Z;
  receivedChunks : gset Z;
  partId : string;
  isSecure : bool;
  tempDir : string;
  createdAt : Z;
  userId : string
}.

(** [ChunkedUploadSession] of the Redis service: the session is stored as
    JSON, [receivedChunks] is an array.  [JSON.parse (JSON.stringify s)] is
    the identity on such a record, so the stored value is the record. *)
Record RedisSession : Type := {
  r_uploadId : string;
  r_filename : string;
  r_fileSize : Z;
  r_mimeType : string;
  r_totalChunks : Z;
  r_receivedChunks : list Z;
  r_partId : string;
  r_isSecure : bool;
  r_tempDir : string;
  r_createdAt : Z;
  r_userId : string
}.

Inductive RenderStatus : Type := PENDING | PROCESSING | COMPLETED | FAILED.

Global Instance RenderStatus_eq_dec : EqDecision RenderStatus.
Proof. solve_decision. Defined.

(** A row of the Prisma [partFile] table (the Asset record).  The schema is
    not among the sources; [pageCount] and [displayName] are never given at
    creation, so a new row gets the column defaults. *)
Record PartFile : Type := {
  pf_id : string;
  pf_partId : string;
  pf_title : string;
  pf_displayName : option string;
  pf_type : string;
  pf_storageKey : string;
  pf_renderStatus : RenderStatus;
  pf_order : Z;
  pf_isSecure : bool;
  pf_pageCount : Z
}.

(** Modelled from the spec: the column default of [pageCount], which the
    missing Prisma schema declares ("page count (0 until known)"). *)
Definition DEFAULT_PAGE_COUNT : Z := 0.

(** A row of [part] with its [lecture.course] join, as the code reads it. *)
Record Part : Type := {
  part_courseId : string;
  part_instructorId : string;
  part_courseIsFree : bool
}.

Record User : Type := { role : string }.

Record Enrollment : Type := { enr_id : string; enr_status : string }.

(** The payload of a [watermark-pdf] job.  The worker declares
    [PdfJobData]; the in-memory chunked service still enqueues the older
    shape [{ filePath, partFileId, adminName }], whose other fields are
    [undefined] at run time. *)
Record PdfJobData : Type := {
  sourceKey : option string;
  sourceMime : option string;
  originalName : option string;
  partFileId : string;
  adminName : option string;
  filePath : option string
}.

Inductive Zone : Type := PublicZone | PrivateZone.

(** What the storage provider keeps for a key. *)
Record StoredObject : Type := {
  so_zone : Zone;
  so_body : bytes;
  so_mimetype : string
}.

(** An [Express.Multer.File], reduced to the fields the code sets. *)
Record MulterFile : Type := {
  buffer : bytes;
  mimetype : string;
  originalname : string
}.

(** [console.error] / [console.warn] lines of the services (the progress
    lines written with [console.log] are left out). *)
Inductive LogLine : Type :=
  | LogWorkerError (category jobId partFileId : string) (sourceKey : option string) (e : Error)
  | LogCritical (jobId partFileId : string) (sourceKey : option string) (e : Error)
  | LogMarkedFailed (jobId : string)
  | LogWarn (text : string)
  | LogError (text : string).

(** ** The world *)

Record World : Type := {
  uploadSessions : gmap string ChunkedUploadSession; (* module-level Map *)
  redis : gmap string RedisSession;                  (* upload:session:* keys *)
  scratch : gmap string (gmap string bytes);         (* directories: path -> name -> content *)
  tmpFiles : gmap string bytes;                      (* plain files under os.tmpdir() *)
  parts : gmap string Part;
  users : gmap string User;
  enrollments : gmap (string * string) Enrollment;   (* userId_courseId *)
  partLocks : gmap (string * string) bool;           (* enrollmentId_partId -> isLocked *)
  partFiles : gmap string PartFile;
  bunny : gmap string StoredObject;
  bunnyConfigured : bool;                            (* BUNNY_STORAGE_* set *)
  pdfQueue : list (string * PdfJobData);
  console : list LogLine
}.

Definition set_uploadSessions (f : gmap string ChunkedUploadSession → gmap string ChunkedUploadSession) (w : World) : World :=
  {| uploadSessions := f (uploadSessions w); redis := redis w; scratch := scratch w;
     tmpFiles := tmpFiles w; parts := parts w; users := users w;
     enrollments := enrollments w; partLocks := partLocks w; partFiles := partFiles w;
     bunny := bunny w; bunnyConfigured := bunnyConfigured w; pdfQueue := pdfQueue w;
     console := console w |}.

Definition set_redis (f : gmap string RedisSession → gmap string RedisSession) (w : World) : World :=
  {| uploadSessions := uploadSessions w; redis := f (redis w); scratch := scratch w;
     tmpFiles := tmpFiles w; parts := parts w; users := users w;
     enrollments := enrollments w; partLocks := partLocks w; partFiles := partFiles w;
     bunny := bunny w; bunnyConfigured := bunnyConfigured w; pdfQueue := pdfQueue w;
     console := console w |}.

Definition set_scratch (f : gmap string (gmap string bytes) → gmap string (gmap string bytes)) (w : World) : World :=
  {| uploadSessions := uploadSessions w; redis := redis w; scratch := f (scratch w);
     tmpFiles := tmpFiles w; parts := parts w; users := users w;
     enrollments := enrollments w; partLocks := partLocks w; partFiles := partFiles w;
     bunny := bunny w; bunnyConfigured := bunnyConfigured w; pdfQueue := pdfQueue w;
     console := console w |}.

Definition set_tmpFiles (f : gmap string bytes → gmap string bytes) (w : World) : World :=
  {| uploadSessions := uploadSessions w; redis := redis w; scratch := scratch w;
     tmpFiles := f (tmpFiles w); parts := parts w; users := users w;
     enrollments := enrollments w; partLocks := partLocks w; partFiles := partFiles w;
     bunny := bunny w; bunnyConfigured := bunnyConfigured w; pdfQueue := pdfQueue w;
     console := console w |}.

Definition set_partFiles (f : gmap string PartFile → gmap string PartFile) (w : World) : World :=
  {| uploadSessions := uploadSessions w; redis := redis w; scratch := scratch w;
     tmpFiles := tmpFiles w; parts := parts w; users := users w;
     enrollments := enrollments w; partLocks := partLocks w; partFiles := f (partFiles w);
     bunny := bunny w; bunnyConfigured := bunnyConfigured w; pdfQueue := pdfQueue w;
     console := console w |}.

Definition set_bunny (f : gmap string StoredObject → gmap string StoredObject) (w : World) : World :=
  {| uploadSessions := uploadSessions w; redis := redis w; scratch := scratch w;
     tmpFiles := tmpFiles w; parts := parts w; users := users w;
     enrollments := enrollments w; partLocks := partLocks w; partFiles := partFiles w;
     bunny := f (bunny w); bunnyConfigured := bunnyConfigured w; pdfQueue := pdfQueue w;
     console := console w |}.

Definition set_pdfQueue (f : list (string * PdfJobData) → list (string * PdfJobData)) (w : World) : World :=
  {| uploadSessions := uploadSessions w; redis := redis w; scratch := scratch w;
     tmpFiles := tmpFiles w; parts := parts w; users := users w;
     enrollments := enrollments w; partLocks := partLocks w; partFiles := partFiles w;
     bunny := bunny w; bunnyConfigured := bunnyConfigured w; pdfQueue := f (pdfQueue w);
     console := console w |}.

Definition set_console (f : list LogLine → list LogLine) (w : World) : World :=
  {| uploadSessions := uploadSessions w; redis := redis w; scratch := scratch w;
     tmpFiles := tmpFiles w; parts := parts w; users := users w;
     enrollments := enrollments w; partLocks := partLocks w; partFiles := partFiles w;
     bunny := bunny w; bunnyConfigured := bunnyConfigured w; pdfQueue := pdfQueue w;
     console := f (console w) |}.

(** ** The monad of asynchronous service code *)

Definition M (A : Type) : Type := World → Result A * World.

Definition ret {A} (a : A) : M A := λ w, (Ok a, w).

Definition throw {A} (e : Error) : M A := λ w, (Throw e, w).

Definition bind {A B} (m : M A) (k : A → M B) : M B :=
  λ w, match m w with
       | (Ok a, w') => k a w'
       | (Throw e, w') => (Throw e, w')
       end.

(** [try { m } catch (e) { h e }] *)
Definition try_catch {A} (m : M A) (h : Error → M A) : M A :=
  λ w, match m w with
       | (Ok a, w') => (Ok a, w')
       | (Throw e, w') => h e w'
       end.

Definition gets {A} (f : World → A) : M A := λ w, (Ok (f w), w).

Definition modify (f : World → World) : M unit := λ w, (Ok tt, f w).

Notation "'do' x <- m ;; k" := (bind m (λ x, k))
  (at level 100, x binder, m at next level, right associativity,
   format "'[v' 'do'  x  <-  m  ;;  '/' k ']'").
Notation "m ;;; k" := (bind m (λ _, k))
  (at level 100, right associativity, format "'[v' m  ;;;  '/' k ']'").

Global Arguments bind : simpl never.
Global Arguments ret : simpl never.
Global Arguments throw : simpl never.
Global Arguments try_catch : simpl never.
Global Arguments gets : simpl never.
Global Arguments modify : simpl never.

(** [if (c) throw e] *)
Definition throw_if (c : bool) (e : Error) : M unit :=
  if c then throw e else ret tt.

Definition console_log (l : LogLine) : M unit :=
  modify (set_console (λ c, c ++ [l])).

Global Arguments throw_if : simpl never.
Global Arguments console_log : simpl never.

(** ** Node primitives: [os], [path], [fs] *)

Definition os_tmpdir : string := "/tmp".

(** [path.join(dir, name)] for a directory path and a plain file name. *)
Definition path_join (dir name : string) : string := dir +:+ "/" +:+ name.

(** [fs.promises.mkdir(dir, { recursive: true })]: an existing directory is
    kept as it is. *)
Definition fs_mkdir (dir : string) : M unit :=
  modify (set_scratch (λ fs, match fs !! dir with
                             | Some _ => fs
                             | None => <[dir := ∅]> fs
                             end)).

(** [fs.promises.writeFile(path.join(dir, name), data)] *)
Definition fs_writeFile (dir name : string) (data : bytes) : M unit :=
  do fs <- gets scratch ;;
  match fs !! dir with
  | Some d => modify (set_scratch (<[dir := <[name := data]> d]>))
  | None => throw (FsError "ENOENT" (path_join dir name))
  end.

(** [fs.promises.readFile(path.join(dir, name))] *)
Definition fs_readFile (dir name : string) : M bytes :=
  do fs <- gets scratch ;;
  match fs !! dir ≫= (λ d, d !! name) with
  | Some data => ret data
  | None => throw (FsError "ENOENT" (path_join dir name))
  end.

(** [writeStream.write(data)] on a stream opened on [path.join(dir, name)]:
    the bytes are appended to the file. *)
Definition fs_appendFile (dir name : string) (data : bytes) : M unit :=
  do old <- fs_readFile dir name ;;
  fs_writeFile dir name (old ++ data).

(** [fs.promises.rm(dir, { recursive: true, force: true })] *)
Definition fs_rm (dir : string) : M unit :=
  modify (set_scratch (delete dir)).

(** [fs.promises.writeFile(path, data)] for a file directly under
    [os.tmpdir()]. *)
Definition fs_writeTmpFile (path : string) (data : bytes) : M unit :=
  modify (set_tmpFiles (<[path := data]>)).

(** ** Prisma *)

Definition part_findUnique (id : string) : M (option Part) :=
  gets (λ w, parts w !! id).

Definition user_findUnique (id : string) : M (option User) :=
  gets (λ w, users w !! id).

Definition enrollment_findUnique (userId courseId : string) : M (option Enrollment) :=
  gets (λ w, enrollments w !! (userId, courseId)).

Definition partFile_findUnique (id : string) : M (option PartFile) :=
  gets (λ w, partFiles w !! id).

(** [prisma.partFile.create({ data })]: the primary key is unique. *)
Definition partFile_create (data : PartFile) : M PartFile :=
  do old <- partFile_findUnique (pf_id data) ;;
  match old with
  | Some _ => throw (PrismaError "P2002")
  | None => modify (set_partFiles (<[pf_id data := data]>)) ;;; ret data
  end.

(** [prisma.partFile.update({ where: { id }, data })]: the row must exist;
    [upd] overwrites the columns named in [data]. *)
Definition partFile_update (id : string) (upd : PartFile → PartFile) : M unit :=
  do old <- partFile_findUnique id ;;
  match old with
  | Some f => modify (set_partFiles (<[id := upd f]>))
  | None => throw (PrismaError "P2025")
  end.

(** [(await prisma.partFile.findFirst({ where: { partId }, orderBy: { order:
    'desc' } }))?.order]: the largest [order] among the files of the part. *)
Definition lastOrder (files : gmap string PartFile) (pid : string) : option Z :=
  map_fold (λ _ f acc,
              if String.eqb (pf_partId f) pid
              then Some (match acc with Some o => Z.max o (pf_order f) | None => pf_order f end)
              else acc) None files.

(** [a || 0] on numbers *)
Definition or_zero (o : option Z) : Z := default 0 o.

Definition getNextOrder (pid : string) : M Z :=
  do last <- gets (λ w, lastOrder (partFiles w) pid) ;;
  ret (or_zero last + 1).

(** ** Bunny storage

    Modelled from the spec: the object-storage collaborator
    [BunnyStorageProvider] ([uploadPublic], [uploadPrivate],
    [downloadStream], [delete]) is not among the sources; it is a key/value
    store whose reads and deletes fail on a key that is not there. *)

Definition storage_upload (z : Zone) (file : MulterFile) (key : string) : M unit :=
  modify (set_bunny (<[key := {| so_zone := z; so_body := buffer file;
                                 so_mimetype := mimetype file |}]>)).

Definition uploadPublic := storage_upload PublicZone.
Definition uploadPrivate := storage_upload PrivateZone.

Definition downloadStream (key : option string) : M bytes :=
  do st <- gets bunny ;;
  match key ≫= (λ k, st !! k) with
  | Some o => ret (so_body o)
  | None => throw (StorageError "download" (default "undefined" key))
  end.

Definition storage_delete (key : option string) : M unit :=
  do st <- gets bunny ;;
  match key ≫= (λ k, st !! k ≫= (λ _, Some k)) with
  | Some k => modify (set_bunny (delete k))
  | None => throw (StorageError "delete" (default "undefined" key))
  end.

(** ** The [pdf-processing] queue: [pdfQueue.add(name, data)] returns the
    job, of which only the id is read. *)
Definition pdfQueue_add (name : string) (data : PdfJobData) : M string :=
  do q <- gets pdfQueue ;;
  modify (set_pdfQueue (λ q, q ++ [(name, data)])) ;;;
  ret (toString (Z.of_nat (S (length q)))).

(** ** [ChunkedUploadService], in-memory sessions
    ([src/modules/upload/chunked-upload.service.ts]) *)

Record InitUploadInput : Type := {
  in_filename : string;
  in_fileSize : Z;
  in_totalChunks : Z;
  in_mimeType : string;
  in_partId : string;
  in_isSecure : bool
}.

Record ChunkUploadInput : Type := {
  c_uploadId : string;
  c_chunkIndex : Z;
  c_totalChunks : Z;
  c_chunk : bytes
}.

Record FinalizeUploadInput : Type := {
  f_uploadId : string;
  f_partId : string;
  f_isSecure : bool
}.

Record FinalizeResult : Type := {
  res_storageKey : string;
  res_assetId : string
}.

(** [`chunk-${i.toString().padStart(5, '0')}`] *)
Definition chunkName (i : Z) : string :=
  "chunk-" +:+ padStart 5 "0" (toString i).

(** [`lms-chunked-${uploadId}`] under [os.tmpdir()] *)
Definition tempDirOf (uploadId : string) : string :=
  path_join os_tmpdir ("lms-chunked-" +:+ uploadId).

(** The integers [0, 1, ..., n-1] a [for (let i = 0; i < n; i++)] loop
    runs through. *)
Definition loopIndices (n : Z) : list Z := seqZ 0 n.

(** [session.fileSize % CHUNK || CHUNK : CHUNK] *)
Definition expectedChunkSize (fileSize totalChunks chunkIndex : Z) : Z :=
  let isLastChunk := Z.eqb chunkIndex (totalChunks - 1) in
  if isLastChunk
  then (if Z.eqb (Z.rem fileSize UPLOAD_LIMITS.CHUNK) 0
        then UPLOAD_LIMITS.CHUNK else Z.rem fileSize UPLOAD_LIMITS.CHUNK)
  else UPLOAD_LIMITS.CHUNK.

(** Values the environment supplies to a call: the [uuidv4()] results and
    the clock are arguments of the embedded functions. *)

Module ChunkedUploadService.

(** [cleanupSession(uploadId)] *)
Definition cleanupSession (uploadId : string) : M unit :=
  do session <- gets (λ w, uploadSessions w !! uploadId) ;;
  match session with
  | Some session =>
      (* fs.promises.rm with force never rejects here *)
      try_catch (fs_rm (tempDir session))
                (λ _, console_log (LogError ("[ChunkedUpload] Failed to cleanup temp dir: " +:+ tempDir session))) ;;;
      modify (set_uploadSessions (delete uploadId))
  | None => ret tt
  end.

(** One tick of the [setInterval] sweep against one session. *)
Definition sweepSession (now : Z) (uploadId : string) : M unit :=
  do session <- gets (λ w, uploadSessions w !! uploadId) ;;
  match session with
  | Some session =>
      if Z.ltb (60 * 60 * 1000) (now - createdAt session)
      then cleanupSession uploadId
      else ret tt
  | None => ret tt
  end.

Definition initUpload (userId : string) (input : InitUploadInput)
    (uuid : string) (now : Z) : M string :=
  (* Validate file size *)
  throw_if (Z.ltb UPLOAD_LIMITS.MAX_TOTAL_FILE (in_fileSize input))
    (AppError ("File too large. Maximum size is "
               +:+ toString (UPLOAD_LIMITS.MAX_TOTAL_FILE / (1024 * 1024)) +:+ "MB") 400) ;;;
  (* Validate chunk count *)
  let expectedChunks := ceilDiv (in_fileSize input) UPLOAD_LIMITS.CHUNK in
  throw_if (negb (Z.eqb (in_totalChunks input) expectedChunks))
    (AppError "Invalid chunk count" 400) ;;;
  (* Validate part ownership *)
  do part <- part_findUnique (in_partId input) ;;
  match part with
  | None => throw (AppError "Part not found" 404)
  | Some part =>
      do user <- user_findUnique userId ;;
      let isAdmin := match user with
                     | Some u => String.eqb (role u) "ADMIN"
                     | None => false
                     end in
      let isOwner := String.eqb (part_instructorId part) userId in
      throw_if (negb isAdmin && negb isOwner) (AppError "Access denied" 403) ;;;
      (* Create unique upload ID and temp directory *)
      let uploadId := uuid in
      let tempDir := tempDirOf uploadId in
      fs_mkdir tempDir ;;;
      (* Store session *)
      let session :=
        {| uploadId := uploadId;
           filename := in_filename input;
           fileSize := in_fileSize input;
           mimeType := in_mimeType input;
           totalChunks := in_totalChunks input;
           receivedChunks := ∅;
           partId := in_partId input;
           isSecure := in_isSecure input;
           tempDir := tempDir;
           createdAt := now;
           userId := userId |} in
      modify (set_uploadSessions (<[uploadId := session]>)) ;;;
      ret uploadId
  end.

(** [session.receivedChunks.add(i)] on the session object kept in the Map *)
Definition markReceived (i : Z) (s : ChunkedUploadSession) : ChunkedUploadSession :=
  {| uploadId := uploadId s; filename := filename s; fileSize := fileSize s;
     mimeType := mimeType s; totalChunks := totalChunks s;
     receivedChunks := {[ i ]} ∪ receivedChunks s;
     partId := partId s; isSecure := isSecure s; tempDir := tempDir s;
     createdAt := createdAt s; userId := userId s |}.

(** Returns [{ received, total }]. *)
Definition uploadChunk (input : ChunkUploadInput) : M (Z * Z) :=
  do session <- gets (λ w, uploadSessions w !! c_uploadId input) ;;
  match session with
  | None => throw (AppError "Upload session not found or expired" 404)
  | Some session =>
      (* Validate chunk index *)
      throw_if (Z.ltb (c_chunkIndex input) 0 || Z.leb (totalChunks session) (c_chunkIndex input))
        (AppError "Invalid chunk index" 400) ;;;
      (* Validate chunk size (last chunk may be smaller) *)
      let expected := expectedChunkSize (fileSize session) (totalChunks session)
                        (c_chunkIndex input) in
      throw_if (Z.ltb UPLOAD_LIMITS.CHUNK (Z.of_nat (length (c_chunk input))))
        (AppError "Chunk too large" 400) ;;;
      (* Write chunk to temp file *)
      fs_writeFile (tempDir session) (chunkName (c_chunkIndex input)) (c_chunk input) ;;;
      (* Mark chunk as received: the session object in the Map is mutated *)
      let session := markReceived (c_chunkIndex input) session in
      modify (set_uploadSessions (<[c_uploadId input := session]>)) ;;;
      ret (Z.of_nat (size (receivedChunks session)), totalChunks session)
  end.

Definition getExtension (mimetype : string) : string :=
  if String.eqb mimetype "application/pdf" then ".pdf"
  else if String.eqb mimetype "application/vnd.openxmlformats-officedocument.presentationml.presentation" then ".pptx"
  else if String.eqb mimetype "application/vnd.ms-powerpoint" then ".ppt"
  else if String.eqb mimetype "application/msword" then ".doc"
  else if String.eqb mimetype "application/vnd.openxmlformats-officedocument.wordprocessingml.document" then ".docx"
  else ".bin".

(** The assembly loop: for each index, read the chunk file and write it
    to the stream opened on [assembled]. *)
Fixpoint assembleChunks (dir : string) (indices : list Z) : M unit :=
  match indices with
  | [] => ret tt
  | i :: rest =>
      do chunkData <- fs_readFile dir (chunkName i) ;;
      fs_appendFile dir "assembled" chunkData ;;;
      assembleChunks dir rest
  end.

(** Lines "Assemble chunks into final file" and "Read assembled file for
    upload" of [finalizeUpload]: the write stream on [assembled], the
    loop over the chunk files, and the read of the result. *)
Definition assembleFile (tempDir : string) (totalChunks : Z) : M bytes :=
  fs_writeFile tempDir "assembled" [] ;;;
  assembleChunks tempDir (loopIndices totalChunks) ;;;
  fs_readFile tempDir "assembled".

(** The [if (session.isSecure) ... else ...] of [finalizeUpload]; returns
    [storageKey]. *)
Definition storeAsset (session : ChunkedUploadSession) (fileBuffer : bytes)
    (fileId : string) : M string :=
  if isSecure session then
    (* Create a pending PartFile record that will be processed by PDF worker *)
    do order <- getNextOrder (partId session) ;;
    partFile_create
      {| pf_id := fileId;
         pf_partId := partId session;
         pf_title := filename session;
         pf_displayName := Some (filename session);
         pf_type := "PDF";
         pf_storageKey := "";
         pf_renderStatus := PROCESSING;
         pf_order := order;
         pf_isSecure := true;
         pf_pageCount := DEFAULT_PAGE_COUNT |} ;;;
    (* Write to temp for worker to process *)
    let ext := getExtension (mimeType session) in
    let workerInputPath :=
      path_join os_tmpdir ("lms-upload-" +:+ fileId +:+ "-input" +:+ ext) in
    fs_writeTmpFile workerInputPath fileBuffer ;;;
    (* Queue for processing *)
    pdfQueue_add "watermark-pdf"
      {| sourceKey := None; sourceMime := None; originalName := None;
         partFileId := fileId;
         adminName := Some "Dr. Manal";
         filePath := Some workerInputPath |} ;;;
    ret ""
  else
    (* Direct upload for downloadable files *)
    let storageKey :=
      "/public/" +:+ partId session +:+ "/" +:+ fileId +:+ "/" +:+ filename session in
    let mockFile := {| buffer := fileBuffer;
                       mimetype := mimeType session;
                       originalname := filename session |} in
    uploadPublic mockFile storageKey ;;;
    do order <- getNextOrder (partId session) ;;
    partFile_create
      {| pf_id := fileId;
         pf_partId := partId session;
         pf_title := filename session;
         pf_displayName := None;
         pf_type := "PDF";
         pf_storageKey := storageKey;
         pf_renderStatus := COMPLETED;
         pf_order := order;
         pf_isSecure := false;
         pf_pageCount := DEFAULT_PAGE_COUNT |} ;;;
    ret storageKey.

Definition finalizeUpload (caller : string) (input : FinalizeUploadInput)
    (uuid : string) : M FinalizeResult :=
  do session <- gets (λ w, uploadSessions w !! f_uploadId input) ;;
  match session with
  | None => throw (AppError "Upload session not found or expired" 404)
  | Some session =>
      (* Verify user *)
      throw_if (negb (String.eqb (userId session) caller)) (AppError "Access denied" 403) ;;;
      (* Verify all chunks received *)
      let received := Z.of_nat (size (receivedChunks session)) in
      throw_if (negb (Z.eqb received (totalChunks session)))
        (AppError ("Missing chunks. Received " +:+ toString received +:+ "/"
                   +:+ toString (totalChunks session)) 400) ;;;
      do fileBuffer <- assembleFile (tempDir session) (totalChunks session) ;;
      let fileId := uuid in
      (* Determine storage path based on security mode *)
      do storageKey <- storeAsset session fileBuffer fileId ;;
      (* Cleanup session *)
      cleanupSession (f_uploadId input) ;;;
      ret {| res_storageKey := storageKey; res_assetId := fileId |}
  end.

End ChunkedUploadService.

(** ** [ChunkedUploadService], Redis sessions (the variant of the service
    that keeps its sessions under [upload:session:*] keys) *)

(** [new Set(array)] followed by [Array.from]: insertion order, first
    occurrence kept. *)
Definition jsSet_add (x : Z) (s : list Z) : list Z :=
  if decide (x ∈ s) then s else s ++ [x].

Definition jsSet_from (l : list Z) : list Z :=
  fold_left (λ acc x, jsSet_add x acc) l [].

Module RedisChunkedUploadService.

Definition getRedisKey (uploadId : string) : string :=
  "upload:session:" +:+ uploadId.

(** [redis.setex(key, UPLOAD_SESSION_TTL, JSON.stringify(session))] *)
Definition redis_setex (key : string) (session : RedisSession) : M unit :=
  modify (set_redis (<[key := session]>)).

Definition redis_get (key : string) : M (option RedisSession) :=
  gets (λ w, redis w !! key).

(** [redis.del(key)], and also what the expiry of the key does. *)
Definition redis_del (key : string) : M unit :=
  modify (set_redis (delete key)).

Definition initUpload (caller : string) (input : InitUploadInput)
    (uuid : string) (now : Z) : M string :=
  throw_if (Z.ltb UPLOAD_LIMITS.MAX_TOTAL_FILE (in_fileSize input))
    (AppError ("File too large. Maximum size is "
               +:+ toString (UPLOAD_LIMITS.MAX_TOTAL_FILE / (1024 * 1024)) +:+ "MB") 400) ;;;
  let expectedChunks := ceilDiv (in_fileSize input) UPLOAD_LIMITS.CHUNK in
  throw_if (negb (Z.eqb (in_totalChunks input) expectedChunks))
    (AppError "Invalid chunk count" 400) ;;;
  do part <- part_findUnique (in_partId input) ;;
  match part with
  | None => throw (AppError "Part not found" 404)
  | Some part =>
      do user <- user_findUnique caller ;;
      (* RBAC UPDATE: Admin is deprecated, Instructor is the authority *)
      let isInstructor := match user with
                          | Some u => String.eqb (role u) "INSTRUCTOR"
                          | None => false
                          end in
      let isOwner := String.eqb (part_instructorId part) caller in
      throw_if (negb isInstructor && negb isOwner) (AppError "Access denied" 403) ;;;
      let uploadId := uuid in
      let tempDir := tempDirOf uploadId in
      fs_mkdir tempDir ;;;
      let session :=
        {| r_uploadId := uploadId;
           r_filename := in_filename input;
           r_fileSize := in_fileSize input;
           r_mimeType := in_mimeType input;
           r_totalChunks := in_totalChunks input;
           r_receivedChunks := [];
           r_partId := in_partId input;
           r_isSecure := in_isSecure input;
           r_tempDir := tempDir;
           r_createdAt := now;
           r_userId := caller |} in
      redis_setex (getRedisKey uploadId) session ;;;
      ret uploadId
  end.

(** [session.receivedChunks = Array.from(receivedSet)] *)
Definition setReceived (l : list Z) (s : RedisSession) : RedisSession :=
  {| r_uploadId := r_uploadId s; r_filename := r_filename s; r_fileSize := r_fileSize s;
     r_mimeType := r_mimeType s; r_totalChunks := r_totalChunks s;
     r_receivedChunks := l;
     r_partId := r_partId s; r_isSecure := r_isSecure s; r_tempDir := r_tempDir s;
     r_createdAt := r_createdAt s; r_userId := r_userId s |}.

Definition uploadChunk (input : ChunkUploadInput) : M (Z * Z) :=
  let key := getRedisKey (c_uploadId input) in
  do data <- redis_get key ;;
  match data with
  | None => throw (AppError "Upload session not found or expired" 404)
  | Some session =>
      throw_if (Z.ltb (c_chunkIndex input) 0 || Z.leb (r_totalChunks session) (c_chunkIndex input))
        (AppError "Invalid chunk index" 400) ;;;
      let expected := expectedChunkSize (r_fileSize session) (r_totalChunks session)
                        (c_chunkIndex input) in
      throw_if (Z.ltb UPLOAD_LIMITS.CHUNK (Z.of_nat (length (c_chunk input))))
        (AppError "Chunk too large" 400) ;;;
      fs_writeFile (r_tempDir session) (chunkName (c_chunkIndex input)) (c_chunk input) ;;;
      (* Using Set in memory logic for checks, but Array for storage *)
      let receivedSet := jsSet_add (c_chunkIndex input) (jsSet_from (r_receivedChunks session)) in
      let session := setReceived receivedSet session in
      redis_setex key session ;;;
      ret (Z.of_nat (length (r_receivedChunks session)), r_totalChunks session)
  end.

Definition getExtension (mimetype : string) : string :=
  if String.eqb mimetype "application/pdf" then ".pdf"
  else if String.eqb mimetype "application/vnd.openxmlformats-officedocument.presentationml.presentation" then ".pptx"
  else if String.eqb mimetype "application/vnd.ms-powerpoint" then ".ppt"
  else if String.eqb mimetype "application/msword" then ".doc"
  else if String.eqb mimetype "application/vnd.openxmlformats-officedocument.wordprocessingml.document" then ".docx"
  else if String.eqb mimetype "text/plain" then ".txt"
  else ".bin".

(** The [if (effectiveSecure) ... else ...] of [finalizeUpload]; returns
    [storageKey].  [WATERMARK_QUEUE_LABEL] comes from
    [constants/watermark], which is not among the sources: it is an
    argument. *)
Definition storeAsset (WATERMARK_QUEUE_LABEL : string) (session : RedisSession)
    (fileBuffer : bytes) (fileId : string) : M string :=
  let requiresNormalization := negb (String.eqb (r_mimeType session) "application/pdf") in
  let effectiveSecure := r_isSecure session || requiresNormalization in
  (if requiresNormalization && negb (r_isSecure session)
   then console_log (LogWarn ("[ChunkedUpload] Forcing secure conversion for non-PDF file: "
                              +:+ r_filename session +:+ " (" +:+ r_mimeType session +:+ ")"))
   else ret tt) ;;;
  if effectiveSecure then
    (* Create a pending PartFile record *)
    do order <- getNextOrder (r_partId session) ;;
    partFile_create
      {| pf_id := fileId;
         pf_partId := r_partId session;
         pf_title := r_filename session;
         pf_displayName := Some (r_filename session);
         pf_type := "PDF";
         pf_storageKey := "";
         pf_renderStatus := PROCESSING;
         pf_order := order;
         pf_isSecure := true;
         pf_pageCount := DEFAULT_PAGE_COUNT |} ;;;
    (* Upload source file to shared staging storage for worker processing *)
    let ext := getExtension (r_mimeType session) in
    let sourceKey := "/staging/pdf-input/" +:+ fileId +:+ "/source" +:+ ext in
    let sourceFile := {| buffer := fileBuffer;
                         mimetype := r_mimeType session;
                         originalname := r_filename session |} in
    uploadPrivate sourceFile sourceKey ;;;
    (* Queue for processing *)
    pdfQueue_add "watermark-pdf"
      {| sourceKey := Some sourceKey;
         sourceMime := Some (r_mimeType session);
         originalName := Some (r_filename session);
         partFileId := fileId;
         adminName := Some WATERMARK_QUEUE_LABEL;
         filePath := None |} ;;;
    ret ""
  else
    (* Direct upload for downloadable files *)
    let storageKey :=
      "/public/" +:+ r_partId session +:+ "/" +:+ fileId +:+ "/" +:+ r_filename session in
    let mockFile := {| buffer := fileBuffer;
                       mimetype := r_mimeType session;
                       originalname := r_filename session |} in
    uploadPublic mockFile storageKey ;;;
    do order <- getNextOrder (r_partId session) ;;
    partFile_create
      {| pf_id := fileId;
         pf_partId := r_partId session;
         pf_title := r_filename session;
         pf_displayName := None;
         pf_type := "PDF";
         pf_storageKey := storageKey;
         pf_renderStatus := COMPLETED;
         pf_order := order;
         pf_isSecure := false;
         pf_pageCount := DEFAULT_PAGE_COUNT |} ;;;
    ret storageKey.

(** The assembly lines are the same text as in the in-memory service. *)
Definition finalizeUpload (WATERMARK_QUEUE_LABEL : string) (caller : string)
    (input : FinalizeUploadInput) (uuid : string) : M FinalizeResult :=
  let key := getRedisKey (f_uploadId input) in
  do data <- redis_get key ;;
  match data with
  | None => throw (AppError "Upload session not found or expired" 404)
  | Some session =>
      (* Verify user *)
      throw_if (negb (String.eqb (r_userId session) caller)) (AppError "Access denied" 403) ;;;
      (* Verify all chunks received *)
      let received := Z.of_nat (length (r_receivedChunks session)) in
      throw_if (negb (Z.eqb received (r_totalChunks session)))
        (AppError ("Missing chunks. Received " +:+ toString received +:+ "/"
                   +:+ toString (r_totalChunks session)) 400) ;;;
      do fileBuffer <-
        ChunkedUploadService.assembleFile (r_tempDir session) (r_totalChunks session) ;;
      let fileId := uuid in
      do storageKey <- storeAsset WATERMARK_QUEUE_LABEL session fileBuffer fileId ;;
      (* Cleanup session: remove from Redis and delete temp dir *)
      redis_del key ;;;
      try_catch (fs_rm (r_tempDir session))
                (λ _, console_log (LogError ("[ChunkedUpload] Failed to cleanup temp dir: "
                                             +:+ r_tempDir session))) ;;;
      ret {| res_storageKey := storageKey; res_assetId := fileId |}
  end.

End RedisChunkedUploadService.

(** ** [path.extname(p)] and [path.parse(p).name] (POSIX)

    Both functions of Node's [lib/path.js] scan the path from its last
    character towards the first with the same loop.  Separators at the end
    of the path are skipped; [end] is set one past the first character that
    is not a separator, [startDot] at the first ['.'] met, and the scan
    stops at the separator before the last component, [startPart] being the
    index after it.  [preDotState] is 0 while nothing was seen before the
    dot, 1 when the last character seen before it was a dot, and -1 when it
    was another character.  An index that is still [-1] is [None].  The
    indices are those of the characters ['/'] and ['.'], which are single
    bytes of the string. *)

Record PathScan : Type := {
  startDot : option nat;
  startPart : nat;
  end_ : option nat;
  matchedSlash : bool;
  preDotState : Z
}.

Definition PathScan_init : PathScan :=
  {| startDot := None; startPart := 0; end_ := None; matchedSlash := true;
     preDotState := 0 |}.

(** The [for] loop; [codes] holds the characters from index [i] down to
    the index at which the loop stops. *)
Fixpoint scanPath (codes : list ascii) (i : nat) (st : PathScan) : PathScan :=
  match codes with
  | [] => st
  | code :: rest =>
      let '{| startDot := startDot; startPart := startPart; end_ := end_;
              matchedSlash := matchedSlash; preDotState := preDotState |} := st in
      let next startDot end_ matchedSlash preDotState :=
        scanPath rest (i - 1)
          {| startDot := startDot; startPart := startPart; end_ := end_;
             matchedSlash := matchedSlash; preDotState := preDotState |} in
      if Ascii.eqb code "/" then
        (* a separator that is not part of the separators at the end of the
           string: stop *)
        if negb matchedSlash then
          {| startDot := startDot; startPart := i + 1; end_ := end_;
             matchedSlash := matchedSlash; preDotState := preDotState |}
        else next startDot end_ matchedSlash preDotState
      else
        let body end_ matchedSlash :=
          if Ascii.eqb code "." then
            match startDot with
            | None => next (Some i) end_ matchedSlash preDotState
            | Some d =>
                if negb (preDotState =? 1) then next (Some d) end_ matchedSlash 1
                else next (Some d) end_ matchedSlash preDotState
            end
          else
            match startDot with
            | Some d => next (Some d) end_ matchedSlash (-1)
            | None => next None end_ matchedSlash preDotState
            end in
        (* the first character that is not a separator: the end of the
           component *)
        match end_ with
        | None => body (Some (i + 1)%nat) false
        | Some e => body (Some e) matchedSlash
        end
  end.

(** The component that ends at [e] has the extension that starts at the
    dot [d], unless [noExtension]: no character was seen before the dot, or
    the component is exactly [".."]. *)
Definition noExtension (st : PathScan) (d e : nat) : bool :=
  (preDotState st =? 0) ||
  ((preDotState st =? 1) && Nat.eqb d (e - 1) && Nat.eqb d (startPart st + 1)).

(** [path.slice(a, b)] is [substring a (b - a) path]. *)
Definition path_extname (p : string) : string :=
  let st := scanPath (rev (list_ascii_of_string p)) (String.length p - 1)
                     PathScan_init in
  match startDot st, end_ st with
  | Some d, Some e => if noExtension st d e then "" else substring d (e - d) p
  | _, _ => ""
  end.

(** [path.parse] does not scan the root ['/'] of an absolute path. *)
Definition path_parse_name (p : string) : string :=
  match p with
  | EmptyString => ""
  | String c _ =>
      let isAbsolute := Ascii.eqb c "/" in
      let start := if isAbsolute then 1%nat else 0%nat in
      let st := scanPath (rev (drop start (list_ascii_of_string p)))
                         (String.length p - 1) PathScan_init in
      match end_ st with
      | None => ""
      | Some e =>
          let start :=
            if Nat.eqb (startPart st) 0 && isAbsolute then 1%nat else startPart st in
          match startDot st with
          | None => substring start (e - start) p
          | Some d =>
              if noExtension st d e then substring start (e - start) p
              else substring start (d - start) p
          end
      end
  end.

(** [String.prototype.toLowerCase] on the letters [A] to [Z].  The bytes
    of a character outside ASCII are kept as they are, where JavaScript
    also lowers the cased letters outside ASCII.  The worker compares the
    lowered extension with [""] and [".pdf"] only, and no character outside
    ASCII is lowered to ['.'], ['p'], ['d'] or ['f']: both comparisons come
    out as in the code for every name. *)
Definition lower_ascii (a : ascii) : ascii :=
  let n := nat_of_ascii a in
  if (Nat.leb 65 n && Nat.leb n 90)%bool then ascii_of_nat (n + 32) else a.

Fixpoint toLowerCase (s : string) : string :=
  match s with
  | EmptyString => EmptyString
  | String a rest => String (lower_ascii a) (toLowerCase rest)
  end.

(** [a || b] on strings: the empty string and [undefined] are falsy. *)
Definition or_string (a : option string) (b : string) : string :=
  match a with
  | Some s => if String.eqb s "" then b else s
  | None => b
  end.

(** ** [UploadService] ([src/modules/upload/upload.service.ts]) *)

(** The [isSecureStr?: string | boolean] argument. *)
Inductive SecureArg : Type := SecString (s : string) | SecBool (b : bool).

(** [String(isSecureStr) === 'true'] *)
Definition secureArg_is_true (a : SecureArg) : bool :=
  match a with
  | SecString s => String.eqb s "true"
  | SecBool b => b
  end.

(** The result of [parseInt(text, 10)] handed to [getRenderedPage]. *)
Inductive JsInt : Type := NaN | Int (z : Z).

(** [n < 1 || n > pageCount]: every comparison with [NaN] is false. *)
Definition page_out_of_range (n : JsInt) (pageCount : Z) : bool :=
  match n with
  | NaN => false
  | Int z => Z.ltb z 1 || Z.ltb pageCount z
  end.

Definition JsInt_toString (n : JsInt) : string :=
  match n with NaN => "NaN" | Int z => toString z end.

Inductive UploadLessonResult : Type :=
  | Queued (id : string)            (* { status: 'QUEUED', id } *)
  | Created (record : PartFile).

Record StreamResult : Type := {
  stream : bytes;
  contentType : string;
  sr_filename : string
}.

(** What [getDocumentMetadata] returns. *)
Record DocumentMetadata : Type := {
  md_title : string;
  md_displayName : string;
  md_pageCount : Z;
  md_renderStatus : RenderStatus;
  md_isSecure : bool;
  md_id : string
}.

Module UploadService.

(** [checkPartAccessWithLocks(userId, partId, enrollmentId)] *)
Definition checkPartAccessWithLocks (caller pid : string) (enrollmentId : option string) : M unit :=
  match enrollmentId with
  | Some eid =>
      do lock <- gets (λ w, partLocks w !! (eid, pid)) ;;
      match lock with
      | Some true => throw (AppError "This content is currently locked by the administrator." 403)
      | _ => ret tt
      end
  | None => ret tt
  end.

Definition getExtension (mimetype : string) : M string :=
  if String.eqb mimetype "image/jpeg" then ret ".jpg"
  else if String.eqb mimetype "image/jpg" then ret ".jpg"
  else if String.eqb mimetype "image/png" then ret ".png"
  else if String.eqb mimetype "image/webp" then ret ".webp"
  else if String.eqb mimetype "application/pdf" then ret ".pdf"
  else if String.eqb mimetype "application/vnd.openxmlformats-officedocument.presentationml.presentation" then ret ".pptx"
  else if String.eqb mimetype "application/vnd.ms-powerpoint" then ret ".ppt"
  else if String.eqb mimetype "application/msword" then ret ".doc"
  else if String.eqb mimetype "application/vnd.openxmlformats-officedocument.wordprocessingml.document" then ret ".docx"
  else if String.eqb mimetype "text/plain" then ret ".txt"
  else throw (AppError "Unsupported file type" 400).

Definition validateConfig : M unit :=
  do ok <- gets bunnyConfigured ;;
  throw_if (negb ok) (AppError "Storage not configured (Missing ENV)" 503).

Definition allowedMimes : list string :=
  [ "application/pdf";
    "application/vnd.openxmlformats-officedocument.presentationml.presentation";
    "application/vnd.ms-powerpoint";
    "application/msword";
    "application/vnd.openxmlformats-officedocument.wordprocessingml.document";
    "text/plain" ].

Definition includes (l : list string) (s : string) : bool :=
  existsb (String.eqb s) l.

Definition uploadLessonPdf (caller lessonId : string) (file : MulterFile)
    (title : option string) (isSecureStr : option SecureArg) (uuid : string)
    : M UploadLessonResult :=
  validateConfig ;;;
  throw_if (negb (includes allowedMimes (mimetype file)))
    (AppError "Unsupported file type. Allowed: PDF, PPTX, DOCX, TXT" 400) ;;;
  (* PHASE 10-C: Default to TRUE for security/conversion if not specified *)
  let requestedSecure := match isSecureStr with
                         | None => true
                         | Some a => secureArg_is_true a
                         end in
  let requiresNormalization := negb (String.eqb (mimetype file) "application/pdf") in
  let isSecure := requestedSecure || requiresNormalization in
  (if requiresNormalization && negb requestedSecure
   then console_log (LogWarn ("[UploadService] Forcing secure conversion for non-PDF file: "
                              +:+ originalname file +:+ " (" +:+ mimetype file +:+ ")"))
   else ret tt) ;;;
  do part <- part_findUnique lessonId ;;
  match part with
  | Some part =>
      throw_if (negb (String.eqb (part_instructorId part) caller)) (AppError "Access denied" 403) ;;;
      do lastFile <- gets (λ w, lastOrder (partFiles w) lessonId) ;;
      let order := or_zero lastFile + 1 in
      let fileId := uuid in
      if isSecure then
        (* 1. SECURE PATH (Watermarking + Encrypted View) *)
        do ext <- getExtension (mimetype file) ;;
        let sourceKey := "/staging/pdf-input/" +:+ fileId +:+ "/source" +:+ ext in
        uploadPrivate file sourceKey ;;;
        let originalNameBase := path_parse_name (originalname file) in
        let displayName := originalNameBase +:+ ".pdf" in
        do nextOrder <- getNextOrder lessonId ;;
        partFile_create
          {| pf_id := fileId;
             pf_partId := lessonId;
             pf_title := or_string title (originalname file);
             pf_displayName := Some displayName;
             pf_type := "PDF";
             pf_storageKey := "";
             pf_renderStatus := PROCESSING;
             pf_order := nextOrder;
             pf_isSecure := isSecure;
             pf_pageCount := DEFAULT_PAGE_COUNT |} ;;;
        pdfQueue_add "watermark-pdf"
          {| sourceKey := Some sourceKey;
             sourceMime := Some (mimetype file);
             originalName := Some (originalname file);
             partFileId := fileId;
             adminName := Some "Dr. Manal";
             filePath := None |} ;;;
        ret (Queued fileId)
      else
        (* 2. DOWNLOADABLE PATH (Direct Passthrough) *)
        let key := "/public/" +:+ lessonId +:+ "/" +:+ fileId +:+ "/" +:+ originalname file in
        uploadPublic file key ;;;
        do record <- partFile_create
          {| pf_id := fileId;
             pf_partId := lessonId;
             pf_title := or_string title (originalname file);
             pf_displayName := None;
             pf_type := "PDF";
             pf_storageKey := key;
             pf_renderStatus := COMPLETED;
             pf_order := order;
             pf_isSecure := false;
             pf_pageCount := DEFAULT_PAGE_COUNT |} ;;
        ret (Created record)
  | None => throw (AppError "Part not found" 404)
  end.

(** Steps 1 and 2 shared by the read endpoints: look the asset up and
    decide [hasAccess]; returns the row, the enrollment and whether the
    caller is instructor or admin. *)
Definition lookupWithAccess (caller assetId : string)
    : M (PartFile * option Enrollment * bool * bool) :=
  do partFile <- partFile_findUnique assetId ;;
  match partFile with
  | None => throw (AppError "Document not found" 404)
  | Some partFile =>
      do part <- part_findUnique (pf_partId partFile) ;;
      match part with
      | None => throw (PrismaError "relation part missing")
      | Some course =>
          do enrollment <- enrollment_findUnique caller (part_courseId course) ;;
          let isInstructor := String.eqb (part_instructorId course) caller in
          do user <- user_findUnique caller ;;
          let isAdmin := match user with
                         | Some u => String.eqb (role u) "ADMIN"
                         | None => false
                         end in
          let hasAccess :=
            isInstructor || isAdmin || part_courseIsFree course
            || match enrollment with
               | Some e => String.eqb (enr_status e) "ACTIVE"
               | None => false
               end in
          throw_if (negb hasAccess) (AppError "Access denied" 403) ;;;
          ret (partFile, enrollment, isInstructor, isAdmin)
      end
  end.

Definition getRenderedPage (caller partFileId : string) (pageNumber : JsInt)
    : M StreamResult :=
  do '(partFile, enrollment, isInstructor, isAdmin) <- lookupWithAccess caller partFileId ;;
  (match enrollment with
   | Some e =>
       if negb isInstructor && negb isAdmin
       then checkPartAccessWithLocks caller (pf_partId partFile) (Some (enr_id e))
       else ret tt
   | None => ret tt
   end) ;;;
  (* 3. Resolve Page Key *)
  throw_if (page_out_of_range pageNumber (pf_pageCount partFile))
    (AppError "Page not found" 404) ;;;
  let pageKey := pf_storageKey partFile +:+ "/page-" +:+ JsInt_toString pageNumber +:+ ".png" in
  (* 4. Return Stream (Proxy) *)
  do body <- downloadStream (Some pageKey) ;;
  ret {| stream := body;
         contentType := "image/png";
         sr_filename := "page-" +:+ JsInt_toString pageNumber +:+ ".png" |}.

Definition getSecurePdf (caller assetId : string) : M StreamResult :=
  do '(partFile, enrollment, isInstructor, isAdmin) <- lookupWithAccess caller assetId ;;
  (match enrollment with
   | Some e =>
       if negb isInstructor && negb isAdmin
       then checkPartAccessWithLocks caller (pf_partId partFile) (Some (enr_id e))
       else ret tt
   | None => ret tt
   end) ;;;
  (* 3. Determine Source *)
  let key := pf_storageKey partFile in
  throw_if (negb (bool_decide (pf_renderStatus partFile = COMPLETED)))
    (AppError "Document is processing" 423) ;;;
  (* 4. Return Stream *)
  try_catch
    (do body <- downloadStream (Some key) ;;
     let downloadName := match pf_displayName partFile with
                         | Some d => if String.eqb d "" then pf_title partFile +:+ ".pdf" else d
                         | None => pf_title partFile +:+ ".pdf"
                         end in
     ret {| stream := body;
            contentType := "application/pdf";
            sr_filename := downloadName |})
    (λ _, throw (AppError "File not found in storage" 404)).

(** STRICT PHASE 10: Metadata Access for Viewer.  The lookup and the
    access decision are the ones of the two stream endpoints; there is no
    lock check here. *)
Definition getDocumentMetadata (caller assetId : string) : M DocumentMetadata :=
  do '(partFile, enrollment, isInstructor, isAdmin) <- lookupWithAccess caller assetId ;;
  ret {| md_title := pf_title partFile;
         md_displayName := or_string (pf_displayName partFile) (pf_title partFile);
         md_pageCount := pf_pageCount partFile;
         md_renderStatus := pf_renderStatus partFile;
         md_isSecure := pf_isSecure partFile;
         md_id := pf_id partFile |}.

End UploadService.

(** ** The upload routes ([src/modules/upload/upload.routes.ts]) *)

(** [fileFilter(allowedMimes)]: the callback gets [(null, true)] or an
    [AppError]. *)
Definition fileFilter (allowedMimes : list string) (file : MulterFile) : Result bool :=
  if UploadService.includes allowedMimes (mimetype file)
  then Ok true
  else Throw (AppError "Invalid file type" 400).

(** The list given to [fileFilter] for [uploadPdf]. *)
Definition uploadPdf_mimes : list string :=
  [ "application/pdf";
    "application/vnd.openxmlformats-officedocument.presentationml.presentation"; (* pptx *)
    "application/vnd.ms-powerpoint"; (* ppt *)
    "application/msword"; (* doc *)
    "application/vnd.openxmlformats-officedocument.wordprocessingml.document"; (* docx *)
    "text/plain" (* txt *) ].

(** ** The [pdf-processing] worker *)

Inductive Font : Type := HelveticaBold | Helvetica.

(** One [page.drawText] call.  Sizes and positions are floating-point
    functions of the page size and are left out; the text, the font, the
    opacity (in hundredths) and whether the mark is rotated are kept. *)
Record Mark : Type := {
  mark_text : string;
  mark_font : Font;
  mark_opacity : Z;
  mark_rotated : bool
}.

(** A page of a loaded [PDFDocument]: its content and the marks drawn. *)
Record Page : Type := {
  page_content : bytes;
  page_marks : list Mark
}.

Abbreviation PdfDoc := (list Page).

(** The places where the worker calls Prisma or the storage; each call can
    fail for reasons outside the model (network, database down). *)
Inductive CallSite : Type :=
  | DbStep1 | StorageDownload | StorageUpload | DbStep8 | StorageDelete | DbMarkFailed.

(** What the worker's collaborators do in one run.  [constants/watermark],
    LibreOffice and pdf-lib are not among the sources: the two labels and
    the three library calls are taken as given. *)
Record WorkerEnv : Type := {
  WATERMARK_BRAND : string;
  WATERMARK_PHONE : string;
  sofficeAvailable : bool;
  convertAsync : bytes → Result bytes;          (* libre.convert(bytes, 'pdf') *)
  PDFDocument_load : bytes → Result PdfDoc;
  embedFont : Font → Result unit;
  PDFDocument_save : PdfDoc → Result bytes;
  fault : CallSite → option Error
}.

Definition lift_result {A} (r : Result A) : M A :=
  match r with
  | Ok a => ret a
  | Throw e => throw e
  end.

(** A collaborator call that may fail for an outside reason before it has
    any effect. *)
Definition at_site {A} (env : WorkerEnv) (site : CallSite) (m : M A) : M A :=
  match fault env site with
  | Some e => throw e
  | None => m
  end.

Definition set_renderStatus (s : RenderStatus) (f : PartFile) : PartFile :=
  {| pf_id := pf_id f; pf_partId := pf_partId f; pf_title := pf_title f;
     pf_displayName := pf_displayName f; pf_type := pf_type f;
     pf_storageKey := pf_storageKey f; pf_renderStatus := s;
     pf_order := pf_order f; pf_isSecure := pf_isSecure f;
     pf_pageCount := pf_pageCount f |}.

(** The [data] of the update of step 8. *)
Definition set_completed (key title : string) (pageCount : Z) (f : PartFile) : PartFile :=
  {| pf_id := pf_id f; pf_partId := pf_partId f; pf_title := title;
     pf_displayName := pf_displayName f; pf_type := pf_type f;
     pf_storageKey := key; pf_renderStatus := COMPLETED;
     pf_order := pf_order f; pf_isSecure := pf_isSecure f;
     pf_pageCount := pageCount |}.

Module PdfWorker.

Definition inferExtension (sourceMime originalName : option string) : string :=
  let mime := default "" sourceMime in
  if String.eqb mime "application/pdf" then ".pdf"
  else if String.eqb mime "application/vnd.openxmlformats-officedocument.presentationml.presentation" then ".pptx"
  else if String.eqb mime "application/vnd.ms-powerpoint" then ".ppt"
  else if String.eqb mime "application/msword" then ".doc"
  else if String.eqb mime "application/vnd.openxmlformats-officedocument.wordprocessingml.document" then ".docx"
  else if String.eqb mime "text/plain" then ".txt"
  else
    let fromName := toLowerCase (path_extname (or_string originalName "")) in
    if String.eqb fromName "" then ".bin" else fromName.

Definition logWorkerError (category jobId partFileId : string)
    (sourceKey : option string) (error : Error) : M unit :=
  console_log (LogWorkerError category jobId partFileId sourceKey error).

(** The three [drawText] calls of the [pages.forEach] body. *)
Definition watermarkPage (env : WorkerEnv) (page : Page) : Page :=
  let footerText := WATERMARK_BRAND env +:+ " | " +:+ WATERMARK_PHONE env in
  {| page_content := page_content page;
     page_marks := page_marks page ++
       [ {| mark_text := WATERMARK_BRAND env; mark_font := HelveticaBold;
            mark_opacity := 18; mark_rotated := true |};
         {| mark_text := WATERMARK_PHONE env; mark_font := Helvetica;
            mark_opacity := 22; mark_rotated := true |};
         {| mark_text := footerText; mark_font := Helvetica;
            mark_opacity := 22; mark_rotated := false |} ] |}.

Definition destinationPathOf (partFileId : string) : string :=
  "/secured/" +:+ partFileId +:+ ".pdf".

(** The body of the [try] block: steps 1 to 9. *)
Definition processJob (env : WorkerEnv) (jobId : string) (data : PdfJobData) : M unit :=
  let partFileId := partFileId data in
  let sourceKey := sourceKey data in
  (* Step 1: Updating status to PROCESSING *)
  at_site env DbStep1 (partFile_update partFileId (set_renderStatus PROCESSING)) ;;;
  (* 2. Download source file from shared storage *)
  do sourceBytes <-
    try_catch (at_site env StorageDownload (downloadStream sourceKey))
      (λ error, logWorkerError "SOURCE_NOT_FOUND" jobId partFileId sourceKey error ;;;
                throw error) ;;
  (* 3. Normalize to PDF (Universal Doc Support) *)
  let ext := inferExtension (sourceMime data) (originalName data) in
  do pdfBytes <-
    (if negb (String.eqb ext ".pdf") then
       try_catch (lift_result (convertAsync env sourceBytes))
         (λ error, logWorkerError "CONVERT_FAILED" jobId partFileId sourceKey error ;;;
                   throw error)
     else ret sourceBytes) ;;
  (* 4. Load PDF for Watermarking *)
  do pdfDoc <- lift_result (PDFDocument_load env pdfBytes) ;;
  (* 5. Watermark Pages *)
  let pages := pdfDoc in
  lift_result (embedFont env HelveticaBold) ;;;
  lift_result (embedFont env Helvetica) ;;;
  let watermarked := map (watermarkPage env) pages in
  (* 6. Save processed PDF *)
  do processedPdfBytes <- lift_result (PDFDocument_save env watermarked) ;;
  let baseName := path_parse_name (or_string (originalName data) partFileId) in
  let filePayload := {| buffer := processedPdfBytes;
                        mimetype := "application/pdf";
                        originalname := baseName +:+ ".pdf" |} in
  (* 7. Upload to Bunny (Secure/Private Zone) *)
  let destinationPath := destinationPathOf partFileId in
  try_catch (at_site env StorageUpload (uploadPrivate filePayload destinationPath))
    (λ error, logWorkerError "UPLOAD_FAILED" jobId partFileId sourceKey error ;;;
              throw error) ;;;
  (* 8. Update DB Status *)
  try_catch
    (at_site env DbStep8
       (partFile_update partFileId
          (set_completed destinationPath (baseName +:+ ".pdf") (Z.of_nat (length pages)))))
    (λ error, logWorkerError "DB_UPDATE_FAILED" jobId partFileId sourceKey error ;;;
              throw error) ;;;
  (* 9. Cleanup staged source file (best effort) *)
  try_catch (at_site env StorageDelete (storage_delete sourceKey))
    (λ _, console_log (LogWarn ("[PDF Worker] Step 9: Failed to delete staged source file. sourceKey="
                                +:+ default "undefined" sourceKey))).

(** The handler of the top-level [catch]. *)
Definition onFailure (env : WorkerEnv) (jobId : string) (data : PdfJobData)
    (error : Error) : M unit :=
  console_log (LogCritical jobId (partFileId data) (sourceKey data) error) ;;;
  try_catch
    (at_site env DbMarkFailed
       (partFile_update (partFileId data) (set_renderStatus FAILED)) ;;;
     console_log (LogMarkedFailed jobId))
    (λ dbError, logWorkerError "DB_UPDATE_FAILED" jobId (partFileId data) (sourceKey data) dbError) ;;;
  throw error.

(** Smoke Test: Check LibreOffice Availability.  Both [try] blocks only
    log. *)
Definition smokeTest (env : WorkerEnv) : M unit :=
  if sofficeAvailable env then ret tt
  else console_log (LogWarn "[PDF Worker] LibreOffice Check: 'soffice' command failed. Trying default path...").

(** The processor given to [new Worker('pdf-processing', ...)];
    [job_id] is [job.id]. *)
Definition pdfWorker (env : WorkerEnv) (job_id : option string) (data : PdfJobData) : M unit :=
  let jobId := default "unknown" job_id in
  smokeTest env ;;;
  try_catch (processJob env jobId data) (onFailure env jobId data).

End PdfWorker.

(** ** Runs of the system

    The operations the outside world can trigger.  A job stays deliverable
    after it was put on the queue: delivery is at-least-once. *)

Inductive Op : Type :=
  | OpInitUpload (caller : string) (input : InitUploadInput) (uuid : string) (now : Z)
  | OpUploadChunk (input : ChunkUploadInput)
  | OpFinalizeUpload (caller : string) (input : FinalizeUploadInput) (uuid : string)
  | OpSweep (now : Z) (uploadId : string)
  | OpRedisInitUpload (caller : string) (input : InitUploadInput) (uuid : string) (now : Z)
  | OpRedisUploadChunk (input : ChunkUploadInput)
  | OpRedisFinalizeUpload (label caller : string) (input : FinalizeUploadInput) (uuid : string)
  | OpRedisExpire (uploadId : string)
  | OpUploadLessonPdf (caller lessonId : string) (file : MulterFile)
      (title : option string) (isSecureStr : option SecureArg) (uuid : string)
  | OpWorker (env : WorkerEnv) (job_id : option string) (data : PdfJobData).

Definition exec {A} (m : M A) (w : World) : World := snd (m w).

Definition runOp (op : Op) : World → World :=
  match op with
  | OpInitUpload c i u n => exec (ChunkedUploadService.initUpload c i u n)
  | OpUploadChunk i => exec (ChunkedUploadService.uploadChunk i)
  | OpFinalizeUpload c i u => exec (ChunkedUploadService.finalizeUpload c i u)
  | OpSweep n u => exec (ChunkedUploadService.sweepSession n u)
  | OpRedisInitUpload c i u n => exec (RedisChunkedUploadService.initUpload c i u n)
  | OpRedisUploadChunk i => exec (RedisChunkedUploadService.uploadChunk i)
  | OpRedisFinalizeUpload l c i u => exec (RedisChunkedUploadService.finalizeUpload l c i u)
  | OpRedisExpire u =>
      exec (RedisChunkedUploadService.redis_del (RedisChunkedUploadService.getRedisKey u))
  | OpUploadLessonPdf c l f t s u => exec (UploadService.uploadLessonPdf c l f t s u)
  | OpWorker env j d => exec (PdfWorker.pdfWorker env j d)
  end.

(** A deployment runs one of the two chunked-upload services. *)
Inductive Backend : Type := InMemorySessions | RedisSessions.

(** [initUploadSchema] of the controller: [fileSize] and [totalChunks] are
    positive integers. *)
Definition initUploadSchema (input : InitUploadInput) : Prop :=
  0 < in_fileSize input ∧ 0 < in_totalChunks input.

(** The worker only runs jobs that were put on the queue; the chunked
    operations are those of the deployed service, and an [initUpload]
    request has passed the controller's schema. *)
Definition enabled (b : Backend) (op : Op) (w : World) : Prop :=
  match op with
  | OpWorker _ _ data => ∃ name, (name, data) ∈ pdfQueue w
  | OpInitUpload _ input _ _ => b = InMemorySessions ∧ initUploadSchema input
  | OpUploadChunk _ | OpFinalizeUpload _ _ _ | OpSweep _ _ =>
      b = InMemorySessions
  | OpRedisInitUpload _ input _ _ => b = RedisSessions ∧ initUploadSchema input
  | OpRedisUploadChunk _ | OpRedisFinalizeUpload _ _ _ _
  | OpRedisExpire _ =>
      b = RedisSessions
  | OpUploadLessonPdf _ _ _ _ _ _ => True
  end.

(** A fresh deployment: no session, no scratch file, no asset, no job. *)
Definition initial (w : World) : Prop :=
  uploadSessions w = ∅ ∧ redis w = ∅ ∧ scratch w = ∅ ∧ tmpFiles w = ∅ ∧
  partFiles w = ∅ ∧ bunny w = ∅ ∧ pdfQueue w = [] ∧ console w = [].

Inductive reachable (b : Backend) : World → Prop :=
  | reachable_initial w : initial w → reachable b w
  | reachable_step w op : reachable b w → enabled b op w → reachable b (runOp op w).

(** ** Splitting a file into chunks (what the client does) *)

Fixpoint takeZ (n : Z) (l : bytes) : bytes :=
  match l with
  | [] => []
  | x :: rest => if Z.leb n 0 then [] else x :: takeZ (n - 1) rest
  end.

Fixpoint dropZ (n : Z) (l : bytes) : bytes :=
  match l with
  | [] => []
  | x :: rest => if Z.leb n 0 then l else dropZ (n - 1) rest
  end.

(** Chunk [i] of a file: the bytes from [i * CHUNK], at most [CHUNK] of them. *)
Definition chunkOf (file : bytes) (i : Z) : bytes :=
  takeZ UPLOAD_LIMITS.CHUNK (dropZ (i * UPLOAD_LIMITS.CHUNK) file).

(** The chunk request the client sends for index [i]. *)
Definition chunkRequest (uploadId : string) (file : bytes) (total : Z) (i : Z)
    : ChunkUploadInput :=
  {| c_uploadId := uploadId; c_chunkIndex := i; c_totalChunks := total;
     c_chunk := chunkOf file i |}.

(** Reading a decimal numeral back: the value of a digit string and ten to
    the power of its length. *)
Definition digit_of (c : ascii) : N := (N.of_nat (nat_of_ascii c) - 48)%N.

Fixpoint dec_value (s : string) : N * N :=
  match s with
  | EmptyString => (0, 1)%N
  | String c rest =>
      let '(v, p) := dec_value rest in
      (digit_of c * p + v, 10 * p)%N
  end.

(** The client sends the chunks of [file] one request after the other, in
    the order [order]. *)
Fixpoint uploadInOrder (uploadId : string) (file : bytes) (total : Z)
    (order : list Z) : M unit :=
  match order with
  | [] => ret tt
  | i :: rest =>
      ChunkedUploadService.uploadChunk (chunkRequest uploadId file total i) ;;;
      uploadInOrder uploadId file total rest
  end.

Fixpoint redis_uploadInOrder (uploadId : string) (file : bytes) (total : Z)
    (order : list Z) : M unit :=
  match order with
  | [] => ret tt
  | i :: rest =>
      RedisChunkedUploadService.uploadChunk (chunkRequest uploadId file total i) ;;;
      redis_uploadInOrder uploadId file total rest
  end.

(** ** Invariants of the stores *)

(** [m] keeps [I], however it ends. *)
Definition preserves {A} (I : World → Prop) (m : M A) : Prop :=
  ∀ w, I w → I (snd (m w)).

(** An in-memory session: it has at least one chunk, its scratch directory
    is the one derived from its id and exists, every received index is in
    range and has its chunk file. *)
Definition session_ok (fs : gmap string (gmap string bytes)) (id : string)
    (s : ChunkedUploadSession) : Prop :=
  0 < totalChunks s ∧
  tempDir s = tempDirOf id ∧
  ∃ d, fs !! tempDir s = Some d ∧
       ∀ k, k ∈ receivedChunks s →
            0 ≤ k < totalChunks s ∧ is_Some (d !! chunkName k).

Definition sessions_ok (w : World) : Prop :=
  ∀ id s, uploadSessions w !! id = Some s → session_ok (scratch w) id s.

(** The same for a session kept in Redis; the stored array has no
    duplicates. *)
Definition redis_session_ok (fs : gmap string (gmap string bytes)) (key : string)
    (s : RedisSession) : Prop :=
  0 < r_totalChunks s ∧
  key = RedisChunkedUploadService.getRedisKey (r_uploadId s) ∧
  r_tempDir s = tempDirOf (r_uploadId s) ∧
  NoDup (r_receivedChunks s) ∧
  ∃ d, fs !! r_tempDir s = Some d ∧
       ∀ k, k ∈ r_receivedChunks s →
            0 ≤ k < r_totalChunks s ∧ is_Some (d !! chunkName k).

Definition redis_sessions_ok (w : World) : Prop :=
  ∀ key s, redis w !! key = Some s → redis_session_ok (scratch w) key s.

Definition backend_ok (b : Backend) (w : World) : Prop :=
  match b with
  | InMemorySessions => sessions_ok w
  | RedisSessions => redis_sessions_ok w
  end.

(** What holds of every asset row at every time: a COMPLETED row has a
    storage key, and a row without storage key has no page count. *)
Definition asset_ok (f : PartFile) : Prop :=
  (pf_renderStatus f = COMPLETED → pf_storageKey f ≠ "") ∧
  (pf_storageKey f = "" → pf_pageCount f = 0 ∧ pf_renderStatus f ≠ COMPLETED).

(** Every asset row has the property [P], which may depend on the id. *)
Definition rows_ok (P : string → PartFile → Prop) (w : World) : Prop :=
  ∀ id f, partFiles w !! id = Some f → P id f.

Definition assets_ok : World → Prop := rows_ok (λ _, asset_ok).

(** The set [{0, ..., n-1}] *)
Definition allIndices (n : Z) : gset Z := list_to_set (seqZ 0 n).

(** Scratch directories are only added to: every file of [fs] is still in
    [fs'], possibly with another content. *)
Definition scratch_grows (fs fs' : gmap string (gmap string bytes)) : Prop :=
  ∀ dir d, fs !! dir = Some d →
    ∃ d', fs' !! dir = Some d' ∧ ∀ name, is_Some (d !! name) → is_Some (d' !! name).

(** [w] comes after [w0] without any change to the sessions and without
    any scratch file removed. *)
Definition since (w0 w : World) : Prop :=
  uploadSessions w = uploadSessions w0 ∧ redis w = redis w0 ∧
  scratch_grows (scratch w0) (scratch w).

(** Re-running a job leaves its asset row as it was and ends normally. *)
Definition redelivery_equivalent (env : WorkerEnv) (job_id : option string)
    (data : PdfJobData) (w : World) : Prop :=
  ∃ w', PdfWorker.pdfWorker env job_id data w = (Ok tt, w') ∧
        partFiles w' !! partFileId data = partFiles w !! partFileId data.

(** The storage key is non-empty exactly for a COMPLETED row. *)
Definition key_iff_completed (f : PartFile) : Prop :=
  pf_storageKey f ≠ "" ↔ pf_renderStatus f = COMPLETED.

(** [op] is not a run of the worker for an asset [id] that already has a
    storage key. *)
Definition no_rerun (op : Op) (id : string) (w : World) : Prop :=
  match op with
  | OpWorker _ _ data =>
      partFileId data = id → ∀ f, partFiles w !! id = Some f → pf_storageKey f = ""
  | _ => True
  end.

(** What a run of the worker computes from the job and the source bytes:
    the title written in step 8, the object stored in step 7 and the
    outcome of the normalization of step 3. *)
Definition job_title (data : PdfJobData) : string :=
  path_parse_name (or_string (originalName data) (partFileId data)) +:+ ".pdf".

Definition secured_object (out : bytes) : StoredObject :=
  {| so_zone := PrivateZone; so_body := out; so_mimetype := "application/pdf" |}.

Definition normalized (env : WorkerEnv) (data : PdfJobData) (source : bytes)
    : Result bytes :=
  if negb (String.eqb (PdfWorker.inferExtension (sourceMime data) (originalName data)) ".pdf")
  then convertAsync env source
  else Ok source.

(** The answer of [getSecurePdf] for an asset that is not COMPLETED. *)
Definition processing_error : Error := AppError "Document is processing" 423.

(** For an asset that is not COMPLETED the page count is 0 and
    [getRenderedPage] answers 404 "Page not found" for every page from 1. *)
Definition unrendered_page_not_found (w : World) (id caller : string) : Prop :=
  ∀ f, partFiles w !! id = Some f → pf_renderStatus f ≠ COMPLETED →
       pf_pageCount f = 0 ∧
       ∀ page, 1 ≤ page →
               fst (UploadService.getRenderedPage caller id (Int page) w)
               = Throw (AppError "Page not found" 404).

(** The stores a run of the worker never writes are as in [w0]. *)
Definition worker_frame (w0 w : World) : Prop :=
  uploadSessions w = uploadSessions w0 ∧ redis w = redis w0 ∧
  scratch w = scratch w0 ∧ tmpFiles w = tmpFiles w0 ∧ pdfQueue w = pdfQueue w0 ∧
  parts w = parts w0 ∧ users w = users w0 ∧ enrollments w = enrollments w0 ∧
  partLocks w = partLocks w0.

(** The stored objects other than the destination and the staged source of
    a job are as in [w0]. *)
Definition storage_frame (data : PdfJobData) (w0 w : World) : Prop :=
  ∀ k, k ≠ PdfWorker.destinationPathOf (partFileId data) →
       Some k ≠ sourceKey data →
       bunny w !! k = bunny w0 !! k.

(** The collaborators of the worker do their part in a run on the source
    bytes [source]: no call site fails, the normalization and pdf-lib give
    the document [doc], and the watermarked document is serialized to
    [out]. *)
Definition collaborators_work (env : WorkerEnv) (data : PdfJobData) (source : bytes)
    (doc : PdfDoc) (out : bytes) : Prop :=
  (∀ site, fault env site = None) ∧
  (∃ pdfBytes, normalized env data source = Ok pdfBytes ∧
               PDFDocument_load env pdfBytes = Ok doc) ∧
  embedFont env HelveticaBold = Ok tt ∧ embedFont env Helvetica = Ok tt ∧
  PDFDocument_save env (map (PdfWorker.watermarkPage env) doc) = Ok out.

(** The key under which the secure paths stage a source. *)
Definition staged_key (fileId ext : string) : string :=
  "/staging/pdf-input/" +:+ fileId +:+ "/source" +:+ ext.

(** The job [uploadLessonPdf] puts on the queue for a file it stages. *)
Definition lesson_job (file : MulterFile) (fileId : string) : PdfJobData :=
  {| sourceKey :=
       Some (staged_key fileId
               (PdfWorker.inferExtension (Some (mimetype file)) (Some (originalname file))));
     sourceMime := Some (mimetype file);
     originalName := Some (originalname file);
     partFileId := fileId;
     adminName := Some "Dr. Manal";
     filePath := None |}.

(** The caller did not ask for a direct publication, or the file is not a
    PDF. *)
Definition secure_requested (file : MulterFile) (isSecureStr : option SecureArg) : Prop :=
  isSecureStr = None ∨ isSecureStr = Some (SecBool true)
  ∨ isSecureStr = Some (SecString "true") ∨ mimetype file ≠ "application/pdf".

(** The answer of the stream endpoints for a part the administrator has
    locked for the caller's enrollment. *)
Definition locked_error : Error :=
  AppError "This content is currently locked by the administrator." 403.

(** A queued job is a [watermark-pdf] job for an asset that exists and has
    its security flag set. *)
Definition queued_job_ok (w : World) (job : string * PdfJobData) : Prop :=
  job.1 = "watermark-pdf" ∧
  ∃ f, partFiles w !! partFileId job.2 = Some f ∧ pf_isSecure f = true.

(** An asset without security flag is published: COMPLETED, under a key of
    the public zone, without pages. *)
Definition published_ok (f : PartFile) : Prop :=
  pf_isSecure f = false →
  pf_renderStatus f = COMPLETED ∧ pf_pageCount f = 0 ∧
  ∃ a, pf_storageKey f = "/public/" +:+ a.

(** The queue and the asset table fit together. *)
Definition pipeline_ok (w : World) : Prop :=
  (∀ job, job ∈ pdfQueue w → queued_job_ok w job) ∧
  (∀ id f, partFiles w !! id = Some f → pf_id f = id ∧ published_ok f).

(** The order numbers of the assets: at least 1, and different for two
    different assets of the same part. *)
Definition orders_ok (w : World) : Prop :=
  (∀ id f, partFiles w !! id = Some f → 1 ≤ pf_order f) ∧
  (∀ id1 id2 f1 f2, partFiles w !! id1 = Some f1 → partFiles w !! id2 = Some f2 →
                    id1 ≠ id2 → pf_partId f1 = pf_partId f2 →
                    pf_order f1 ≠ pf_order f2).

(** * Scenarios *)

(** A course with one part, its instructor and an enrolled student; no
    upload has happened yet. *)
Definition campus : World :=
  {| uploadSessions := ∅; redis := ∅; scratch := ∅; tmpFiles := ∅;
     parts := {[ "part-1" := {| part_courseId := "course-1";
                                part_instructorId := "instructor-1";
                                part_courseIsFree := false |} ]};
     users := {[ "instructor-1" := {| role := "INSTRUCTOR" |} ]};
     enrollments := {[ ("student-1", "course-1") :=
                         {| enr_id := "enr-1"; enr_status := "ACTIVE" |} ]};
     partLocks := ∅; partFiles := ∅; bunny := ∅; bunnyConfigured := true;
     pdfQueue := []; console := [] |}.

Definition docx_mime : string :=
  "application/vnd.openxmlformats-officedocument.wordprocessingml.document".

(** A 6 MiB [.docx] declared as two chunks, to be published directly. *)
Definition init_two_chunks : InitUploadInput :=
  {| in_filename := "notes.docx"; in_fileSize := 6291456; in_totalChunks := 2;
     in_mimeType := docx_mime; in_partId := "part-1"; in_isSecure := false |}.

(** A one-byte chunk sent for index 0 of that upload. *)
Definition short_first_chunk : ChunkUploadInput :=
  {| c_uploadId := "u1"; c_chunkIndex := 0; c_totalChunks := 2;
     c_chunk := [Byte.x61] |}.

(** A three-byte [.docx] declared as one chunk, to be published directly. *)
Definition init_small_docx : InitUploadInput :=
  {| in_filename := "notes.docx"; in_fileSize := 3; in_totalChunks := 1;
     in_mimeType := docx_mime; in_partId := "part-1"; in_isSecure := false |}.

Definition small_file : bytes := [Byte.x61; Byte.x62; Byte.x63].

Definition finalize_u1 : FinalizeUploadInput :=
  {| f_uploadId := "u1"; f_partId := "part-1"; f_isSecure := false |}.

(** The in-memory service after init and the only chunk of the small file. *)
Definition small_docx_uploaded : World :=
  exec (ChunkedUploadService.uploadChunk (chunkRequest "u1" small_file 1 0))
    (exec (ChunkedUploadService.initUpload "instructor-1" init_small_docx "u1" 0) campus).

(** The same with the Redis service. *)
Definition small_docx_uploaded_redis : World :=
  exec (RedisChunkedUploadService.uploadChunk (chunkRequest "u1" small_file 1 0))
    (exec (RedisChunkedUploadService.initUpload "instructor-1" init_small_docx "u1" 0) campus).

(** The session of the small upload as the in-memory service holds it
    after the only chunk arrived. *)
Definition small_docx_session : ChunkedUploadSession :=
  {| uploadId := "u1"; filename := "notes.docx"; fileSize := 3;
     mimeType := docx_mime; totalChunks := 1; receivedChunks := {[ 0 ]};
     partId := "part-1"; isSecure := false; tempDir := tempDirOf "u1";
     createdAt := 0; userId := "instructor-1" |}.

(** The same session as the Redis service stores it. *)
Definition small_docx_session_redis : RedisSession :=
  {| r_uploadId := "u1"; r_filename := "notes.docx"; r_fileSize := 3;
     r_mimeType := docx_mime; r_totalChunks := 1; r_receivedChunks := [0];
     r_partId := "part-1"; r_isSecure := false; r_tempDir := tempDirOf "u1";
     r_createdAt := 0; r_userId := "instructor-1" |}.

(** The services right after [initUpload] of the small upload. *)
Definition small_docx_open : World :=
  exec (ChunkedUploadService.initUpload "instructor-1" init_small_docx "u1" 0) campus.

Definition small_docx_open_redis : World :=
  exec (RedisChunkedUploadService.initUpload "instructor-1" init_small_docx "u1" 0) campus.

Definition small_docx_new_session : ChunkedUploadSession :=
  {| uploadId := "u1"; filename := "notes.docx"; fileSize := 3;
     mimeType := docx_mime; totalChunks := 1; receivedChunks := ∅;
     partId := "part-1"; isSecure := false; tempDir := tempDirOf "u1";
     createdAt := 0; userId := "instructor-1" |}.

Definition small_docx_new_session_redis : RedisSession :=
  {| r_uploadId := "u1"; r_filename := "notes.docx"; r_fileSize := 3;
     r_mimeType := docx_mime; r_totalChunks := 1; r_receivedChunks := [];
     r_partId := "part-1"; r_isSecure := false; r_tempDir := tempDirOf "u1";
     r_createdAt := 0; r_userId := "instructor-1" |}.

(** A small PDF lecture uploaded through the single-request endpoint on
    the secure path. *)
Definition pdf_file : MulterFile :=
  {| buffer := [Byte.x25; Byte.x50; Byte.x44; Byte.x46];
     mimetype := "application/pdf";
     originalname := "lecture-notes.pdf" |}.

Definition lesson_uploaded : World :=
  exec (UploadService.uploadLessonPdf "instructor-1" "part-1" pdf_file
          (Some "Notes") (Some (SecBool true)) "f1") campus.

(** The job that upload put on the queue. *)
Definition notes_job : PdfJobData :=
  {| sourceKey := Some "/staging/pdf-input/f1/source.pdf";
     sourceMime := Some "application/pdf";
     originalName := Some "lecture-notes.pdf";
     partFileId := "f1";
     adminName := Some "Dr. Manal";
     filePath := None |}.

(** Collaborators that work: every byte of the source is a page, saving
    writes the page contents followed by one byte per mark. *)
Definition healthy_env : WorkerEnv :=
  {| WATERMARK_BRAND := "BRAND";
     WATERMARK_PHONE := "PHONE";
     sofficeAvailable := true;
     convertAsync := λ b, Ok b;
     PDFDocument_load := λ b, Ok (map (λ x, {| page_content := [x]; page_marks := [] |}) b);
     embedFont := λ _, Ok tt;
     PDFDocument_save :=
       λ doc, Ok (concat (map (λ p, page_content p
                                    ++ map (λ _, Byte.x57) (page_marks p)) doc));
     fault := λ _, None |}.

(** The same, except that pdf-lib cannot parse the document. *)
Definition broken_pdf_env : WorkerEnv :=
  {| WATERMARK_BRAND := "BRAND";
     WATERMARK_PHONE := "PHONE";
     sofficeAvailable := true;
     convertAsync := λ b, Ok b;
     PDFDocument_load := λ _, Throw (LibError "Failed to parse PDF document");
     embedFont := λ _, Ok tt;
     PDFDocument_save := λ _, Ok [];
     fault := λ _, None |}.

(** The same as [healthy_env], except that the storage refuses the delete
    of step 9. *)
Definition keep_source_env : WorkerEnv :=
  {| WATERMARK_BRAND := "BRAND";
     WATERMARK_PHONE := "PHONE";
     sofficeAvailable := true;
     convertAsync := λ b, Ok b;
     PDFDocument_load := λ b, Ok (map (λ x, {| page_content := [x]; page_marks := [] |}) b);
     embedFont := λ _, Ok tt;
     PDFDocument_save :=
       λ doc, Ok (concat (map (λ p, page_content p
                                    ++ map (λ _, Byte.x57) (page_marks p)) doc));
     fault := λ site, match site with
                      | StorageDelete => Some (StorageError "delete" "timeout")
                      | _ => None
                      end |}.

(** The job has run once ... *)
Definition lesson_completed : World :=
  exec (PdfWorker.pdfWorker healthy_env (Some "1") notes_job) lesson_uploaded.

(** ... and was delivered a second time. *)
Definition lesson_redelivered : World :=
  exec (PdfWorker.pdfWorker healthy_env (Some "1") notes_job) lesson_completed.

(** The job has run once and the staged source stayed in storage. *)
Definition lesson_completed_source_kept : World :=
  exec (PdfWorker.pdfWorker keep_source_env (Some "1") notes_job) lesson_uploaded.

Definition notes_source_key : string := "/staging/pdf-input/f1/source.pdf".

(** The asset row of the lecture after the redelivery. *)
Definition redelivered_row : PartFile :=
  {| pf_id := "f1"; pf_partId := "part-1"; pf_title := "lecture-notes.pdf";
     pf_displayName := Some "lecture-notes.pdf"; pf_type := "PDF";
     pf_storageKey := "/secured/f1.pdf"; pf_renderStatus := FAILED;
     pf_order := 1; pf_isSecure := true; pf_pageCount := 4 |}.

(** The asset row of the lecture right after the upload. *)
Definition uploaded_row : PartFile :=
  {| pf_id := "f1"; pf_partId := "part-1"; pf_title := "Notes";
     pf_displayName := Some "lecture-notes.pdf"; pf_type := "PDF";
     pf_storageKey := ""; pf_renderStatus := PROCESSING;
     pf_order := 1; pf_isSecure := true; pf_pageCount := 0 |}.

(** The campus with two more accounts: an administrator and an instructor
    of another course. *)
Definition campus_staff : World :=
  {| uploadSessions := ∅; redis := ∅; scratch := ∅; tmpFiles := ∅;
     parts := parts campus;
     users := {[ "instructor-1" := {| role := "INSTRUCTOR" |};
                 "instructor-2" := {| role := "INSTRUCTOR" |};
                 "admin-1" := {| role := "ADMIN" |} ]};
     enrollments := enrollments campus;
     partLocks := ∅; partFiles := ∅; bunny := ∅; bunnyConfigured := true;
     pdfQueue := []; console := [] |}.

(** The in-memory service after the owner has finalized the small upload. *)
Definition small_docx_published : World :=
  exec (ChunkedUploadService.finalizeUpload "instructor-1" finalize_u1 "f1")
    small_docx_uploaded.

(** The staged source of the lecture, the document pdf-lib loads from it
    with [healthy_env], and the bytes of the watermarked document. *)
Definition staged_notes : StoredObject :=
  {| so_zone := PrivateZone; so_body := buffer pdf_file; so_mimetype := "application/pdf" |}.

Definition notes_doc : PdfDoc :=
  map (λ x, {| page_content := [x]; page_marks := [] |}) (buffer pdf_file).

Definition notes_out : bytes :=
  concat (map (λ p, page_content p ++ map (λ _, Byte.x57) (page_marks p))
              (map (PdfWorker.watermarkPage healthy_env) notes_doc)).

(** The lecture is rendered and the part is then locked for the student's
    enrollment. *)
Definition lesson_locked : World :=
  {| uploadSessions := uploadSessions lesson_completed; redis := redis lesson_completed;
     scratch := scratch lesson_completed; tmpFiles := tmpFiles lesson_completed;
     parts := parts lesson_completed; users := users lesson_completed;
     enrollments := enrollments lesson_completed;
     partLocks := {[ ("enr-1", "part-1") := true ]};
     partFiles := partFiles lesson_completed; bunny := bunny lesson_completed;
     bunnyConfigured := true; pdfQueue := pdfQueue lesson_completed;
     console := console lesson_completed |}.

(** The asset row of the lecture after the first run of the job. *)
Definition completed_row : PartFile :=
  {| pf_id := "f1"; pf_partId := "part-1"; pf_title := "lecture-notes.pdf";
     pf_displayName := Some "lecture-notes.pdf"; pf_type := "PDF";
     pf_storageKey := "/secured/f1.pdf"; pf_renderStatus := COMPLETED;
     pf_order := 1; pf_isSecure := true; pf_pageCount := 4 |}.

(** The rendered lecture with the image of its first page in storage (the
    page images are written by a renderer that is not among the sources). *)
Definition page_image : StoredObject :=
  {| so_zone := PrivateZone; so_body := [Byte.x89; Byte.x50; Byte.x4e; Byte.x47];
     so_mimetype := "image/png" |}.

Definition lesson_with_page : World :=
  set_bunny (<["/secured/f1.pdf/page-1.png" := page_image]>) lesson_completed.

(** A second document uploaded to the same part, on the public path. *)
Definition two_lessons_uploaded : World :=
  exec (UploadService.uploadLessonPdf "instructor-1" "part-1" pdf_file
          (Some "Slides") None "f2") lesson_uploaded.

(** A file of 6 MiB: the first chunk is 5 MiB of ['a'], the second the
    remaining 1 MiB of ['b']. *)
Definition two_chunk_file : bytes :=
  replicate (Z.to_nat 5242880) Byte.x61 ++ replicate (Z.to_nat 1048576) Byte.x62.

(** The two services after the init of the upload of that file. *)
Definition two_chunks_open : World :=
  exec (ChunkedUploadService.initUpload "instructor-1" init_two_chunks "u1" 0) campus.

Definition two_chunks_open_redis : World :=
  exec (RedisChunkedUploadService.initUpload "instructor-1" init_two_chunks "u1" 0) campus.

(** * Properties *)

(** ** File names

    Separators at the end of a name are not part of its last component,
    for [path.extname] as for [path.parse]; the extension of a name is
    read off its last component. *)

Lemma path_trailing_separators :
  path_extname "scan.PDF/" = ".PDF" ∧ path_parse_name "scan.PDF/" = "scan" ∧
  path_extname "notes.v2/" = ".v2" ∧ path_parse_name "notes.v2/" = "notes" ∧
  path_extname "a/b.c/d.txt//" = ".txt" ∧ path_parse_name "a/b.c/d.txt//" = "d" ∧
  path_extname "/tmp/.env" = "" ∧ path_parse_name "/tmp/.env" = ".env" ∧
  path_extname "a/.." = "" ∧ path_parse_name "a/.." = ".." ∧
  path_extname "archive.tar.gz" = ".gz" ∧ path_parse_name "archive.tar.gz" = "archive.tar" ∧
  path_extname "name." = "." ∧ path_parse_name "name." = "name" ∧
  path_extname "///" = "" ∧ path_parse_name "///" = "".
Proof. vm_compute. by repeat split. Qed.

(** A job whose source has a MIME type that is not listed and a name that
    ends with a separator: the extension is that of the last component, so
    the source is taken as a PDF, and the title is the component without
    its extension. *)
Lemma inferExtension_trailing_separator :
  let data := {| sourceKey := Some "/staging/pdf-input/f9/source.bin";
                 sourceMime := Some "application/octet-stream";
                 originalName := Some "scan.PDF/";
                 partFileId := "f9"; adminName := None; filePath := None |} in
  PdfWorker.inferExtension (sourceMime data) (originalName data) = ".pdf" ∧
  job_title data = "scan.pdf".
Proof. vm_compute. by split. Qed.

(** ** Numerals and chunk file names *)

Lemma digit_of_pretty_N_char (x : N) :
  (x < 10)%N → digit_of (pretty_N_char x) = x.
Proof.
  intros Hx.
  assert (x = 0 ∨ x = 1 ∨ x = 2 ∨ x = 3 ∨ x = 4 ∨ x = 5 ∨ x = 6 ∨ x = 7
          ∨ x = 8 ∨ x = 9)%N as Hcases by lia.
  repeat (destruct Hcases as [-> | Hcases]; [reflexivity |]).
  subst x. reflexivity.
Qed.

Lemma dec_value_pretty_N_go (x : N) : ∀ s,
  fst (dec_value (pretty_N_go x s))
  = (x * snd (dec_value s) + fst (dec_value s))%N.
Proof.
  induction (N.lt_wf_0 x) as [x _ IH]. intros s.
  destruct (decide (x = 0%N)) as [-> | Hne].
  - rewrite pretty_N_go_0. lia.
  - rewrite pretty_N_go_step by lia.
    rewrite IH by (apply N.div_lt; lia).
    simpl. destruct (dec_value s) as [v p] eqn:Hs. simpl.
    rewrite digit_of_pretty_N_char by (apply N.mod_lt; lia).
    pose proof (N.div_mod x 10 ltac:(lia)) as Hdm.
    set (q := (x `div` 10)%N) in *. set (r := (x `mod` 10)%N) in *. nia.
Qed.

Lemma dec_value_toString (i : Z) :
  0 ≤ i → fst (dec_value (toString i)) = Z.to_N i.
Proof.
  intros Hi. unfold toString, pretty, pretty_Z.
  destruct i as [| p | p]; [reflexivity | | lia].
  unfold pretty, pretty_positive, pretty, pretty_N.
  destruct (decide (N.pos p = 0%N)) as [? | _]; [lia |].
  rewrite dec_value_pretty_N_go. simpl. lia.
Qed.

Lemma dec_value_zeros (k : nat) (s : string) :
  fst (dec_value (repeat_char "0" k +:+ s)) = fst (dec_value s).
Proof.
  induction k as [| k IH]; [reflexivity |].
  simpl. destruct (dec_value (repeat_char "0" k +:+ s)) as [v p] eqn:Hs.
  simpl in IH. simpl. rewrite <- IH.
  change (digit_of "0") with 0%N. lia.
Qed.

Lemma string_app_inj_l (p a b : string) : p +:+ a = p +:+ b → a = b.
Proof.
  induction p as [| c p IH]; simpl; [done |].
  intros Heq. injection Heq as Heq. auto.
Qed.

Lemma chunkName_inj (i j : Z) :
  0 ≤ i → 0 ≤ j → chunkName i = chunkName j → i = j.
Proof.
  intros Hi Hj Heq. unfold chunkName in Heq.
  apply string_app_inj_l in Heq.
  apply (f_equal (λ s, fst (dec_value s))) in Heq.
  unfold padStart in Heq.
  rewrite !dec_value_zeros, !dec_value_toString in Heq by lia. lia.
Qed.

Lemma chunkName_not_assembled (i : Z) : chunkName i ≠ "assembled".
Proof. unfold chunkName. simpl. discriminate. Qed.

Lemma tempDirOf_inj (a b : string) : tempDirOf a = tempDirOf b → a = b.
Proof.
  unfold tempDirOf, path_join, os_tmpdir. simpl.
  intros Heq. injection Heq as Heq. done.
Qed.

Lemma getRedisKey_inj (a b : string) :
  RedisChunkedUploadService.getRedisKey a = RedisChunkedUploadService.getRedisKey b → a = b.
Proof.
  unfold RedisChunkedUploadService.getRedisKey. apply string_app_inj_l.
Qed.

(** The integer ceiling: [ceilDiv a b] is the least [n] with [a ≤ n * b]. *)
Lemma ceilDiv_spec (a b n : Z) :
  0 < b → ceilDiv a b = n ↔ (n - 1) * b < a ≤ n * b.
Proof.
  intros Hb. unfold ceilDiv.
  pose proof (Z.div_mod (- a) b ltac:(lia)) as Hdm.
  pose proof (Z.mod_pos_bound (- a) b Hb) as Hm.
  split.
  - intros <-. nia.
  - intros [H1 H2].
    assert ((- a) `div` b = - n) as ->; [| lia].
    symmetry. apply (Z.div_unique_pos (- a) b (- n) (n * b - a)); lia.
Qed.

(** ** Running monadic code *)

Ltac munfold :=
  unfold bind, ret, throw, throw_if, gets, modify, try_catch, console_log,
         lift_result, at_site, exec in *.

Lemma bind_Ok_inv {A B} (m : M A) (k : A → M B) (w w' : World) (b : B) :
  bind m k w = (Ok b, w') → ∃ a w1, m w = (Ok a, w1) ∧ k a w1 = (Ok b, w').
Proof.
  unfold bind. destruct (m w) as [[a | e] w1]; [eauto | done].
Qed.

Lemma bind_inv {A B} (m : M A) (k : A → M B) (w w' : World) (r : Result B) :
  bind m k w = (r, w') →
  (∃ a w1, m w = (Ok a, w1) ∧ k a w1 = (r, w'))
  ∨ (∃ e, m w = (Throw e, w') ∧ r = Throw e).
Proof.
  unfold bind. destruct (m w) as [[a | e] w1]; [eauto |].
  intros [= <- <-]. eauto.
Qed.

Lemma bind_ok {A B} (m : M A) (k : A → M B) (w w1 : World) (a : A) :
  m w = (Ok a, w1) → bind m k w = k a w1.
Proof. unfold bind. by intros ->. Qed.

Lemma bind_throw {A B} (m : M A) (k : A → M B) (w w1 : World) (e : Error) :
  m w = (Throw e, w1) → bind m k w = (Throw e, w1).
Proof. unfold bind. by intros ->. Qed.

Lemma try_catch_ok {A} (m : M A) (h : Error → M A) (w w1 : World) (a : A) :
  m w = (Ok a, w1) → try_catch m h w = (Ok a, w1).
Proof. unfold try_catch. by intros ->. Qed.

Lemma try_catch_throw {A} (m : M A) (h : Error → M A) (w w1 : World) (e : Error) :
  m w = (Throw e, w1) → try_catch m h w = h e w1.
Proof. unfold try_catch. by intros ->. Qed.

Lemma try_catch_inv {A} (m : M A) (h : Error → M A) (w w' : World) (r : Result A) :
  try_catch m h w = (r, w') →
  (∃ a, m w = (Ok a, w') ∧ r = Ok a)
  ∨ (∃ e w1, m w = (Throw e, w1) ∧ h e w1 = (r, w')).
Proof.
  unfold try_catch. destruct (m w) as [[a | e] w1]; [| eauto].
  intros [= <- <-]. eauto.
Qed.

Lemma throw_if_Ok_inv (c : bool) (e : Error) (w w' : World) (u : unit) :
  throw_if c e w = (Ok u, w') → c = false ∧ w' = w.
Proof. destruct c; unfold throw_if, throw, ret; [done | by intros [= _ <-]]. Qed.

Lemma throw_if_false (e : Error) (w : World) : throw_if false e w = (Ok tt, w).
Proof. reflexivity. Qed.

Lemma throw_if_true (e : Error) (w : World) : throw_if true e w = (Throw e, w).
Proof. reflexivity. Qed.

Lemma ret_inv {A} (a : A) (w w' : World) (r : Result A) :
  ret a w = (r, w') → r = Ok a ∧ w' = w.
Proof. by intros [= <- <-]. Qed.

Lemma gets_inv {A} (f : World → A) (w w' : World) (r : Result A) :
  gets f w = (r, w') → r = Ok (f w) ∧ w' = w.
Proof. by intros [= <- <-]. Qed.

Lemma modify_inv (f : World → World) (w w' : World) (r : Result unit) :
  modify f w = (r, w') → r = Ok tt ∧ w' = f w.
Proof. by intros [= <- <-]. Qed.

Lemma throw_inv {A} (e : Error) (w w' : World) (r : Result A) :
  throw e w = (r, w') → r = Throw e ∧ w' = w.
Proof. by intros [= <- <-]. Qed.

Ltac unfold_prims H :=
  unfold part_findUnique, user_findUnique, enrollment_findUnique,
    partFile_findUnique, partFile_create, partFile_update, getNextOrder,
    uploadPublic, uploadPrivate, storage_upload, downloadStream, storage_delete,
    pdfQueue_add, fs_mkdir, fs_writeFile, fs_readFile, fs_appendFile, fs_rm,
    fs_writeTmpFile, console_log, lift_result, at_site in H.

(** Inversion of a run that returned normally, one construct at a time. *)
Ltac minv H :=
  cbv beta iota zeta in H;
  lazymatch type of H with
  | bind _ _ _ = (Ok _, _) =>
      let a := fresh "a" in
      let w1 := fresh "w" in
      let H1 := fresh "Hrun" in
      apply bind_Ok_inv in H as (a & w1 & H1 & H); minv H1; minv H
  | throw_if _ _ _ = (Ok _, _) =>
      let Hc := fresh "Hcond" in
      apply throw_if_Ok_inv in H as [Hc ?]; simplify_eq
  | ret _ _ = _ => apply ret_inv in H as [? ?]; simplify_eq
  | throw _ _ = _ => apply throw_inv in H as [? ?]; simplify_eq
  | gets _ _ = _ => apply gets_inv in H as [? ?]; simplify_eq
  | modify _ _ = _ => apply modify_inv in H as [? ?]; simplify_eq
  | (if ?c then _ else _) _ = (Ok _, _) =>
      let Hc := fresh "Hcond" in destruct c eqn:Hc; minv H
  | (match ?x with _ => _ end) _ = (Ok _, _) =>
      let Hx := fresh "Hcase" in destruct x eqn:Hx; minv H
  | _ => first [ progress (unfold_prims H); minv H | idtac ]
  end.

Lemma kindOf_400 (msg : string) : kindOf (AppError msg 400) = InvalidRequest.
Proof. reflexivity. Qed.

(** ** [initUpload] *)

Lemma initUpload_result (w : World) (caller : string) (input : InitUploadInput)
    (uuid : string) (now : Z) :
  let r := fst (ChunkedUploadService.initUpload caller input uuid now w) in
  if Z.ltb UPLOAD_LIMITS.MAX_TOTAL_FILE (in_fileSize input)
  then r = Throw (AppError "File too large. Maximum size is 500MB" 400)
  else if negb (Z.eqb (in_totalChunks input) (ceilDiv (in_fileSize input) UPLOAD_LIMITS.CHUNK))
  then r = Throw (AppError "Invalid chunk count" 400)
  else r = Throw (AppError "Part not found" 404)
       ∨ r = Throw (AppError "Access denied" 403)
       ∨ r = Ok uuid.
Proof.
  unfold ChunkedUploadService.initUpload. munfold. cbv zeta.
  destruct (Z.ltb _ _); [reflexivity |].
  destruct (negb _); [reflexivity |].
  unfold part_findUnique, user_findUnique, fs_mkdir. munfold.
  destruct (parts w !! in_partId input); [| by left].
  destruct (negb _ && negb _); [by right; left | by right; right].
Qed.

Lemma redis_initUpload_result (w : World) (caller : string) (input : InitUploadInput)
    (uuid : string) (now : Z) :
  let r := fst (RedisChunkedUploadService.initUpload caller input uuid now w) in
  if Z.ltb UPLOAD_LIMITS.MAX_TOTAL_FILE (in_fileSize input)
  then r = Throw (AppError "File too large. Maximum size is 500MB" 400)
  else if negb (Z.eqb (in_totalChunks input) (ceilDiv (in_fileSize input) UPLOAD_LIMITS.CHUNK))
  then r = Throw (AppError "Invalid chunk count" 400)
  else r = Throw (AppError "Part not found" 404)
       ∨ r = Throw (AppError "Access denied" 403)
       ∨ r = Ok uuid.
Proof.
  unfold RedisChunkedUploadService.initUpload. munfold. cbv zeta.
  destruct (Z.ltb _ _); [reflexivity |].
  destruct (negb _); [reflexivity |].
  unfold part_findUnique, user_findUnique, fs_mkdir,
    RedisChunkedUploadService.redis_setex. munfold.
  destruct (parts w !! in_partId input); [| by left].
  destruct (negb _ && negb _); [by right; left | by right; right].
Qed.

Lemma invalid_request_cases (r : Result string) (P : Prop) (uuid : string) :
  (r = Throw (AppError "Part not found" 404)
   ∨ r = Throw (AppError "Access denied" 403) ∨ r = Ok uuid) →
  ¬ P → (∃ e, r = Throw e ∧ kindOf e = InvalidRequest) ↔ P.
Proof.
  intros Hr HP. split; [| done].
  intros (e & He & Hk). destruct Hr as [-> | [-> | ->]]; simplify_eq; done.
Qed.

(** C7: [initUpload] fails with InvalidRequest exactly when the declared
    size exceeds 500 MB or the declared chunk count is not
    [ceil(fileSize / 5 MB)], in both variants of the service; a 10_000_000
    byte file declared as one chunk is refused because two are expected. *)
Theorem initUpload_invalid_request_iff :
  UPLOAD_LIMITS.MAX_TOTAL_FILE = 500 * 1024 * 1024 ∧
  UPLOAD_LIMITS.CHUNK = 5 * 1024 * 1024 ∧
  (∀ a n, ceilDiv a UPLOAD_LIMITS.CHUNK = n
          ↔ (n - 1) * UPLOAD_LIMITS.CHUNK < a ≤ n * UPLOAD_LIMITS.CHUNK) ∧
  (∀ w caller input uuid now,
     (∃ e, fst (ChunkedUploadService.initUpload caller input uuid now w) = Throw e
           ∧ kindOf e = InvalidRequest)
     ↔ (UPLOAD_LIMITS.MAX_TOTAL_FILE < in_fileSize input
        ∨ in_totalChunks input ≠ ceilDiv (in_fileSize input) UPLOAD_LIMITS.CHUNK)) ∧
  (∀ w caller input uuid now,
     (∃ e, fst (RedisChunkedUploadService.initUpload caller input uuid now w) = Throw e
           ∧ kindOf e = InvalidRequest)
     ↔ (UPLOAD_LIMITS.MAX_TOTAL_FILE < in_fileSize input
        ∨ in_totalChunks input ≠ ceilDiv (in_fileSize input) UPLOAD_LIMITS.CHUNK)) ∧
  (∀ w caller uuid now name mime part secure,
     let input := {| in_filename := name; in_fileSize := 10000000;
                     in_totalChunks := 1; in_mimeType := mime;
                     in_partId := part; in_isSecure := secure |} in
     ceilDiv (in_fileSize input) UPLOAD_LIMITS.CHUNK = 2 ∧
     fst (ChunkedUploadService.initUpload caller input uuid now w)
       = Throw (AppError "Invalid chunk count" 400) ∧
     fst (RedisChunkedUploadService.initUpload caller input uuid now w)
       = Throw (AppError "Invalid chunk count" 400)).
Proof.
  split; [reflexivity |]. split; [reflexivity |].
  split; [intros a n; by apply ceilDiv_spec |].
  split; [| split].
  - intros w caller input uuid now.
    pose proof (initUpload_result w caller input uuid now) as Hr. cbv zeta in Hr.
    destruct (Z.ltb_spec UPLOAD_LIMITS.MAX_TOTAL_FILE (in_fileSize input)) as [Hbig | Hsmall].
    { rewrite Hr. split; [intros _; by left | intros _; eauto using kindOf_400]. }
    destruct (Z.eqb_spec (in_totalChunks input)
                (ceilDiv (in_fileSize input) UPLOAD_LIMITS.CHUNK)) as [Heq | Hne]; simpl in Hr.
    + apply (invalid_request_cases _ _ uuid Hr). lia.
    + rewrite Hr. split; [intros _; by right | intros _; eauto using kindOf_400].
  - intros w caller input uuid now.
    pose proof (redis_initUpload_result w caller input uuid now) as Hr. cbv zeta in Hr.
    destruct (Z.ltb_spec UPLOAD_LIMITS.MAX_TOTAL_FILE (in_fileSize input)) as [Hbig | Hsmall].
    { rewrite Hr. split; [intros _; by left | intros _; eauto using kindOf_400]. }
    destruct (Z.eqb_spec (in_totalChunks input)
                (ceilDiv (in_fileSize input) UPLOAD_LIMITS.CHUNK)) as [Heq | Hne]; simpl in Hr.
    + apply (invalid_request_cases _ _ uuid Hr). lia.
    + rewrite Hr. split; [intros _; by right | intros _; eauto using kindOf_400].
  - intros w caller uuid now name mime part secure input.
    pose proof (initUpload_result w caller input uuid now) as Hr.
    pose proof (redis_initUpload_result w caller input uuid now) as Hr'.
    split; [reflexivity |]. split; [exact Hr | exact Hr'].
Qed.

(** ** [uploadChunk] does not enforce the expected chunk size *)

(** C9: a one-byte chunk for index 0 of a two-chunk upload is accepted by
    both variants of [uploadChunk], although [expectedChunkSize] for that
    index is the full 5 MiB: the value is computed and never compared. *)
Theorem uploadChunk_accepts_short_inner_chunk :
  let w := exec (ChunkedUploadService.initUpload "instructor-1" init_two_chunks "u1" 0) campus in
  let w' := exec (RedisChunkedUploadService.initUpload "instructor-1" init_two_chunks "u1" 0) campus in
  c_chunkIndex short_first_chunk < in_totalChunks init_two_chunks - 1 ∧
  expectedChunkSize (in_fileSize init_two_chunks) (in_totalChunks init_two_chunks)
    (c_chunkIndex short_first_chunk) = UPLOAD_LIMITS.CHUNK ∧
  Z.of_nat (length (c_chunk short_first_chunk)) = 1 ∧
  fst (ChunkedUploadService.uploadChunk short_first_chunk w) = Ok (1, 2) ∧
  fst (RedisChunkedUploadService.uploadChunk short_first_chunk w') = Ok (1, 2).
Proof. vm_compute. repeat split; reflexivity || lia. Qed.


(** ** Routing of non-PDF sources *)

Lemma uploadLessonPdf_forces_secure (w w' : World) (caller lessonId : string)
    (file : MulterFile) (title : option string) (isSecureStr : option SecureArg)
    (uuid : string) (r : UploadLessonResult) :
  mimetype file ≠ "application/pdf" →
  UploadService.uploadLessonPdf caller lessonId file title isSecureStr uuid w = (Ok r, w') →
  r = Queued uuid ∧
  ∃ f job, partFiles w' !! uuid = Some f ∧
           pf_renderStatus f = PROCESSING ∧ pf_isSecure f = true ∧
           pf_storageKey f = "" ∧
           pdfQueue w' = pdfQueue w ++ [("watermark-pdf", job)] ∧
           partFileId job = uuid.
Proof.
  intros Hmime Hrun. apply String.eqb_neq in Hmime.
  unfold UploadService.uploadLessonPdf, UploadService.validateConfig,
    UploadService.getExtension in Hrun.
  rewrite Hmime in Hrun. simpl negb in Hrun. rewrite orb_true_r in Hrun.
  minv Hrun.
  all: simpl; split; [done |]; eexists _, _; rewrite lookup_insert_eq; done.
Qed.

Lemma redis_storeAsset_forces_secure (label : string) (s : RedisSession)
    (fileBuffer : bytes) (fileId : string) (w w' : World) (key : string) :
  r_mimeType s ≠ "application/pdf" →
  RedisChunkedUploadService.storeAsset label s fileBuffer fileId w = (Ok key, w') →
  key = "" ∧
  ∃ f job, partFiles w' !! fileId = Some f ∧
           pf_renderStatus f = PROCESSING ∧ pf_isSecure f = true ∧
           pf_storageKey f = "" ∧
           pdfQueue w' = pdfQueue w ++ [("watermark-pdf", job)] ∧
           partFileId job = fileId.
Proof.
  intros Hmime Hrun. apply String.eqb_neq in Hmime.
  unfold RedisChunkedUploadService.storeAsset in Hrun.
  rewrite Hmime in Hrun. simpl negb in Hrun. rewrite orb_true_r in Hrun.
  minv Hrun.
  all: simpl; split; [done |]; eexists _, _; rewrite lookup_insert_eq; done.
Qed.

(** C3: with the in-memory service a [.docx] upload that asked for direct
    publication is finalized as a COMPLETED, non-secure asset and no render
    job is queued; the Redis service run on the same requests creates the
    asset in PROCESSING with [isSecure = true] and queues one job. *)
Theorem finalizeUpload_in_memory_publishes_docx :
  let done := ChunkedUploadService.finalizeUpload "instructor-1" finalize_u1 "f1"
                small_docx_uploaded in
  let done_redis := RedisChunkedUploadService.finalizeUpload "label" "instructor-1"
                      finalize_u1 "f1" small_docx_uploaded_redis in
  in_mimeType init_small_docx ≠ "application/pdf" ∧
  in_isSecure init_small_docx = false ∧
  fst done = Ok {| res_storageKey := "/public/part-1/f1/notes.docx"; res_assetId := "f1" |} ∧
  (pf_renderStatus <$> partFiles (snd done) !! "f1") = Some COMPLETED ∧
  (pf_isSecure <$> partFiles (snd done) !! "f1") = Some false ∧
  pdfQueue (snd done) = [] ∧
  fst done_redis = Ok {| res_storageKey := ""; res_assetId := "f1" |} ∧
  (pf_renderStatus <$> partFiles (snd done_redis) !! "f1") = Some PROCESSING ∧
  (pf_isSecure <$> partFiles (snd done_redis) !! "f1") = Some true ∧
  length (pdfQueue (snd done_redis)) = 1%nat.
Proof. vm_compute. repeat split; done. Qed.

(** ** Preservation rules *)

Section Preserves.
Context (I : World → Prop).

Lemma preserves_ret {A} (a : A) : preserves I (ret a).
Proof. intros w Hw. exact Hw. Qed.

Lemma preserves_throw {A} (e : Error) : preserves I (@throw A e).
Proof. intros w Hw. exact Hw. Qed.

Lemma preserves_gets {A} (f : World → A) : preserves I (gets f).
Proof. intros w Hw. exact Hw. Qed.

Lemma preserves_throw_if (c : bool) (e : Error) : preserves I (throw_if c e).
Proof. intros w Hw. destruct c; exact Hw. Qed.

Lemma preserves_modify (f : World → World) :
  (∀ w, I w → I (f w)) → preserves I (modify f).
Proof. intros Hf w Hw. by apply Hf. Qed.

Lemma preserves_bind {A B} (m : M A) (k : A → M B) :
  preserves I m → (∀ a, preserves I (k a)) → preserves I (bind m k).
Proof.
  intros Hm Hk w Hw. unfold bind.
  specialize (Hm w Hw). destruct (m w) as [[a | e] w1]; simpl in *; [| done].
  by apply Hk.
Qed.

Lemma preserves_try_catch {A} (m : M A) (h : Error → M A) :
  preserves I m → (∀ e, preserves I (h e)) → preserves I (try_catch m h).
Proof.
  intros Hm Hh w Hw. unfold try_catch.
  specialize (Hm w Hw). destruct (m w) as [[a | e] w1]; simpl in *; [done |].
  by apply Hh.
Qed.

Lemma preserves_lift_result {A} (r : Result A) : preserves I (lift_result r).
Proof. intros w Hw. destruct r; exact Hw. Qed.

Lemma preserves_at_site {A} (env : WorkerEnv) (site : CallSite) (m : M A) :
  preserves I m → preserves I (at_site env site m).
Proof.
  intros Hm. unfold at_site. destruct (fault env site); [| exact Hm].
  intros w Hw. exact Hw.
Qed.
End Preserves.

(** Structural decomposition of a preservation goal. *)
Ltac pres_step :=
  lazymatch goal with
  | |- preserves _ (bind _ _) => apply preserves_bind; [| intros ?]
  | |- preserves _ (try_catch _ _) => apply preserves_try_catch; [| intros ?]
  | |- preserves _ (ret _) => apply preserves_ret
  | |- preserves _ (throw _) => apply preserves_throw
  | |- preserves _ (gets _) => apply preserves_gets
  | |- preserves _ (throw_if _ _) => apply preserves_throw_if
  | |- preserves _ (lift_result _) => apply preserves_lift_result
  | |- preserves _ (at_site _ _ _) => apply preserves_at_site
  | |- preserves _ (if ?c then _ else _) => destruct c
  | |- preserves _ (match ?x with _ => _ end) => destruct x
  end.

Ltac pres := cbv zeta; repeat (pres_step; cbv zeta).

(** ** Code that leaves the sessions alone *)

Lemma scratch_grows_refl fs : scratch_grows fs fs.
Proof. intros dir d Hd. eauto. Qed.

Lemma scratch_grows_trans fs1 fs2 fs3 :
  scratch_grows fs1 fs2 → scratch_grows fs2 fs3 → scratch_grows fs1 fs3.
Proof.
  intros H12 H23 dir d Hd.
  destruct (H12 dir d Hd) as (d2 & Hd2 & Hn2).
  destruct (H23 dir d2 Hd2) as (d3 & Hd3 & Hn3). eauto.
Qed.

Lemma scratch_grows_write fs dir d name data :
  fs !! dir = Some d → scratch_grows fs (<[dir := <[name := data]> d]> fs).
Proof.
  intros Hd dir' d' Hd'. destruct (decide (dir = dir')) as [<- | Hne].
  - simplify_eq. exists (<[name := data]> d). rewrite lookup_insert_eq. split; [done |].
    intros n Hn. apply lookup_insert_is_Some'. by right.
  - exists d'. by rewrite lookup_insert_ne.
Qed.

Lemma since_refl w : since w w.
Proof. repeat split. apply scratch_grows_refl. Qed.

Lemma since_sessions_ok w0 w : since w0 w → sessions_ok w0 → sessions_ok w.
Proof.
  intros (Hs & _ & Hg) Hok id s Hlook. rewrite Hs in Hlook.
  destruct (Hok id s Hlook) as (Hpos & Hdir & d & Hd & Hk). do 2 (split; [done |]).
  destruct (Hg _ _ Hd) as (d' & Hd' & Hn). exists d'. split; [done |].
  intros k Hin. destruct (Hk k Hin). eauto.
Qed.

Lemma since_redis_sessions_ok w0 w :
  since w0 w → redis_sessions_ok w0 → redis_sessions_ok w.
Proof.
  intros (_ & Hs & Hg) Hok key s Hlook. rewrite Hs in Hlook.
  destruct (Hok key s Hlook) as (Hpos & Hkey & Hdir & Hnd & d & Hd & Hk).
  repeat (split; [done |]).
  destruct (Hg _ _ Hd) as (d' & Hd' & Hn). exists d'. split; [done |].
  intros k Hin. destruct (Hk k Hin). eauto.
Qed.

Lemma since_preserves {A} (m : M A) :
  (∀ w0, preserves (since w0) m) → ∀ w, since w (snd (m w)).
Proof. intros Hm w. apply Hm, since_refl. Qed.

Lemma since_modify_other (w0 : World) (f : World → World) :
  (∀ w, uploadSessions (f w) = uploadSessions w ∧ redis (f w) = redis w
        ∧ scratch (f w) = scratch w) →
  preserves (since w0) (modify f).
Proof.
  intros Hf. apply preserves_modify. intros w (H1 & H2 & H3).
  destruct (Hf w) as (E1 & E2 & E3). unfold since. by rewrite E1, E2, E3.
Qed.

Lemma since_fs_writeFile w0 dir name data :
  preserves (since w0) (fs_writeFile dir name data).
Proof.
  intros w (H1 & H2 & H3). unfold fs_writeFile, bind, gets, modify, throw.
  destruct (scratch w !! dir) as [d |] eqn:Hd; simpl; [| done].
  repeat split; [done .. |].
  eapply scratch_grows_trans; [exact H3 |]. by apply scratch_grows_write.
Qed.

Lemma since_fs_readFile w0 dir name : preserves (since w0) (fs_readFile dir name).
Proof.
  intros w Hw. unfold fs_readFile, bind, gets, ret, throw.
  destruct (_ ≫= _); exact Hw.
Qed.

Lemma since_fs_appendFile w0 dir name data :
  preserves (since w0) (fs_appendFile dir name data).
Proof.
  unfold fs_appendFile. apply preserves_bind; [apply since_fs_readFile |].
  intros old. apply since_fs_writeFile.
Qed.

Lemma since_fs_mkdir w0 dir : preserves (since w0) (fs_mkdir dir).
Proof.
  intros w (H1 & H2 & H3). unfold fs_mkdir, modify. simpl.
  repeat split; [done .. |].
  eapply scratch_grows_trans; [exact H3 |].
  destruct (scratch w !! dir) as [d |] eqn:Hd; simpl; rewrite Hd;
    [apply scratch_grows_refl |].
  intros dir' d' Hd'. exists d'. split; [| done].
  rewrite lookup_insert_ne; [done |]. intros ->. congruence.
Qed.

Lemma since_assembleChunks w0 dir indices :
  preserves (since w0) (ChunkedUploadService.assembleChunks dir indices).
Proof.
  induction indices as [| i rest IH]; simpl; [apply preserves_ret |].
  apply preserves_bind; [apply since_fs_readFile |]. intros chunkData.
  apply preserves_bind; [apply since_fs_appendFile |]. intros _. exact IH.
Qed.

Lemma since_assembleFile w0 dir total :
  preserves (since w0) (ChunkedUploadService.assembleFile dir total).
Proof.
  unfold ChunkedUploadService.assembleFile.
  apply preserves_bind; [apply since_fs_writeFile |]. intros _.
  apply preserves_bind; [apply since_assembleChunks |]. intros _.
  apply since_fs_readFile.
Qed.

(** Closes the goals left by [pres] for code that only touches the
    database, the storage, the queue, temporary files and the console. *)
Ltac pres_since :=
  unfold part_findUnique, user_findUnique, enrollment_findUnique,
    partFile_findUnique, partFile_create, partFile_update, getNextOrder,
    uploadPublic, uploadPrivate, storage_upload, downloadStream, storage_delete,
    pdfQueue_add, fs_writeTmpFile, console_log;
  pres;
  try (apply since_modify_other; intros ?; by repeat split).

Lemma since_storeAsset w0 s fileBuffer fileId :
  preserves (since w0) (ChunkedUploadService.storeAsset s fileBuffer fileId).
Proof. unfold ChunkedUploadService.storeAsset. pres_since. Qed.

Lemma since_redis_storeAsset w0 label s fileBuffer fileId :
  preserves (since w0) (RedisChunkedUploadService.storeAsset label s fileBuffer fileId).
Proof. unfold RedisChunkedUploadService.storeAsset. pres_since. Qed.

Lemma since_uploadLessonPdf w0 caller lessonId file title isSecureStr uuid :
  preserves (since w0)
    (UploadService.uploadLessonPdf caller lessonId file title isSecureStr uuid).
Proof.
  unfold UploadService.uploadLessonPdf, UploadService.validateConfig,
    UploadService.getExtension. pres_since.
Qed.

Lemma since_pdfWorker w0 env job_id data :
  preserves (since w0) (PdfWorker.pdfWorker env job_id data).
Proof.
  unfold PdfWorker.pdfWorker, PdfWorker.smokeTest, PdfWorker.processJob,
    PdfWorker.onFailure, PdfWorker.logWorkerError. pres_since.
Qed.

(** ** Forward execution of straight-line monadic code *)

Lemma bind_gets {A B} (f : World → A) (k : A → M B) (w : World) :
  bind (gets f) k w = k (f w) w.
Proof. reflexivity. Qed.

Lemma bind_modify {B} (f : World → World) (k : unit → M B) (w : World) :
  bind (modify f) k w = k tt (f w).
Proof. reflexivity. Qed.

Lemma bind_ret {A B} (a : A) (k : A → M B) (w : World) :
  bind (ret a) k w = k a w.
Proof. reflexivity. Qed.

Lemma bind_throw_l {A B} (e : Error) (k : A → M B) (w : World) :
  bind (throw e) k w = (Throw e, w).
Proof. reflexivity. Qed.

Lemma bind_throw_if {B} (c : bool) (e : Error) (k : unit → M B) (w : World) :
  bind (throw_if c e) k w = if c then (Throw e, w) else k tt w.
Proof. by destruct c. Qed.

Lemma bind_assoc {A B C} (m : M A) (k1 : A → M B) (k2 : B → M C) (w : World) :
  bind (bind m k1) k2 w = bind m (λ a, bind (k1 a) k2) w.
Proof. unfold bind. by destruct (m w) as [[a | e] w1]. Qed.

Lemma run_ret {A} (a : A) (w : World) : ret a w = (Ok a, w).
Proof. reflexivity. Qed.

Lemma run_throw {A} (e : Error) (w : World) : @throw A e w = (Throw e, w).
Proof. reflexivity. Qed.

Lemma run_modify (f : World → World) (w : World) : modify f w = (Ok tt, f w).
Proof. reflexivity. Qed.

Lemma run_gets {A} (f : World → A) (w : World) : gets f w = (Ok (f w), w).
Proof. reflexivity. Qed.

Ltac mfwd_step :=
  first
    [ rewrite bind_assoc
    | rewrite bind_gets
    | rewrite bind_modify
    | rewrite bind_ret
    | rewrite bind_throw_l
    | rewrite bind_throw_if
    | rewrite run_ret
    | rewrite run_throw
    | rewrite run_modify
    | rewrite run_gets
    | progress cbv beta iota zeta ].

Ltac mfwd_unfold :=
  progress
    unfold part_findUnique, user_findUnique, enrollment_findUnique,
      partFile_findUnique, partFile_create, partFile_update, getNextOrder,
      uploadPublic, uploadPrivate, storage_upload, downloadStream, storage_delete,
      pdfQueue_add, fs_mkdir, fs_writeFile, fs_readFile, fs_appendFile, fs_rm,
      fs_writeTmpFile, console_log.

Ltac mfwd := repeat first [ mfwd_unfold | mfwd_step ].

(** ** The in-memory sessions stay well-formed *)

Lemma initUpload_sessions_ok caller input uuid now :
  0 < in_totalChunks input →
  preserves sessions_ok (ChunkedUploadService.initUpload caller input uuid now).
Proof.
  intros Hpos w Hw. unfold ChunkedUploadService.initUpload. mfwd.
  destruct (Z.ltb _ _); [exact Hw |].
  destruct (negb (Z.eqb _ _)); [exact Hw |].
  destruct (parts w !! in_partId input); mfwd; [| exact Hw].
  destruct (negb _ && negb _)%bool; [exact Hw |]. simpl.
  intros id s Hs. simpl in Hs. destruct (decide (uuid = id)) as [<- | Hne].
  - rewrite lookup_insert_eq in Hs. simplify_eq. do 2 (split; [done |]). simpl.
    destruct (scratch w !! tempDirOf uuid) as [d |] eqn:Hdir.
    + exists d. split; [done | set_solver].
    + exists ∅. rewrite lookup_insert_eq. split; [done | set_solver].
  - rewrite lookup_insert_ne in Hs by done.
    destruct (Hw id s Hs) as (Hpos' & Hd & d & Hdir & Hk). do 2 (split; [done |]). simpl.
    exists d. split; [| done].
    destruct (scratch w !! tempDirOf uuid) eqn:Hnew; [done |].
    rewrite lookup_insert_ne; [done |]. intros Heq. rewrite <- Heq in Hdir. congruence.
Qed.

Lemma uploadChunk_sessions_ok input :
  preserves sessions_ok (ChunkedUploadService.uploadChunk input).
Proof.
  intros w Hw. unfold ChunkedUploadService.uploadChunk. mfwd.
  destruct (uploadSessions w !! c_uploadId input) as [s |] eqn:Hs; mfwd; [| exact Hw].
  destruct (Z.ltb_spec (c_chunkIndex input) 0) as [? | Hlo]; [exact Hw |].
  destruct (Z.leb_spec (totalChunks s) (c_chunkIndex input)) as [? | Hhi]; [exact Hw |].
  simpl orb. cbv iota.
  destruct (Z.ltb _ _); [exact Hw |].
  destruct (Hw _ _ Hs) as (Hpos & Hdir & d & Hd & Hk).
  rewrite Hd. mfwd. simpl.
  intros id s' Hs'. simpl in Hs'.
  destruct (decide (c_uploadId input = id)) as [<- | Hne].
  - rewrite lookup_insert_eq in Hs'. simplify_eq. do 2 (split; [done |]). simpl.
    eexists. rewrite lookup_insert_eq. split; [done |].
    intros k [Hk' | Hk']%elem_of_union.
    + apply elem_of_singleton in Hk' as ->. split; [lia |].
      rewrite lookup_insert_eq. eauto.
    + destruct (Hk k Hk') as [? ?]. split; [done |].
      apply lookup_insert_is_Some'. by right.
  - rewrite lookup_insert_ne in Hs' by done.
    destruct (Hw id s' Hs') as (Hpos' & Hdir' & d' & Hd' & Hk'). do 2 (split; [done |]). simpl.
    exists d'. split; [| done].
    rewrite lookup_insert_ne; [done |].
    rewrite Hdir, Hdir'. intros Heq%tempDirOf_inj. done.
Qed.

Lemma cleanupSession_sessions_ok uploadId :
  preserves sessions_ok (ChunkedUploadService.cleanupSession uploadId).
Proof.
  intros w Hw. unfold ChunkedUploadService.cleanupSession. mfwd.
  destruct (uploadSessions w !! uploadId) as [s |] eqn:Hs; mfwd; [| exact Hw].
  unfold try_catch. mfwd. simpl.
  destruct (Hw _ _ Hs) as (_ & Hdir & _).
  intros id s' Hs'. simpl in Hs'.
  apply lookup_delete_Some in Hs' as [Hne Hs'].
  destruct (Hw id s' Hs') as (Hpos' & Hdir' & d' & Hd' & Hk'). do 2 (split; [done |]). simpl.
  exists d'. split; [| done].
  rewrite lookup_delete_ne; [done |].
  rewrite Hdir, Hdir'. intros Heq%tempDirOf_inj. done.
Qed.

Lemma since_preserves_sessions_ok {A} (m : M A) :
  (∀ w0, preserves (since w0) m) → preserves sessions_ok m.
Proof.
  intros Hm w Hw. eapply since_sessions_ok; [| exact Hw]. by apply since_preserves.
Qed.

Lemma finalizeUpload_sessions_ok caller input uuid :
  preserves sessions_ok (ChunkedUploadService.finalizeUpload caller input uuid).
Proof.
  unfold ChunkedUploadService.finalizeUpload. pres.
  - apply since_preserves_sessions_ok. intros w0. apply since_assembleFile.
  - apply since_preserves_sessions_ok. intros w0. apply since_storeAsset.
  - apply cleanupSession_sessions_ok.
Qed.

Lemma sweepSession_sessions_ok now uploadId :
  preserves sessions_ok (ChunkedUploadService.sweepSession now uploadId).
Proof.
  unfold ChunkedUploadService.sweepSession. pres.
  apply cleanupSession_sessions_ok.
Qed.

(** ** JavaScript sets as arrays *)

Lemma elem_of_jsSet_add (x y : Z) (s : list Z) :
  x ∈ jsSet_add y s ↔ x = y ∨ x ∈ s.
Proof.
  unfold jsSet_add. destruct (decide (y ∈ s)) as [Hin | Hnin].
  - split; [by right | intros [-> | ?]; done].
  - rewrite elem_of_app, list_elem_of_singleton. tauto.
Qed.

Lemma NoDup_jsSet_add (y : Z) (s : list Z) : NoDup s → NoDup (jsSet_add y s).
Proof.
  intros Hs. unfold jsSet_add. destruct (decide (y ∈ s)) as [Hin | Hnin]; [done |].
  apply NoDup_app. split; [done |]. split; [| apply NoDup_singleton].
  intros x Hx ->%list_elem_of_singleton. done.
Qed.

Lemma jsSet_from_acc (l acc : list Z) :
  NoDup acc →
  let r := fold_left (λ acc x, jsSet_add x acc) l acc in
  NoDup r ∧ ∀ x, x ∈ r ↔ x ∈ acc ∨ x ∈ l.
Proof.
  revert acc. induction l as [| y l IH]; intros acc Hacc; simpl.
  - split; [done |]. intros x. rewrite elem_of_nil. tauto.
  - destruct (IH (jsSet_add y acc) (NoDup_jsSet_add y acc Hacc)) as [Hnd Hel].
    split; [done |]. intros x. rewrite Hel, elem_of_jsSet_add, elem_of_cons. tauto.
Qed.

Lemma NoDup_jsSet_from (l : list Z) : NoDup (jsSet_from l).
Proof. apply (jsSet_from_acc l []), NoDup_nil_2. Qed.

Lemma elem_of_jsSet_from (l : list Z) (x : Z) : x ∈ jsSet_from l ↔ x ∈ l.
Proof.
  destruct (jsSet_from_acc l [] (NoDup_nil_2)) as [_ Hel].
  unfold jsSet_from. rewrite Hel, elem_of_nil. tauto.
Qed.

Lemma jsSet_from_acc_NoDup (l acc : list Z) :
  NoDup (acc ++ l) → fold_left (λ acc x, jsSet_add x acc) l acc = acc ++ l.
Proof.
  revert acc. induction l as [| y l IH]; intros acc Hnd; simpl.
  - by rewrite app_nil_r.
  - assert (jsSet_add y acc = acc ++ [y]) as ->.
    { unfold jsSet_add. destruct (decide (y ∈ acc)) as [Hin | Hnin]; [| done].
      apply NoDup_app in Hnd as (_ & Hdisj & _).
      exfalso. apply (Hdisj y Hin). left. }
    rewrite IH; [by rewrite <- app_assoc |]. by rewrite <- app_assoc.
Qed.

(** On an array without duplicates [Array.from(new Set(a))] is [a]. *)
Lemma jsSet_from_NoDup (l : list Z) : NoDup l → jsSet_from l = l.
Proof. intros Hnd. unfold jsSet_from. by rewrite jsSet_from_acc_NoDup. Qed.

(** ** The Redis sessions stay well-formed *)

Lemma redis_initUpload_sessions_ok caller input uuid now :
  0 < in_totalChunks input →
  preserves redis_sessions_ok (RedisChunkedUploadService.initUpload caller input uuid now).
Proof.
  intros Hpos w Hw. unfold RedisChunkedUploadService.initUpload,
    RedisChunkedUploadService.redis_setex. mfwd.
  destruct (Z.ltb _ _); [exact Hw |].
  destruct (negb (Z.eqb _ _)); [exact Hw |].
  destruct (parts w !! in_partId input); mfwd; [| exact Hw].
  destruct (negb _ && negb _)%bool; [exact Hw |]. simpl.
  intros key s Hs. simpl in Hs.
  destruct (decide (RedisChunkedUploadService.getRedisKey uuid = key)) as [<- | Hne].
  - rewrite lookup_insert_eq in Hs. simplify_eq.
    do 3 (split; [done |]). split; [apply NoDup_nil_2 |]. simpl.
    destruct (scratch w !! tempDirOf uuid) as [d |] eqn:Hdir.
    + exists d. split; [done |]. intros k Hk. by apply elem_of_nil in Hk.
    + exists ∅. rewrite lookup_insert_eq. split; [done |].
      intros k Hk. by apply elem_of_nil in Hk.
  - rewrite lookup_insert_ne in Hs by done.
    destruct (Hw key s Hs) as (Hpos' & Hkey & Hd & Hnd & d & Hdir & Hk).
    repeat (split; [done |]). simpl.
    exists d. split; [| done].
    destruct (scratch w !! tempDirOf uuid) eqn:Hnew; [done |].
    rewrite lookup_insert_ne; [done |]. intros Heq. rewrite <- Heq in Hdir. congruence.
Qed.

Lemma redis_uploadChunk_sessions_ok input :
  preserves redis_sessions_ok (RedisChunkedUploadService.uploadChunk input).
Proof.
  intros w Hw. unfold RedisChunkedUploadService.uploadChunk,
    RedisChunkedUploadService.redis_setex, RedisChunkedUploadService.redis_get. mfwd.
  set (key := RedisChunkedUploadService.getRedisKey (c_uploadId input)).
  destruct (redis w !! key) as [s |] eqn:Hs; mfwd; [| exact Hw].
  destruct (Z.ltb_spec (c_chunkIndex input) 0) as [? | Hlo]; [exact Hw |].
  destruct (Z.leb_spec (r_totalChunks s) (c_chunkIndex input)) as [? | Hhi]; [exact Hw |].
  simpl orb. cbv iota.
  destruct (Z.ltb _ _); [exact Hw |].
  destruct (Hw _ _ Hs) as (Hpos & Hkey & Hdir & Hnd & d & Hd & Hk).
  rewrite Hd. mfwd. simpl.
  intros key' s' Hs'. simpl in Hs'.
  destruct (decide (key = key')) as [<- | Hne].
  - rewrite lookup_insert_eq in Hs'. simplify_eq.
    split; [done |]. split; [simpl; congruence |]. split; [done |]. simpl.
    split; [apply NoDup_jsSet_add, NoDup_jsSet_from |].
    eexists. rewrite lookup_insert_eq. split; [done |].
    intros k [-> | Hk']%elem_of_jsSet_add.
    + split; [lia |]. rewrite lookup_insert_eq. eauto.
    + rewrite elem_of_jsSet_from in Hk'. destruct (Hk k Hk') as [? ?]. split; [done |].
      apply lookup_insert_is_Some'. by right.
  - rewrite lookup_insert_ne in Hs' by done.
    destruct (Hw key' s' Hs') as (Hpos' & Hkey' & Hdir' & Hnd' & d' & Hd' & Hk').
    repeat (split; [done |]). simpl.
    exists d'. split; [| done].
    rewrite lookup_insert_ne; [done |].
    rewrite Hdir, Hdir'. intros Heq%tempDirOf_inj.
    apply Hne. fold key in Hkey. rewrite Hkey, Hkey'. by rewrite Heq.
Qed.

Lemma redis_del_sessions_ok key :
  preserves redis_sessions_ok (RedisChunkedUploadService.redis_del key).
Proof.
  intros w Hw key' s' Hs'. simpl in Hs'.
  apply lookup_delete_Some in Hs' as [Hne Hs']. exact (Hw key' s' Hs').
Qed.

Lemma since_preserves_redis_sessions_ok {A} (m : M A) :
  (∀ w0, preserves (since w0) m) → preserves redis_sessions_ok m.
Proof.
  intros Hm w Hw. eapply since_redis_sessions_ok; [| exact Hw]. by apply since_preserves.
Qed.

Lemma since_trans w0 w1 w2 : since w0 w1 → since w1 w2 → since w0 w2.
Proof.
  intros (A1 & B1 & C1) (A2 & B2 & C2). repeat split; [congruence .. |].
  by eapply scratch_grows_trans.
Qed.

(** Running a command that leaves the sessions alone, then the rest. *)
Lemma snd_bind_since {A B} (m : M A) (k : A → M B) (P : World → Prop) (w : World) :
  (∀ w0, preserves (since w0) m) →
  (∀ w1, since w w1 → P w1) →
  (∀ a w1, since w w1 → P (snd (k a w1))) →
  P (snd (bind m k w)).
Proof.
  intros Hm Hthrow Hk. pose proof (since_preserves m Hm w) as Hs.
  unfold bind. destruct (m w) as [[a | e] w1]; simpl in *; auto.
Qed.

Lemma redis_finalizeUpload_sessions_ok label caller input uuid :
  preserves redis_sessions_ok
    (RedisChunkedUploadService.finalizeUpload label caller input uuid).
Proof.
  intros w Hw. unfold RedisChunkedUploadService.finalizeUpload,
    RedisChunkedUploadService.redis_get. mfwd.
  set (key := RedisChunkedUploadService.getRedisKey (f_uploadId input)).
  destruct (redis w !! key) as [s |] eqn:Hs; mfwd; [| exact Hw].
  destruct (negb (String.eqb _ _)); [exact Hw |].
  destruct (negb (Z.eqb _ _)); [exact Hw |].
  apply snd_bind_since; [intros w0; apply since_assembleFile | |].
  { intros w1 H1. by eapply since_redis_sessions_ok. }
  intros fileBuffer w1 H1.
  apply snd_bind_since; [intros w0; apply since_redis_storeAsset | |].
  { intros w2 H2. eapply since_redis_sessions_ok; [| exact Hw]. by eapply since_trans. }
  intros storageKey w2 H2.
  pose proof (since_trans _ _ _ H1 H2) as H12.
  pose proof (since_redis_sessions_ok _ _ H12 Hw) as Hw2.
  unfold RedisChunkedUploadService.redis_del, try_catch. mfwd. simpl.
  destruct H12 as (_ & Hredis & _).
  destruct (Hw _ _ Hs) as (_ & Hkey & Hdir & _).
  intros key' s' Hs'. simpl in Hs'.
  apply lookup_delete_Some in Hs' as [Hne Hs'].
  destruct (Hw2 key' s' Hs') as (Hpos' & Hkey' & Hdir' & Hnd' & d' & Hd' & Hk').
  repeat (split; [done |]). simpl.
  exists d'. split; [| done].
  rewrite lookup_delete_ne; [done |].
  rewrite Hdir, Hdir'. intros Heq%tempDirOf_inj.
  apply Hne. rewrite Hkey, Hkey'. by rewrite Heq.
Qed.

(** ** Every reachable state has well-formed sessions *)

Lemma reachable_backend_ok (b : Backend) (w : World) :
  reachable b w → backend_ok b w.
Proof.
  induction 1 as [w (Hs & Hr & _) | w op Hreach IH Hen].
  - destruct b; simpl; intros k s Hk; [rewrite Hs in Hk | rewrite Hr in Hk];
      by rewrite lookup_empty in Hk.
  - destruct b; simpl in *.
    + destruct op; simpl in Hen; try discriminate Hen; try (by destruct Hen); simpl.
      * destruct Hen as [_ [_ Hpos]]. by apply initUpload_sessions_ok.
      * by apply uploadChunk_sessions_ok.
      * by apply finalizeUpload_sessions_ok.
      * by apply sweepSession_sessions_ok.
      * apply since_preserves_sessions_ok; [| done].
        intros w0. apply since_uploadLessonPdf.
      * apply since_preserves_sessions_ok; [| done].
        intros w0. apply since_pdfWorker.
    + destruct op; simpl in Hen; try discriminate Hen; try (by destruct Hen); simpl.
      * destruct Hen as [_ [_ Hpos]]. by apply redis_initUpload_sessions_ok.
      * by apply redis_uploadChunk_sessions_ok.
      * by apply redis_finalizeUpload_sessions_ok.
      * by apply redis_del_sessions_ok.
      * apply since_preserves_redis_sessions_ok; [| done].
        intros w0. apply since_uploadLessonPdf.
      * apply since_preserves_redis_sessions_ok; [| done].
        intros w0. apply since_pdfWorker.
Qed.

(** ** Assembly *)

Lemma set_scratch_id (w : World) (fs : gmap string (gmap string bytes)) :
  fs = scratch w → set_scratch (λ _, fs) w = w.
Proof. intros ->. by destruct w. Qed.

Lemma assembleChunks_ok (dir : string) (indices : list Z) (cs : list bytes) :
  ∀ (w : World) (d : gmap string bytes) (acc : bytes),
    scratch w !! dir = Some d → d !! "assembled" = Some acc →
    Forall2 (λ i c, d !! chunkName i = Some c) indices cs →
    ChunkedUploadService.assembleChunks dir indices w
    = (Ok tt, set_scratch (λ _, <[dir := <["assembled" := acc ++ concat cs]> d]> (scratch w)) w).
Proof.
  revert cs. induction indices as [| i indices IH];
    intros cs w d acc Hd Hacc Hall; inversion Hall as [| ? c ? cs' Hi Hall']; subst; simpl.
  - rewrite app_nil_r, (insert_id d), (insert_id (scratch w)) by done.
    by rewrite set_scratch_id.
  - mfwd. rewrite Hd. simpl. rewrite Hi. mfwd. rewrite Hd. simpl.
    rewrite Hacc. mfwd. rewrite Hd. mfwd.
    set (d1 := <["assembled" := acc ++ c]> d).
    set (w1 := set_scratch _ w).
    assert (Forall2 (λ i c, d1 !! chunkName i = Some c) indices cs') as Hall1.
    { eapply Forall2_impl; [exact Hall' |]. intros j cj Hj. subst d1. simpl.
      rewrite lookup_insert_ne; [done |]. intros Heq. symmetry in Heq.
      by apply chunkName_not_assembled in Heq. }
    rewrite (IH cs' w1 d1 (acc ++ c)); [| | | exact Hall1].
    + f_equal. subst w1 d1. unfold set_scratch. simpl.
      by rewrite !insert_insert_eq, <- app_assoc.
    + subst w1. simpl. by rewrite lookup_insert_eq.
    + subst d1. by rewrite lookup_insert_eq.
Qed.

Lemma assembleFile_ok (dir : string) (total : Z) (cs : list bytes)
    (w : World) (d : gmap string bytes) :
  scratch w !! dir = Some d →
  Forall2 (λ i c, d !! chunkName i = Some c) (loopIndices total) cs →
  ChunkedUploadService.assembleFile dir total w
  = (Ok (concat cs),
     set_scratch (λ _, <[dir := <["assembled" := concat cs]> d]> (scratch w)) w).
Proof.
  intros Hd Hall. unfold ChunkedUploadService.assembleFile. mfwd.
  rewrite Hd. mfwd.
  set (d0 := <["assembled" := []]> d). set (w0 := set_scratch _ w).
  assert (Forall2 (λ i c, d0 !! chunkName i = Some c) (loopIndices total) cs) as Hall0.
  { eapply Forall2_impl; [exact Hall |]. intros j cj Hj. subst d0. simpl.
    rewrite lookup_insert_ne; [done |]. intros Heq. symmetry in Heq.
    by apply chunkName_not_assembled in Heq. }
  rewrite (bind_ok _ _ _ _ _ (assembleChunks_ok dir _ cs w0 d0 [] ltac:(subst w0; simpl; by rewrite lookup_insert_eq) ltac:(subst d0; by rewrite lookup_insert_eq) Hall0)).
  mfwd. subst w0 d0. simpl. rewrite lookup_insert_eq. simpl. rewrite lookup_insert_eq.
  mfwd. f_equal. unfold set_scratch. simpl. by rewrite !insert_insert_eq.
Qed.

(** ** A complete session finalizes *)

Lemma storeAsset_ok (s : ChunkedUploadSession) (fileBuffer : bytes)
    (fileId : string) (w : World) :
  partFiles w !! fileId = None →
  ∃ key w', ChunkedUploadService.storeAsset s fileBuffer fileId w = (Ok key, w') ∧
    uploadSessions w' = uploadSessions w ∧ scratch w' = scratch w ∧
    if isSecure s
    then key = "" ∧
         tmpFiles w' !! path_join os_tmpdir
            ("lms-upload-" +:+ fileId +:+ "-input"
             +:+ ChunkedUploadService.getExtension (mimeType s)) = Some fileBuffer
    else key = "/public/" +:+ partId s +:+ "/" +:+ fileId +:+ "/" +:+ filename s ∧
         (so_body <$> bunny w' !! key) = Some fileBuffer.
Proof.
  intros Hfresh. unfold ChunkedUploadService.storeAsset.
  destruct (isSecure s); mfwd; simpl; rewrite Hfresh; mfwd;
    eexists _, _; (split; [reflexivity |]); simpl;
    rewrite lookup_insert_eq; done.

Qed.

Lemma redis_storeAsset_ok (label : string) (s : RedisSession) (fileBuffer : bytes)
    (fileId : string) (w : World) :
  partFiles w !! fileId = None →
  ∃ key w', RedisChunkedUploadService.storeAsset label s fileBuffer fileId w = (Ok key, w') ∧
    redis w' = redis w ∧ scratch w' = scratch w ∧
    if r_isSecure s || negb (String.eqb (r_mimeType s) "application/pdf")
    then key = "" ∧
         (so_body <$> bunny w' !! ("/staging/pdf-input/" +:+ fileId +:+ "/source"
             +:+ RedisChunkedUploadService.getExtension (r_mimeType s))) = Some fileBuffer
    else key = "/public/" +:+ r_partId s +:+ "/" +:+ fileId +:+ "/" +:+ r_filename s ∧
         (so_body <$> bunny w' !! key) = Some fileBuffer.
Proof.
  intros Hfresh. unfold RedisChunkedUploadService.storeAsset. cbv zeta.
  destruct (negb _ && negb _)%bool; mfwd;
    (destruct (r_isSecure s || negb _)%bool; mfwd; simpl; rewrite Hfresh; mfwd;
     eexists _, _; (split; [reflexivity |]); simpl;
     rewrite lookup_insert_eq; done).
Qed.

Lemma cleanupSession_ok (uploadId : string) (w : World) :
  ∃ w', ChunkedUploadService.cleanupSession uploadId w = (Ok tt, w') ∧
        tmpFiles w' = tmpFiles w ∧ bunny w' = bunny w ∧ partFiles w' = partFiles w.
Proof.
  unfold ChunkedUploadService.cleanupSession. mfwd.
  destruct (uploadSessions w !! uploadId); mfwd; [| eauto].
  unfold try_catch. mfwd. eauto.
Qed.

(** From a set of received indices that is complete to the chunk files
    the loop reads. *)
Lemma chunk_files_present (d : gmap string bytes) (indices : list Z) :
  (∀ k, k ∈ indices → is_Some (d !! chunkName k)) →
  ∃ cs, Forall2 (λ i c, d !! chunkName i = Some c) indices cs.
Proof.
  induction indices as [| i indices IH]; intros Hall; [by exists [] |].
  destruct (Hall i ltac:(left)) as [c Hc].
  destruct IH as [cs Hcs]; [intros k Hk; apply Hall; by right |].
  exists (c :: cs). by constructor.
Qed.

Lemma size_allIndices (n : Z) : Z.of_nat (size (allIndices n)) = Z.max 0 n.
Proof.
  unfold allIndices. rewrite size_list_to_set by apply NoDup_seqZ.
  rewrite length_seqZ. lia.
Qed.

Lemma elem_of_allIndices (n k : Z) : k ∈ allIndices n ↔ 0 ≤ k < n.
Proof. unfold allIndices. rewrite elem_of_list_to_set, elem_of_seqZ. lia. Qed.

(** Indices in range: as many as [n] of them means all of them. *)
Lemma received_all_iff (received : gset Z) (n : Z) :
  0 ≤ n → (∀ k, k ∈ received → 0 ≤ k < n) →
  Z.of_nat (size received) = n ↔ received = allIndices n.
Proof.
  intros Hn Hrange. split.
  - intros Hsize. apply set_subseteq_size_eq.
    + intros k Hk. apply elem_of_allIndices. auto.
    + pose proof (size_allIndices n). lia.
  - intros ->. rewrite size_allIndices. lia.
Qed.

Lemma finalizeUpload_complete (w : World) (s : ChunkedUploadSession)
    (caller : string) (input : FinalizeUploadInput) (uuid : string) :
  sessions_ok w →
  uploadSessions w !! f_uploadId input = Some s →
  userId s = caller →
  receivedChunks s = allIndices (totalChunks s) →
  partFiles w !! uuid = None →
  ∃ key w', ChunkedUploadService.finalizeUpload caller input uuid w
            = (Ok {| res_storageKey := key; res_assetId := uuid |}, w').
Proof.
  intros Hok Hs Huser Hall Hfresh.
  destruct (Hok _ _ Hs) as (Hn & Hdir & d & Hd & Hk).
  destruct (chunk_files_present d (loopIndices (totalChunks s))) as [cs Hcs].
  { intros k Hk'. apply Hk. rewrite Hall. unfold allIndices, loopIndices in *.
    by apply elem_of_list_to_set. }
  unfold ChunkedUploadService.finalizeUpload. mfwd. rewrite Hs. mfwd.
  rewrite Huser, String.eqb_refl. simpl negb. cbv iota.
  rewrite Hall, size_allIndices, Z.max_r, Z.eqb_refl by lia. simpl negb. cbv iota.
  rewrite (bind_ok _ _ _ _ _ (assembleFile_ok _ _ cs w d Hd Hcs)).
  set (w1 := set_scratch _ w).
  destruct (storeAsset_ok s (concat cs) uuid w1 Hfresh) as (key & w2 & Hstore & _).
  rewrite (bind_ok _ _ _ _ _ Hstore).
  destruct (cleanupSession_ok (f_uploadId input) w2) as (w3 & Hclean & _).
  rewrite (bind_ok _ _ _ _ _ Hclean). mfwd. eauto.
Qed.

Lemma redis_finalizeUpload_complete (w : World) (s : RedisSession)
    (label caller : string) (input : FinalizeUploadInput) (uuid : string) :
  redis_sessions_ok w →
  redis w !! RedisChunkedUploadService.getRedisKey (f_uploadId input) = Some s →
  r_userId s = caller →
  list_to_set (r_receivedChunks s) = allIndices (r_totalChunks s) →
  partFiles w !! uuid = None →
  ∃ key w', RedisChunkedUploadService.finalizeUpload label caller input uuid w
            = (Ok {| res_storageKey := key; res_assetId := uuid |}, w').
Proof.
  intros Hok Hs Huser Hall Hfresh.
  destruct (Hok _ _ Hs) as (Hn & Hkey & Hdir & Hnd & d & Hd & Hk).
  destruct (chunk_files_present d (loopIndices (r_totalChunks s))) as [cs Hcs].
  { intros k Hk'. apply Hk. apply (elem_of_list_to_set (C := gset Z)).
    rewrite Hall. by apply elem_of_list_to_set. }
  unfold RedisChunkedUploadService.finalizeUpload, RedisChunkedUploadService.redis_get.
  mfwd. rewrite Hs. mfwd.
  rewrite Huser, String.eqb_refl. simpl negb. cbv iota.
  assert (Z.of_nat (length (r_receivedChunks s)) = r_totalChunks s) as ->.
  { rewrite <- (size_list_to_set (C := gset Z)) by done.
    rewrite Hall, size_allIndices. lia. }
  rewrite Z.eqb_refl. simpl negb. cbv iota.
  rewrite (bind_ok _ _ _ _ _ (assembleFile_ok _ _ cs w d Hd Hcs)).
  set (w1 := set_scratch _ w).
  destruct (redis_storeAsset_ok label s (concat cs) uuid w1 Hfresh) as (key & w2 & Hstore & _).
  rewrite (bind_ok _ _ _ _ _ Hstore).
  unfold RedisChunkedUploadService.redis_del, try_catch. mfwd. eauto.
Qed.

(** ** Chunk completeness *)

Lemma finalizeUpload_header (w : World) (s : ChunkedUploadSession)
    (caller : string) (input : FinalizeUploadInput) (uuid : string) :
  uploadSessions w !! f_uploadId input = Some s →
  let r := fst (ChunkedUploadService.finalizeUpload caller input uuid w) in
  let received := Z.of_nat (size (receivedChunks s)) in
  (userId s ≠ caller → r = Throw (AppError "Access denied" 403)) ∧
  (userId s = caller → received ≠ totalChunks s →
   r = Throw (AppError ("Missing chunks. Received " +:+ toString received +:+ "/"
                        +:+ toString (totalChunks s)) 400)).
Proof.
  intros Hs. unfold ChunkedUploadService.finalizeUpload. mfwd. rewrite Hs. mfwd.
  split.
  - intros Hne. apply String.eqb_neq in Hne. by rewrite Hne.
  - intros <- Hne. rewrite String.eqb_refl. simpl negb. cbv iota.
    apply Z.eqb_neq in Hne. by rewrite Hne.
Qed.

Lemma redis_finalizeUpload_header (w : World) (s : RedisSession)
    (label caller : string) (input : FinalizeUploadInput) (uuid : string) :
  redis w !! RedisChunkedUploadService.getRedisKey (f_uploadId input) = Some s →
  let r := fst (RedisChunkedUploadService.finalizeUpload label caller input uuid w) in
  let received := Z.of_nat (length (r_receivedChunks s)) in
  (r_userId s ≠ caller → r = Throw (AppError "Access denied" 403)) ∧
  (r_userId s = caller → received ≠ r_totalChunks s →
   r = Throw (AppError ("Missing chunks. Received " +:+ toString received +:+ "/"
                        +:+ toString (r_totalChunks s)) 400)).
Proof.
  intros Hs. unfold RedisChunkedUploadService.finalizeUpload,
    RedisChunkedUploadService.redis_get. mfwd. rewrite Hs. mfwd.
  split.
  - intros Hne. apply String.eqb_neq in Hne. by rewrite Hne.
  - intros <- Hne. rewrite String.eqb_refl. simpl negb. cbv iota.
    apply Z.eqb_neq in Hne. by rewrite Hne.
Qed.

Lemma finalizeUpload_completeness_in_memory (w : World) (s : ChunkedUploadSession)
    (caller : string) (input : FinalizeUploadInput) (uuid : string) :
  reachable InMemorySessions w →
  uploadSessions w !! f_uploadId input = Some s →
  partFiles w !! uuid = None →
  let r := fst (ChunkedUploadService.finalizeUpload caller input uuid w) in
  let received := Z.of_nat (size (receivedChunks s)) in
  (userId s = caller →
   (isOk r = true ↔ receivedChunks s = allIndices (totalChunks s))) ∧
  (userId s = caller → receivedChunks s ≠ allIndices (totalChunks s) →
   r = Throw (AppError ("Missing chunks. Received " +:+ toString received +:+ "/"
                        +:+ toString (totalChunks s)) 400)) ∧
  (userId s ≠ caller → r = Throw (AppError "Access denied" 403)).
Proof.
  intros Hreach Hs Hfresh r received.
  pose proof (reachable_backend_ok _ _ Hreach) as Hok. simpl in Hok.
  destruct (Hok _ _ Hs) as (Hn & Hdir & d & Hd & Hk).
  pose proof (received_all_iff (receivedChunks s) (totalChunks s) ltac:(lia)
                (λ k Hin, proj1 (Hk k Hin))) as Hiff.
  destruct (finalizeUpload_header w s caller input uuid Hs) as [Hdenied Hmissing].
  split; [| split].
  - intros Huser. split.
    + intros Hisok. apply Hiff.
      destruct (decide (received = totalChunks s)) as [| Hne]; [done |].
      subst r. rewrite (Hmissing Huser Hne) in Hisok. discriminate.
    + intros Hall.
      destruct (finalizeUpload_complete w s caller input uuid Hok Hs Huser Hall Hfresh)
        as (key & w' & Hrun).
      subst r. by rewrite Hrun.
  - intros Huser Hnot. apply Hmissing; [done |]. intros Heq. by apply Hnot, Hiff.
  - exact Hdenied.
Qed.

Lemma finalizeUpload_completeness_redis (w : World) (s : RedisSession)
    (label caller : string) (input : FinalizeUploadInput) (uuid : string) :
  reachable RedisSessions w →
  redis w !! RedisChunkedUploadService.getRedisKey (f_uploadId input) = Some s →
  partFiles w !! uuid = None →
  let r := fst (RedisChunkedUploadService.finalizeUpload label caller input uuid w) in
  let received := Z.of_nat (length (r_receivedChunks s)) in
  received = Z.of_nat (size (list_to_set (r_receivedChunks s) : gset Z)) ∧
  (r_userId s = caller →
   (isOk r = true ↔ list_to_set (r_receivedChunks s) = allIndices (r_totalChunks s))) ∧
  (r_userId s = caller → list_to_set (r_receivedChunks s) ≠ allIndices (r_totalChunks s) →
   r = Throw (AppError ("Missing chunks. Received " +:+ toString received +:+ "/"
                        +:+ toString (r_totalChunks s)) 400)) ∧
  (r_userId s ≠ caller → r = Throw (AppError "Access denied" 403)).
Proof.
  intros Hreach Hs Hfresh r received.
  pose proof (reachable_backend_ok _ _ Hreach) as Hok. simpl in Hok.
  destruct (Hok _ _ Hs) as (Hn & Hkey & Hdir & Hnd & d & Hd & Hk).
  assert (received = Z.of_nat (size (list_to_set (r_receivedChunks s) : gset Z))) as Hsize.
  { subst received. by rewrite size_list_to_set. }
  pose proof (received_all_iff (list_to_set (r_receivedChunks s)) (r_totalChunks s)
                ltac:(lia)) as Hiff.
  rewrite <- Hsize in Hiff.
  specialize (Hiff (λ k Hin, proj1 (Hk k (proj1 (elem_of_list_to_set k _) Hin)))).
  destruct (redis_finalizeUpload_header w s label caller input uuid Hs) as [Hdenied Hmissing].
  split; [done |]. split; [| split].
  - intros Huser. split.
    + intros Hisok. apply Hiff.
      destruct (decide (received = r_totalChunks s)) as [| Hne]; [done |].
      subst r. rewrite (Hmissing Huser Hne) in Hisok. discriminate.
    + intros Hall.
      destruct (redis_finalizeUpload_complete w s label caller input uuid Hok Hs Huser Hall Hfresh)
        as (key & w' & Hrun).
      subst r. by rewrite Hrun.
  - intros Huser Hnot. apply Hmissing; [done |]. intros Heq. by apply Hnot, Hiff.
  - exact Hdenied.
Qed.

Lemma campus_initial : initial campus.
Proof. repeat split. Qed.

Lemma small_docx_uploaded_reachable : reachable InMemorySessions small_docx_uploaded.
Proof.
  apply (reachable_step InMemorySessions _
           (OpUploadChunk (chunkRequest "u1" small_file 1 0))); [| done].
  apply (reachable_step InMemorySessions _
           (OpInitUpload "instructor-1" init_small_docx "u1" 0)).
  - apply reachable_initial, campus_initial.
  - split; [done |]. split; reflexivity.
Qed.

Lemma small_docx_uploaded_redis_reachable :
  reachable RedisSessions small_docx_uploaded_redis.
Proof.
  apply (reachable_step RedisSessions _
           (OpRedisUploadChunk (chunkRequest "u1" small_file 1 0))); [| done].
  apply (reachable_step RedisSessions _
           (OpRedisInitUpload "instructor-1" init_small_docx "u1" 0)).
  - apply reachable_initial, campus_initial.
  - split; [done |]. split; reflexivity.
Qed.

Lemma small_docx_session_stored :
  uploadSessions small_docx_uploaded !! "u1" = Some small_docx_session.
Proof. vm_compute. reflexivity. Qed.

Lemma small_docx_session_redis_stored :
  redis small_docx_uploaded_redis !! RedisChunkedUploadService.getRedisKey "u1"
  = Some small_docx_session_redis.
Proof. vm_compute. reflexivity. Qed.

(** C2: in every reachable state, for a session with [totalChunks = N] and
    an asset id that is free, [finalizeUpload] called by the session owner
    succeeds exactly when the set of received indices is [{0, ..., N-1}];
    otherwise it fails with the 400 error "Missing chunks. Received k/N"
    where [k] is the number of distinct indices received; a caller who is
    not the owner gets the 403 error.  Both services. *)
Theorem finalizeUpload_chunk_completeness :
  (∀ (w : World) (s : ChunkedUploadSession) (caller : string)
     (input : FinalizeUploadInput) (uuid : string),
     reachable InMemorySessions w →
     uploadSessions w !! f_uploadId input = Some s →
     partFiles w !! uuid = None →
     let r := fst (ChunkedUploadService.finalizeUpload caller input uuid w) in
     let received := Z.of_nat (size (receivedChunks s)) in
     (userId s = caller →
      (isOk r = true ↔ receivedChunks s = allIndices (totalChunks s))) ∧
     (userId s = caller → receivedChunks s ≠ allIndices (totalChunks s) →
      r = Throw (AppError ("Missing chunks. Received " +:+ toString received +:+ "/"
                           +:+ toString (totalChunks s)) 400)
      ∧ kindOf (AppError ("Missing chunks. Received " +:+ toString received +:+ "/"
                          +:+ toString (totalChunks s)) 400) = InvalidRequest) ∧
     (userId s ≠ caller →
      r = Throw (AppError "Access denied" 403)
      ∧ kindOf (AppError "Access denied" 403) = Forbidden)) ∧
  (∀ (w : World) (s : RedisSession) (label caller : string)
     (input : FinalizeUploadInput) (uuid : string),
     reachable RedisSessions w →
     redis w !! RedisChunkedUploadService.getRedisKey (f_uploadId input) = Some s →
     partFiles w !! uuid = None →
     let r := fst (RedisChunkedUploadService.finalizeUpload label caller input uuid w) in
     let received := Z.of_nat (length (r_receivedChunks s)) in
     received = Z.of_nat (size (list_to_set (r_receivedChunks s) : gset Z)) ∧
     (r_userId s = caller →
      (isOk r = true ↔ list_to_set (r_receivedChunks s) = allIndices (r_totalChunks s))) ∧
     (r_userId s = caller →
      list_to_set (r_receivedChunks s) ≠ allIndices (r_totalChunks s) →
      r = Throw (AppError ("Missing chunks. Received " +:+ toString received +:+ "/"
                           +:+ toString (r_totalChunks s)) 400)) ∧
     (r_userId s ≠ caller → r = Throw (AppError "Access denied" 403))).
Proof.
  split.
  - intros w s caller input uuid Hreach Hs Hfresh.
    destruct (finalizeUpload_completeness_in_memory w s caller input uuid Hreach Hs Hfresh)
      as (H1 & H2 & H3).
    split; [exact H1 |]. split; [| by split; [apply H3 |]].
    intros Hu Hne. split; [by apply H2 | reflexivity].
  - intros w s label caller input uuid Hreach Hs Hfresh.
    exact (finalizeUpload_completeness_redis w s label caller input uuid Hreach Hs Hfresh).
Qed.

Lemma finalizeUpload_chunk_completeness_witness :
  (reachable InMemorySessions small_docx_uploaded ∧
   uploadSessions small_docx_uploaded !! f_uploadId finalize_u1 = Some small_docx_session ∧
   partFiles small_docx_uploaded !! "f1" = None ∧
   userId small_docx_session = "instructor-1" ∧
   (isOk (fst (ChunkedUploadService.finalizeUpload "instructor-1" finalize_u1 "f1"
                 small_docx_uploaded)) = true
    ↔ receivedChunks small_docx_session = allIndices (totalChunks small_docx_session))) ∧
  (reachable RedisSessions small_docx_uploaded_redis ∧
   redis small_docx_uploaded_redis
     !! RedisChunkedUploadService.getRedisKey (f_uploadId finalize_u1)
   = Some small_docx_session_redis ∧
   partFiles small_docx_uploaded_redis !! "f1" = None ∧
   r_userId small_docx_session_redis = "instructor-1" ∧
   (isOk (fst (RedisChunkedUploadService.finalizeUpload "label" "instructor-1" finalize_u1
                 "f1" small_docx_uploaded_redis)) = true
    ↔ list_to_set (r_receivedChunks small_docx_session_redis)
      = allIndices (r_totalChunks small_docx_session_redis))).
Proof.
  split.
  - split; [exact small_docx_uploaded_reachable |].
    split; [exact small_docx_session_stored |].
    split; [vm_compute; reflexivity |].
    split; [reflexivity |].
    exact (proj1 (proj1 finalizeUpload_chunk_completeness small_docx_uploaded
                    small_docx_session "instructor-1" finalize_u1 "f1"
                    small_docx_uploaded_reachable small_docx_session_stored
                    ltac:(vm_compute; reflexivity)) eq_refl).
  - split; [exact small_docx_uploaded_redis_reachable |].
    split; [exact small_docx_session_redis_stored |].
    split; [vm_compute; reflexivity |].
    split; [reflexivity |].
    exact (proj1 (proj2 (proj2 finalizeUpload_chunk_completeness small_docx_uploaded_redis
                    small_docx_session_redis "label" "instructor-1" finalize_u1 "f1"
                    small_docx_uploaded_redis_reachable small_docx_session_redis_stored
                    ltac:(vm_compute; reflexivity))) eq_refl).
Defined.

(** ** Accepted chunks *)

Lemma uploadChunk_run (w : World) (s : ChunkedUploadSession)
    (input : ChunkUploadInput) (d : gmap string bytes) :
  uploadSessions w !! c_uploadId input = Some s →
  scratch w !! tempDir s = Some d →
  0 ≤ c_chunkIndex input < totalChunks s →
  Z.of_nat (length (c_chunk input)) ≤ UPLOAD_LIMITS.CHUNK →
  ChunkedUploadService.uploadChunk input w
  = (Ok (Z.of_nat (size ({[ c_chunkIndex input ]} ∪ receivedChunks s)), totalChunks s),
     set_uploadSessions
       (<[c_uploadId input := ChunkedUploadService.markReceived (c_chunkIndex input) s]>)
       (set_scratch (<[tempDir s := <[chunkName (c_chunkIndex input) := c_chunk input]> d]>) w)).
Proof.
  intros Hs Hd [Hlo Hhi] Hlen. unfold ChunkedUploadService.uploadChunk. mfwd.
  rewrite Hs. mfwd.
  destruct (Z.ltb_spec (c_chunkIndex input) 0) as [? | _]; [lia |].
  destruct (Z.leb_spec (totalChunks s) (c_chunkIndex input)) as [? | _]; [lia |].
  simpl orb. cbv iota.
  destruct (Z.ltb_spec UPLOAD_LIMITS.CHUNK (Z.of_nat (length (c_chunk input)))) as [? | _];
    [lia |].
  rewrite Hd. mfwd. reflexivity.
Qed.

Lemma redis_uploadChunk_run (w : World) (s : RedisSession)
    (input : ChunkUploadInput) (d : gmap string bytes) :
  redis w !! RedisChunkedUploadService.getRedisKey (c_uploadId input) = Some s →
  scratch w !! r_tempDir s = Some d →
  0 ≤ c_chunkIndex input < r_totalChunks s →
  Z.of_nat (length (c_chunk input)) ≤ UPLOAD_LIMITS.CHUNK →
  let received := jsSet_add (c_chunkIndex input) (jsSet_from (r_receivedChunks s)) in
  RedisChunkedUploadService.uploadChunk input w
  = (Ok (Z.of_nat (length received), r_totalChunks s),
     set_redis
       (<[RedisChunkedUploadService.getRedisKey (c_uploadId input)
          := RedisChunkedUploadService.setReceived received s]>)
       (set_scratch (<[r_tempDir s := <[chunkName (c_chunkIndex input) := c_chunk input]> d]>) w)).
Proof.
  intros Hs Hd [Hlo Hhi] Hlen. unfold RedisChunkedUploadService.uploadChunk,
    RedisChunkedUploadService.redis_get, RedisChunkedUploadService.redis_setex. mfwd.
  rewrite Hs. mfwd.
  destruct (Z.ltb_spec (c_chunkIndex input) 0) as [? | _]; [lia |].
  destruct (Z.leb_spec (r_totalChunks s) (c_chunkIndex input)) as [? | _]; [lia |].
  simpl orb. cbv iota.
  destruct (Z.ltb_spec UPLOAD_LIMITS.CHUNK (Z.of_nat (length (c_chunk input)))) as [? | _];
    [lia |].
  rewrite Hd. mfwd. reflexivity.
Qed.

Lemma jsSet_add_again (k : Z) (l : list Z) :
  jsSet_add k (jsSet_from (jsSet_add k (jsSet_from l))) = jsSet_add k (jsSet_from l).
Proof.
  rewrite (jsSet_from_NoDup (jsSet_add k (jsSet_from l)))
    by apply NoDup_jsSet_add, NoDup_jsSet_from.
  unfold jsSet_add at 1.
  destruct (decide (k ∈ jsSet_add k (jsSet_from l))) as [_ | Hnin]; [done |].
  exfalso. apply Hnin, elem_of_jsSet_add. by left.
Qed.

(** The content of the scratch slot [(session directory, chunk index)]. *)
Lemma uploadChunk_idempotent_in_memory (w : World) (s : ChunkedUploadSession)
    (id : string) (k total1 total2 : Z) (first second : bytes) :
  reachable InMemorySessions w →
  uploadSessions w !! id = Some s →
  0 ≤ k < totalChunks s →
  Z.of_nat (length first) ≤ UPLOAD_LIMITS.CHUNK →
  Z.of_nat (length second) ≤ UPLOAD_LIMITS.CHUNK →
  let in1 := {| c_uploadId := id; c_chunkIndex := k; c_totalChunks := total1;
                c_chunk := first |} in
  let in2 := {| c_uploadId := id; c_chunkIndex := k; c_totalChunks := total2;
                c_chunk := second |} in
  ∃ n w1 w2,
    ChunkedUploadService.uploadChunk in1 w = (Ok (n, totalChunks s), w1) ∧
    ChunkedUploadService.uploadChunk in2 w1 = (Ok (n, totalChunks s), w2) ∧
    (scratch w1 !! tempDir s ≫= (λ d, d !! chunkName k)) = Some first ∧
    (scratch w2 !! tempDir s ≫= (λ d, d !! chunkName k)) = Some second ∧
    (receivedChunks <$> uploadSessions w2 !! id)
    = (receivedChunks <$> uploadSessions w1 !! id) ∧
    n = Z.of_nat (size ({[ k ]} ∪ receivedChunks s)).
Proof.
  intros Hreach Hs Hk Hlen1 Hlen2 in1 in2.
  pose proof (reachable_backend_ok _ _ Hreach) as Hok. simpl in Hok.
  destruct (Hok _ _ Hs) as (_ & _ & d & Hd & _).
  pose proof (uploadChunk_run w s in1 d Hs Hd Hk Hlen1) as Hrun1.
  set (s1 := ChunkedUploadService.markReceived k s) in *.
  set (d1 := <[chunkName k := first]> d) in *.
  match type of Hrun1 with _ = (_, ?x) => set (w1 := x) in * end.
  assert (uploadSessions w1 !! id = Some s1) as Hs1 by (subst w1; simpl; apply lookup_insert_eq).
  assert (scratch w1 !! tempDir s1 = Some d1) as Hd1 by (subst w1; simpl; apply lookup_insert_eq).
  pose proof (uploadChunk_run w1 s1 in2 d1 Hs1 Hd1 Hk Hlen2) as Hrun2.
  simpl in Hrun1, Hrun2.
  assert (({[k]} ∪ ({[k]} ∪ receivedChunks s) : gset Z) = {[k]} ∪ receivedChunks s) as Hidem.
  { apply set_eq. intros x. rewrite !elem_of_union. tauto. }
  rewrite Hidem in Hrun2.
  eexists _, w1, _. split; [exact Hrun1 |]. split; [exact Hrun2 |].
  simpl. rewrite !lookup_insert_eq. simpl. rewrite !lookup_insert_eq.
  repeat split; try done.
  subst s1. unfold ChunkedUploadService.markReceived. simpl. by rewrite Hidem.
Qed.

Lemma uploadChunk_idempotent_redis (w : World) (s : RedisSession)
    (id : string) (k total1 total2 : Z) (first second : bytes) :
  reachable RedisSessions w →
  redis w !! RedisChunkedUploadService.getRedisKey id = Some s →
  0 ≤ k < r_totalChunks s →
  Z.of_nat (length first) ≤ UPLOAD_LIMITS.CHUNK →
  Z.of_nat (length second) ≤ UPLOAD_LIMITS.CHUNK →
  let in1 := {| c_uploadId := id; c_chunkIndex := k; c_totalChunks := total1;
                c_chunk := first |} in
  let in2 := {| c_uploadId := id; c_chunkIndex := k; c_totalChunks := total2;
                c_chunk := second |} in
  ∃ n w1 w2,
    RedisChunkedUploadService.uploadChunk in1 w = (Ok (n, r_totalChunks s), w1) ∧
    RedisChunkedUploadService.uploadChunk in2 w1 = (Ok (n, r_totalChunks s), w2) ∧
    (scratch w1 !! r_tempDir s ≫= (λ d, d !! chunkName k)) = Some first ∧
    (scratch w2 !! r_tempDir s ≫= (λ d, d !! chunkName k)) = Some second ∧
    (r_receivedChunks <$> redis w2 !! RedisChunkedUploadService.getRedisKey id)
    = (r_receivedChunks <$> redis w1 !! RedisChunkedUploadService.getRedisKey id) ∧
    n = Z.of_nat (length (jsSet_add k (r_receivedChunks s))).
Proof.
  intros Hreach Hs Hk Hlen1 Hlen2 in1 in2.
  pose proof (reachable_backend_ok _ _ Hreach) as Hok. simpl in Hok.
  destruct (Hok _ _ Hs) as (_ & _ & _ & Hnd & d & Hd & _).
  pose proof (redis_uploadChunk_run w s in1 d Hs Hd Hk Hlen1) as Hrun1.
  cbv zeta in Hrun1. simpl in Hrun1.
  set (l1 := jsSet_add k (jsSet_from (r_receivedChunks s))) in *.
  set (s1 := RedisChunkedUploadService.setReceived l1 s) in *.
  set (d1 := <[chunkName k := first]> d) in *.
  match type of Hrun1 with _ = (_, ?x) => set (w1 := x) in * end.
  assert (redis w1 !! RedisChunkedUploadService.getRedisKey id = Some s1) as Hs1
    by (subst w1; simpl; apply lookup_insert_eq).
  assert (scratch w1 !! r_tempDir s1 = Some d1) as Hd1
    by (subst w1; simpl; apply lookup_insert_eq).
  pose proof (redis_uploadChunk_run w1 s1 in2 d1 Hs1 Hd1 Hk Hlen2) as Hrun2.
  cbv zeta in Hrun2. simpl in Hrun2. fold l1 in Hrun2.
  assert (jsSet_add k (jsSet_from l1) = l1) as Hidem by apply jsSet_add_again.
  rewrite Hidem in Hrun2.
  eexists _, w1, _. split; [exact Hrun1 |]. split; [exact Hrun2 |].
  simpl. rewrite !lookup_insert_eq. simpl. rewrite !lookup_insert_eq.
  repeat split; try done.
  - subst d1. apply lookup_insert_eq.
  - subst l1. by rewrite jsSet_from_NoDup.
Qed.

Lemma small_docx_open_reachable : reachable InMemorySessions small_docx_open.
Proof.
  apply (reachable_step InMemorySessions _
           (OpInitUpload "instructor-1" init_small_docx "u1" 0)).
  - apply reachable_initial, campus_initial.
  - split; [done |]. split; reflexivity.
Qed.

Lemma small_docx_open_redis_reachable : reachable RedisSessions small_docx_open_redis.
Proof.
  apply (reachable_step RedisSessions _
           (OpRedisInitUpload "instructor-1" init_small_docx "u1" 0)).
  - apply reachable_initial, campus_initial.
  - split; [done |]. split; reflexivity.
Qed.

Lemma small_docx_new_session_stored :
  uploadSessions small_docx_open !! "u1" = Some small_docx_new_session.
Proof. vm_compute. reflexivity. Qed.

Lemma small_docx_new_session_redis_stored :
  redis small_docx_open_redis !! RedisChunkedUploadService.getRedisKey "u1"
  = Some small_docx_new_session_redis.
Proof. vm_compute. reflexivity. Qed.

(** C8: in every reachable state, uploading a valid index [k] of a session
    twice, the second time with other bytes, succeeds both times, leaves the
    second bytes in the scratch slot of [k], reports the same received count
    both times and leaves the stored set of received indices as it was after
    the first upload.  Both services. *)
Theorem uploadChunk_idempotent_per_index :
  (∀ (w : World) (s : ChunkedUploadSession) (id : string) (k total1 total2 : Z)
     (first second : bytes),
     reachable InMemorySessions w →
     uploadSessions w !! id = Some s →
     0 ≤ k < totalChunks s →
     Z.of_nat (length first) ≤ UPLOAD_LIMITS.CHUNK →
     Z.of_nat (length second) ≤ UPLOAD_LIMITS.CHUNK →
     ∃ n w1 w2,
       ChunkedUploadService.uploadChunk
         {| c_uploadId := id; c_chunkIndex := k; c_totalChunks := total1;
            c_chunk := first |} w = (Ok (n, totalChunks s), w1) ∧
       ChunkedUploadService.uploadChunk
         {| c_uploadId := id; c_chunkIndex := k; c_totalChunks := total2;
            c_chunk := second |} w1 = (Ok (n, totalChunks s), w2) ∧
       (scratch w1 !! tempDir s ≫= (λ d, d !! chunkName k)) = Some first ∧
       (scratch w2 !! tempDir s ≫= (λ d, d !! chunkName k)) = Some second ∧
       (receivedChunks <$> uploadSessions w2 !! id)
       = (receivedChunks <$> uploadSessions w1 !! id) ∧
       n = Z.of_nat (size ({[ k ]} ∪ receivedChunks s))) ∧
  (∀ (w : World) (s : RedisSession) (id : string) (k total1 total2 : Z)
     (first second : bytes),
     reachable RedisSessions w →
     redis w !! RedisChunkedUploadService.getRedisKey id = Some s →
     0 ≤ k < r_totalChunks s →
     Z.of_nat (length first) ≤ UPLOAD_LIMITS.CHUNK →
     Z.of_nat (length second) ≤ UPLOAD_LIMITS.CHUNK →
     ∃ n w1 w2,
       RedisChunkedUploadService.uploadChunk
         {| c_uploadId := id; c_chunkIndex := k; c_totalChunks := total1;
            c_chunk := first |} w = (Ok (n, r_totalChunks s), w1) ∧
       RedisChunkedUploadService.uploadChunk
         {| c_uploadId := id; c_chunkIndex := k; c_totalChunks := total2;
            c_chunk := second |} w1 = (Ok (n, r_totalChunks s), w2) ∧
       (scratch w1 !! r_tempDir s ≫= (λ d, d !! chunkName k)) = Some first ∧
       (scratch w2 !! r_tempDir s ≫= (λ d, d !! chunkName k)) = Some second ∧
       (r_receivedChunks <$> redis w2 !! RedisChunkedUploadService.getRedisKey id)
       = (r_receivedChunks <$> redis w1 !! RedisChunkedUploadService.getRedisKey id) ∧
       n = Z.of_nat (length (jsSet_add k (r_receivedChunks s)))).
Proof.
  split.
  - intros w s id k total1 total2 first second Hreach Hs Hk H1 H2.
    exact (uploadChunk_idempotent_in_memory w s id k total1 total2 first second
             Hreach Hs Hk H1 H2).
  - intros w s id k total1 total2 first second Hreach Hs Hk H1 H2.
    exact (uploadChunk_idempotent_redis w s id k total1 total2 first second
             Hreach Hs Hk H1 H2).
Qed.

Lemma uploadChunk_idempotent_per_index_witness :
  (reachable InMemorySessions small_docx_open ∧
   uploadSessions small_docx_open !! "u1" = Some small_docx_new_session ∧
   0 ≤ 0 < totalChunks small_docx_new_session ∧
   Z.of_nat (length [Byte.x61]) ≤ UPLOAD_LIMITS.CHUNK ∧
   Z.of_nat (length [Byte.x62; Byte.x63]) ≤ UPLOAD_LIMITS.CHUNK ∧
   ∃ n w1 w2,
     ChunkedUploadService.uploadChunk
       {| c_uploadId := "u1"; c_chunkIndex := 0; c_totalChunks := 1;
          c_chunk := [Byte.x61] |} small_docx_open
     = (Ok (n, totalChunks small_docx_new_session), w1) ∧
     ChunkedUploadService.uploadChunk
       {| c_uploadId := "u1"; c_chunkIndex := 0; c_totalChunks := 1;
          c_chunk := [Byte.x62; Byte.x63] |} w1
     = (Ok (n, totalChunks small_docx_new_session), w2) ∧
     (scratch w1 !! tempDir small_docx_new_session ≫= (λ d, d !! chunkName 0))
     = Some [Byte.x61] ∧
     (scratch w2 !! tempDir small_docx_new_session ≫= (λ d, d !! chunkName 0))
     = Some [Byte.x62; Byte.x63] ∧
     (receivedChunks <$> uploadSessions w2 !! "u1")
     = (receivedChunks <$> uploadSessions w1 !! "u1") ∧
     n = Z.of_nat (size ({[ 0 ]} ∪ receivedChunks small_docx_new_session))) ∧
  (reachable RedisSessions small_docx_open_redis ∧
   redis small_docx_open_redis !! RedisChunkedUploadService.getRedisKey "u1"
   = Some small_docx_new_session_redis ∧
   ∃ n w1 w2,
     RedisChunkedUploadService.uploadChunk
       {| c_uploadId := "u1"; c_chunkIndex := 0; c_totalChunks := 1;
          c_chunk := [Byte.x61] |} small_docx_open_redis
     = (Ok (n, r_totalChunks small_docx_new_session_redis), w1) ∧
     RedisChunkedUploadService.uploadChunk
       {| c_uploadId := "u1"; c_chunkIndex := 0; c_totalChunks := 1;
          c_chunk := [Byte.x62; Byte.x63] |} w1
     = (Ok (n, r_totalChunks small_docx_new_session_redis), w2) ∧
     (scratch w1 !! r_tempDir small_docx_new_session_redis ≫= (λ d, d !! chunkName 0))
     = Some [Byte.x61] ∧
     (scratch w2 !! r_tempDir small_docx_new_session_redis ≫= (λ d, d !! chunkName 0))
     = Some [Byte.x62; Byte.x63] ∧
     (r_receivedChunks <$> redis w2 !! RedisChunkedUploadService.getRedisKey "u1")
     = (r_receivedChunks <$> redis w1 !! RedisChunkedUploadService.getRedisKey "u1") ∧
     n = Z.of_nat (length (jsSet_add 0 (r_receivedChunks small_docx_new_session_redis)))).
Proof.
  split.
  - split; [exact small_docx_open_reachable |].
    split; [exact small_docx_new_session_stored |].
    split; [vm_compute; split; [discriminate | reflexivity] |].
    split; [vm_compute; discriminate |].
    split; [vm_compute; discriminate |].
    apply (proj1 uploadChunk_idempotent_per_index small_docx_open small_docx_new_session
             "u1" 0 1 1 [Byte.x61] [Byte.x62; Byte.x63]
             small_docx_open_reachable small_docx_new_session_stored).
    + vm_compute. split; [discriminate | reflexivity].
    + vm_compute. discriminate.
    + vm_compute. discriminate.
  - split; [exact small_docx_open_redis_reachable |].
    split; [exact small_docx_new_session_redis_stored |].
    apply (proj2 uploadChunk_idempotent_per_index small_docx_open_redis
             small_docx_new_session_redis
             "u1" 0 1 1 [Byte.x61] [Byte.x62; Byte.x63]
             small_docx_open_redis_reachable small_docx_new_session_redis_stored).
    + vm_compute. split; [discriminate | reflexivity].
    + vm_compute. discriminate.
    + vm_compute. discriminate.
Defined.

(** ** Splitting and concatenating *)

Lemma takeZ_dropZ (n : Z) (l : bytes) : takeZ n l ++ dropZ n l = l.
Proof.
  revert n. induction l as [| x l IH]; intros n; simpl; [done |].
  destruct (Z.leb n 0); simpl; [done |]. by rewrite IH.
Qed.

Lemma dropZ_nonpos (n : Z) (l : bytes) : n ≤ 0 → dropZ n l = l.
Proof.
  intros Hn. destruct l as [| x l]; simpl; [done |].
  destruct (Z.leb_spec n 0); [done | lia].
Qed.

Lemma dropZ_add (a b : Z) (l : bytes) :
  0 ≤ a → 0 ≤ b → dropZ (a + b) l = dropZ b (dropZ a l).
Proof.
  revert a. induction l as [| x l IH]; intros a Ha Hb; simpl.
  - by destruct b.
  - destruct (Z.leb_spec (a + b) 0) as [Hab | Hab].
    + assert (a = 0) as -> by lia. assert (b = 0) as -> by lia. simpl. done.
    + destruct (Z.leb_spec a 0) as [Ha0 | Ha0].
      * assert (a = 0) as -> by lia. simpl.
        destruct (Z.leb_spec b 0) as [? | _]; [lia |]. by rewrite Z.add_0_l.
      * replace (a + b - 1) with ((a - 1) + b) by lia. apply IH; lia.
Qed.

Lemma length_takeZ_le (n : Z) (l : bytes) : 0 ≤ n → Z.of_nat (length (takeZ n l)) ≤ n.
Proof.
  revert n. induction l as [| x l IH]; intros n Hn; simpl; [lia |].
  destruct (Z.leb_spec n 0); simpl; [lia |].
  specialize (IH (n - 1) ltac:(lia)). lia.
Qed.

Lemma length_dropZ (n : Z) (l : bytes) :
  0 ≤ n → Z.of_nat (length (dropZ n l)) = Z.max 0 (Z.of_nat (length l) - n).
Proof.
  revert n. induction l as [| x l IH]; intros n Hn; simpl; [lia |].
  destruct (Z.leb_spec n 0); simpl; [lia |].
  rewrite IH by lia. lia.
Qed.

Lemma dropZ_all (n : Z) (l : bytes) : Z.of_nat (length l) ≤ n → dropZ n l = [].
Proof.
  revert n. induction l as [| x l IH]; intros n Hn; simpl; [done |].
  simpl in Hn. destruct (Z.leb_spec n 0); [lia |]. apply IH. lia.
Qed.

(** Concatenating the [n] consecutive pieces of size [c] gives the file
    back as soon as [n * c] covers it. *)
Lemma concat_pieces (c : Z) (n : nat) : ∀ file : bytes,
  0 < c → Z.of_nat (length file) ≤ Z.of_nat n * c →
  concat (map (λ i, takeZ c (dropZ (i * c) file)) (seqZ 0 (Z.of_nat n))) = file.
Proof.
  induction n as [| n IH]; intros file Hc Hlen.
  - simpl. destruct file; [done | simpl in Hlen; lia].
  - rewrite seqZ_cons by lia. simpl map. simpl concat.
    rewrite Z.mul_0_l, dropZ_nonpos by lia.
    replace (Z.pred (Z.of_nat (S n))) with (Z.of_nat n) by lia.
    replace (Z.succ 0) with (1 + 0) by lia.
    rewrite <- fmap_add_seqZ.
    change (map ?f (?g <$> ?l)) with (map f (map g l)). rewrite map_map.
    rewrite (map_ext_in _ (λ i, takeZ c (dropZ (i * c) (dropZ c file)))).
    + rewrite IH; [apply takeZ_dropZ | done |].
      rewrite length_dropZ by lia. lia.
    + intros i Hi%list_elem_of_In%elem_of_seqZ.
      replace ((1 + i) * c) with (c + i * c) by lia.
      by rewrite dropZ_add by nia.
Qed.

(** ** Uploading every chunk, in any order *)

Lemma length_chunkOf (file : bytes) (i : Z) :
  Z.of_nat (length (chunkOf file i)) ≤ UPLOAD_LIMITS.CHUNK.
Proof. unfold chunkOf. apply length_takeZ_le. done. Qed.

Lemma uploadInOrder_run (id : string) (file : bytes) (total : Z) (order : list Z) :
  ∀ (w : World) (s : ChunkedUploadSession) (d : gmap string bytes),
    uploadSessions w !! id = Some s →
    scratch w !! tempDir s = Some d →
    (∀ i, i ∈ order → 0 ≤ i < totalChunks s) →
    ∃ w' s' d',
      uploadInOrder id file total order w = (Ok tt, w') ∧
      uploadSessions w' !! id = Some s' ∧
      scratch w' !! tempDir s = Some d' ∧
      partFiles w' = partFiles w ∧
      receivedChunks s' = list_to_set order ∪ receivedChunks s ∧
      (userId s' = userId s ∧ totalChunks s' = totalChunks s ∧ tempDir s' = tempDir s ∧
       isSecure s' = isSecure s ∧ mimeType s' = mimeType s ∧ partId s' = partId s ∧
       filename s' = filename s) ∧
      (∀ i, 0 ≤ i →
            (i ∈ order → d' !! chunkName i = Some (chunkOf file i)) ∧
            (i ∉ order → d' !! chunkName i = d !! chunkName i)).
Proof.
  induction order as [| k rest IH]; intros w s d Hs Hd Hrange; simpl.
  - exists w, s, d. repeat split; try done.
    + by rewrite union_empty_l_L.
    + intros Hin. by apply elem_of_nil in Hin.
  - pose proof (uploadChunk_run w s (chunkRequest id file total k) d Hs Hd
                  (Hrange k ltac:(left)) (length_chunkOf file k)) as Hrun.
    simpl in Hrun.
    match type of Hrun with _ = (_, ?x) => set (w1 := x) in * end.
    set (s1 := ChunkedUploadService.markReceived k s) in *.
    set (d1 := <[chunkName k := chunkOf file k]> d) in *.
    destruct (IH w1 s1 d1) as (w' & s' & d' & Hrest & Hs' & Hd' & Hpf & Hrec & Hfields & Hfiles).
    { subst w1. simpl. apply lookup_insert_eq. }
    { subst w1 s1. simpl. apply lookup_insert_eq. }
    { intros i Hi. subst s1. simpl. apply Hrange. by right. }
    exists w', s', d'.
    split; [by rewrite (bind_ok _ _ _ _ _ Hrun) |].
    split; [done |]. split; [done |]. split; [by rewrite Hpf |].
    split.
    { rewrite Hrec. subst s1. simpl. apply set_eq. intros x.
      rewrite !elem_of_union. tauto. }
    split; [done |].
    intros i Hi. destruct (Hfiles i Hi) as [Hin Hout]. split.
    + intros [-> | Hrest']%elem_of_cons; [| by apply Hin].
      destruct (decide (k ∈ rest)) as [? | Hnot]; [by apply Hin |].
      rewrite (Hout Hnot). subst d1. apply lookup_insert_eq.
    + intros Hnot. apply not_elem_of_cons in Hnot as [Hne Hnot].
      rewrite (Hout Hnot). subst d1. apply lookup_insert_ne.
      intros Heq. apply Hne. symmetry. apply chunkName_inj; [| done | done].
      destruct (Hrange k ltac:(left)). done.
Qed.

(** [finalizeUpload] on a session whose chunk files are all there. *)
Lemma finalizeUpload_run (w : World) (s : ChunkedUploadSession) (d : gmap string bytes)
    (cs : list bytes) (caller : string) (input : FinalizeUploadInput) (uuid : string) :
  uploadSessions w !! f_uploadId input = Some s →
  userId s = caller →
  Z.of_nat (size (receivedChunks s)) = totalChunks s →
  scratch w !! tempDir s = Some d →
  Forall2 (λ i c, d !! chunkName i = Some c) (loopIndices (totalChunks s)) cs →
  partFiles w !! uuid = None →
  ∃ key w',
    ChunkedUploadService.finalizeUpload caller input uuid w
    = (Ok {| res_storageKey := key; res_assetId := uuid |}, w') ∧
    if isSecure s
    then key = "" ∧
         tmpFiles w' !! path_join os_tmpdir
            ("lms-upload-" +:+ uuid +:+ "-input"
             +:+ ChunkedUploadService.getExtension (mimeType s)) = Some (concat cs)
    else key = "/public/" +:+ partId s +:+ "/" +:+ uuid +:+ "/" +:+ filename s ∧
         (so_body <$> bunny w' !! key) = Some (concat cs).
Proof.
  intros Hs Huser Hsize Hd Hcs Hfresh.
  unfold ChunkedUploadService.finalizeUpload. mfwd. rewrite Hs. mfwd.
  rewrite Huser, String.eqb_refl. simpl negb. cbv iota.
  rewrite Hsize, Z.eqb_refl. simpl negb. cbv iota.
  rewrite (bind_ok _ _ _ _ _ (assembleFile_ok _ _ cs w d Hd Hcs)).
  set (w1 := set_scratch _ w).
  destruct (storeAsset_ok s (concat cs) uuid w1 Hfresh) as (key & w2 & Hstore & _ & _ & Hkey).
  rewrite (bind_ok _ _ _ _ _ Hstore).
  destruct (cleanupSession_ok (f_uploadId input) w2) as (w3 & Hclean & Htmp & Hbunny & _).
  rewrite (bind_ok _ _ _ _ _ Hclean). mfwd.
  exists key, w3. split; [done |]. rewrite Htmp, Hbunny. exact Hkey.
Qed.

Lemma initUpload_run (w w0 : World) (caller : string) (input : InitUploadInput)
    (uuid : string) (now : Z) (id : string) :
  ChunkedUploadService.initUpload caller input uuid now w = (Ok id, w0) →
  id = uuid ∧
  in_fileSize input ≤ UPLOAD_LIMITS.MAX_TOTAL_FILE ∧
  in_totalChunks input = ceilDiv (in_fileSize input) UPLOAD_LIMITS.CHUNK ∧
  partFiles w0 = partFiles w ∧
  (∃ d, scratch w0 !! tempDirOf uuid = Some d) ∧
  uploadSessions w0 !! uuid
  = Some {| uploadId := uuid; filename := in_filename input;
            fileSize := in_fileSize input; mimeType := in_mimeType input;
            totalChunks := in_totalChunks input; receivedChunks := ∅;
            partId := in_partId input; isSecure := in_isSecure input;
            tempDir := tempDirOf uuid; createdAt := now; userId := caller |}.
Proof.
  intros Hrun. unfold ChunkedUploadService.initUpload in Hrun. minv Hrun.
  split; [done |].
  split; [by apply Z.ltb_ge |].
  split; [apply Z.eqb_eq; by apply negb_false_iff |].
  split; [done |]. simpl.
  split; [| by rewrite lookup_insert_eq].
  destruct (scratch w !! tempDirOf uuid) eqn:Hdir; [eauto |].
  rewrite lookup_insert_eq. eauto.
Qed.

Lemma concat_chunks (file : bytes) (n : Z) :
  0 ≤ n → Z.of_nat (length file) ≤ n * UPLOAD_LIMITS.CHUNK →
  concat (map (chunkOf file) (seqZ 0 n)) = file.
Proof.
  intros Hn Hlen. rewrite <- (Z2Nat.id n) by done.
  apply (concat_pieces UPLOAD_LIMITS.CHUNK (Z.to_nat n) file); [done |].
  by rewrite Z2Nat.id.
Qed.

Lemma chunk_files_in_order (d : gmap string bytes) (file : bytes) (indices : list Z) :
  (∀ i, i ∈ indices → d !! chunkName i = Some (chunkOf file i)) →
  Forall2 (λ i c, d !! chunkName i = Some c) indices (map (chunkOf file) indices).
Proof.
  induction indices as [| i indices IH]; intros Hall; simpl; constructor.
  - apply Hall. left.
  - apply IH. intros j Hj. apply Hall. by right.
Qed.

Lemma assembly_order_in_memory (w w0 : World) (caller : string)
    (input : InitUploadInput) (uuid id : string) (now : Z) (file : bytes)
    (order : list Z) (fin : FinalizeUploadInput) (fileId : string) :
  Z.of_nat (length file) = in_fileSize input →
  ChunkedUploadService.initUpload caller input uuid now w = (Ok id, w0) →
  order ≡ₚ seqZ 0 (in_totalChunks input) →
  f_uploadId fin = uuid →
  partFiles w !! fileId = None →
  ∃ w1 res w2,
    uploadInOrder uuid file (in_totalChunks input) order w0 = (Ok tt, w1) ∧
    ChunkedUploadService.finalizeUpload caller fin fileId w1 = (Ok res, w2) ∧
    res_assetId res = fileId ∧
    if in_isSecure input
    then tmpFiles w2 !! path_join os_tmpdir
           ("lms-upload-" +:+ fileId +:+ "-input"
            +:+ ChunkedUploadService.getExtension (in_mimeType input)) = Some file
    else (so_body <$> bunny w2 !! res_storageKey res) = Some file.
Proof.
  intros Hlen Hinit Hperm Hfin Hfresh.
  destruct (initUpload_run _ _ _ _ _ _ _ Hinit) as (-> & Hmax & Htotal & Hpf & [d Hd] & Hs).
  set (n := in_totalChunks input) in *.
  assert (0 ≤ n ∧ Z.of_nat (length file) ≤ n * UPLOAD_LIMITS.CHUNK) as [Hn Hcover].
  { symmetry in Htotal. apply ceilDiv_spec in Htotal; [| done].
    rewrite <- Hlen in Htotal.
    assert (0 < UPLOAD_LIMITS.CHUNK) by done. split; [nia | lia]. }
  match type of Hs with _ = Some ?x => set (s0 := x) in * end.
  destruct (uploadInOrder_run uuid file n order w0 s0 d Hs Hd)
    as (w1 & s1 & d1 & Hup & Hs1 & Hd1 & Hpf1 & Hrec & Hfields & Hfiles).
  { intros i Hi. rewrite Hperm in Hi. apply elem_of_seqZ in Hi. simpl. lia. }
  destruct Hfields as (Huser & Htot & Hdir & Hsec & Hmime & Hpart & Hname).
  simpl in Huser, Htot, Hdir, Hsec, Hmime, Hpart, Hname, Hrec.
  assert (receivedChunks s1 = allIndices n) as Hall.
  { rewrite Hrec, union_empty_r_L. unfold allIndices. by rewrite Hperm. }
  destruct (finalizeUpload_run w1 s1 d1 (map (chunkOf file) (seqZ 0 n)) caller fin fileId)
    as (key & w2 & Hfinal & Hstored).
  { by rewrite Hfin. }
  { done. }
  { rewrite Hall, size_allIndices, Htot. lia. }
  { by rewrite Hdir. }
  { rewrite Htot. apply chunk_files_in_order. intros i Hi.
    apply (Hfiles i).
    - apply elem_of_seqZ in Hi. lia.
    - rewrite Hperm. exact Hi. }
  { by rewrite Hpf1, Hpf. }
  exists w1, {| res_storageKey := key; res_assetId := fileId |}, w2.
  split; [done |]. split; [done |]. split; [done |].
  rewrite (concat_chunks file n Hn Hcover) in Hstored.
  rewrite Hsec, Hmime in Hstored. simpl.
  destruct (in_isSecure input); [by destruct Hstored | by destruct Hstored as [-> ?]].
Qed.

Lemma redis_uploadInOrder_run (id : string) (file : bytes) (total : Z) (order : list Z) :
  ∀ (w : World) (s : RedisSession) (d : gmap string bytes),
    redis w !! RedisChunkedUploadService.getRedisKey id = Some s →
    scratch w !! r_tempDir s = Some d →
    NoDup (r_receivedChunks s) →
    (∀ i, i ∈ order → 0 ≤ i < r_totalChunks s) →
    ∃ w' s' d',
      redis_uploadInOrder id file total order w = (Ok tt, w') ∧
      redis w' !! RedisChunkedUploadService.getRedisKey id = Some s' ∧
      scratch w' !! r_tempDir s = Some d' ∧
      partFiles w' = partFiles w ∧
      NoDup (r_receivedChunks s') ∧
      (∀ x, x ∈ r_receivedChunks s' ↔ x ∈ order ∨ x ∈ r_receivedChunks s) ∧
      (r_userId s' = r_userId s ∧ r_totalChunks s' = r_totalChunks s ∧
       r_tempDir s' = r_tempDir s ∧ r_isSecure s' = r_isSecure s ∧
       r_mimeType s' = r_mimeType s ∧ r_partId s' = r_partId s ∧
       r_filename s' = r_filename s) ∧
      (∀ i, 0 ≤ i →
            (i ∈ order → d' !! chunkName i = Some (chunkOf file i)) ∧
            (i ∉ order → d' !! chunkName i = d !! chunkName i)).
Proof.
  induction order as [| k rest IH]; intros w s d Hs Hd Hnodup Hrange; simpl.
  - exists w, s, d. repeat split; try done.
    + intros Hx. by right.
    + intros [Hx | Hx]; [by apply elem_of_nil in Hx | done].
    + intros Hin. by apply elem_of_nil in Hin.
  - pose proof (redis_uploadChunk_run w s (chunkRequest id file total k) d Hs Hd
                  (Hrange k ltac:(left)) (length_chunkOf file k)) as Hrun.
    cbv zeta in Hrun. simpl in Hrun.
    match type of Hrun with _ = (_, ?x) => set (w1 := x) in * end.
    set (l1 := jsSet_add k (jsSet_from (r_receivedChunks s))) in *.
    set (s1 := RedisChunkedUploadService.setReceived l1 s) in *.
    set (d1 := <[chunkName k := chunkOf file k]> d) in *.
    destruct (IH w1 s1 d1)
      as (w' & s' & d' & Hrest & Hs' & Hd' & Hpf & Hnd & Hel & Hfields & Hfiles).
    { subst w1. simpl. apply lookup_insert_eq. }
    { subst w1 s1. simpl. apply lookup_insert_eq. }
    { subst s1 l1. simpl. apply NoDup_jsSet_add, NoDup_jsSet_from. }
    { intros i Hi. subst s1. simpl. apply Hrange. by right. }
    exists w', s', d'.
    split; [by rewrite (bind_ok _ _ _ _ _ Hrun) |].
    split; [done |]. split; [done |]. split; [by rewrite Hpf |].
    split; [done |].
    split.
    { intros x. rewrite Hel. subst s1 l1. simpl.
      rewrite elem_of_jsSet_add, elem_of_jsSet_from, elem_of_cons. tauto. }
    split; [done |].
    intros i Hi. destruct (Hfiles i Hi) as [Hin Hout]. split.
    + intros [-> | Hrest']%elem_of_cons; [| by apply Hin].
      destruct (decide (k ∈ rest)) as [? | Hnot]; [by apply Hin |].
      rewrite (Hout Hnot). subst d1. apply lookup_insert_eq.
    + intros Hnot. apply not_elem_of_cons in Hnot as [Hne Hnot].
      rewrite (Hout Hnot). subst d1. apply lookup_insert_ne.
      intros Heq. apply Hne. symmetry. apply chunkName_inj; [| done | done].
      destruct (Hrange k ltac:(left)). done.
Qed.

Lemma redis_finalizeUpload_run (w : World) (s : RedisSession) (d : gmap string bytes)
    (cs : list bytes) (label caller : string) (input : FinalizeUploadInput)
    (uuid : string) :
  redis w !! RedisChunkedUploadService.getRedisKey (f_uploadId input) = Some s →
  r_userId s = caller →
  Z.of_nat (length (r_receivedChunks s)) = r_totalChunks s →
  scratch w !! r_tempDir s = Some d →
  Forall2 (λ i c, d !! chunkName i = Some c) (loopIndices (r_totalChunks s)) cs →
  partFiles w !! uuid = None →
  ∃ key w',
    RedisChunkedUploadService.finalizeUpload label caller input uuid w
    = (Ok {| res_storageKey := key; res_assetId := uuid |}, w') ∧
    if r_isSecure s || negb (String.eqb (r_mimeType s) "application/pdf")
    then key = "" ∧
         (so_body <$> bunny w' !! ("/staging/pdf-input/" +:+ uuid +:+ "/source"
             +:+ RedisChunkedUploadService.getExtension (r_mimeType s))) = Some (concat cs)
    else key = "/public/" +:+ r_partId s +:+ "/" +:+ uuid +:+ "/" +:+ r_filename s ∧
         (so_body <$> bunny w' !! key) = Some (concat cs).
Proof.
  intros Hs Huser Hsize Hd Hcs Hfresh.
  unfold RedisChunkedUploadService.finalizeUpload, RedisChunkedUploadService.redis_get.
  mfwd. rewrite Hs. mfwd.
  rewrite Huser, String.eqb_refl. simpl negb. cbv iota.
  rewrite Hsize, Z.eqb_refl. simpl negb. cbv iota.
  rewrite (bind_ok _ _ _ _ _ (assembleFile_ok _ _ cs w d Hd Hcs)).
  set (w1 := set_scratch _ w).
  destruct (redis_storeAsset_ok label s (concat cs) uuid w1 Hfresh)
    as (key & w2 & Hstore & _ & _ & Hkey).
  rewrite (bind_ok _ _ _ _ _ Hstore).
  unfold RedisChunkedUploadService.redis_del, try_catch. mfwd.
  eexists key, _. split; [reflexivity |]. exact Hkey.
Qed.

Lemma redis_initUpload_run (w w0 : World) (caller : string) (input : InitUploadInput)
    (uuid : string) (now : Z) (id : string) :
  RedisChunkedUploadService.initUpload caller input uuid now w = (Ok id, w0) →
  id = uuid ∧
  in_fileSize input ≤ UPLOAD_LIMITS.MAX_TOTAL_FILE ∧
  in_totalChunks input = ceilDiv (in_fileSize input) UPLOAD_LIMITS.CHUNK ∧
  partFiles w0 = partFiles w ∧
  (∃ d, scratch w0 !! tempDirOf uuid = Some d) ∧
  redis w0 !! RedisChunkedUploadService.getRedisKey uuid
  = Some {| r_uploadId := uuid; r_filename := in_filename input;
            r_fileSize := in_fileSize input; r_mimeType := in_mimeType input;
            r_totalChunks := in_totalChunks input; r_receivedChunks := [];
            r_partId := in_partId input; r_isSecure := in_isSecure input;
            r_tempDir := tempDirOf uuid; r_createdAt := now; r_userId := caller |}.
Proof.
  intros Hrun. unfold RedisChunkedUploadService.initUpload,
    RedisChunkedUploadService.redis_setex in Hrun. minv Hrun.
  split; [done |].
  split; [by apply Z.ltb_ge |].
  split; [apply Z.eqb_eq; by apply negb_false_iff |].
  split; [done |]. simpl.
  split; [| by rewrite lookup_insert_eq].
  destruct (scratch w !! tempDirOf uuid) eqn:Hdir; [eauto |].
  rewrite lookup_insert_eq. eauto.
Qed.

Lemma assembly_order_redis (w w0 : World) (label caller : string)
    (input : InitUploadInput) (uuid id : string) (now : Z) (file : bytes)
    (order : list Z) (fin : FinalizeUploadInput) (fileId : string) :
  Z.of_nat (length file) = in_fileSize input →
  RedisChunkedUploadService.initUpload caller input uuid now w = (Ok id, w0) →
  order ≡ₚ seqZ 0 (in_totalChunks input) →
  f_uploadId fin = uuid →
  partFiles w !! fileId = None →
  ∃ w1 res w2,
    redis_uploadInOrder uuid file (in_totalChunks input) order w0 = (Ok tt, w1) ∧
    RedisChunkedUploadService.finalizeUpload label caller fin fileId w1 = (Ok res, w2) ∧
    res_assetId res = fileId ∧
    if in_isSecure input || negb (String.eqb (in_mimeType input) "application/pdf")
    then (so_body <$> bunny w2 !! ("/staging/pdf-input/" +:+ fileId +:+ "/source"
             +:+ RedisChunkedUploadService.getExtension (in_mimeType input))) = Some file
    else (so_body <$> bunny w2 !! res_storageKey res) = Some file.
Proof.
  intros Hlen Hinit Hperm Hfin Hfresh.
  destruct (redis_initUpload_run _ _ _ _ _ _ _ Hinit)
    as (-> & Hmax & Htotal & Hpf & [d Hd] & Hs).
  set (n := in_totalChunks input) in *.
  assert (0 ≤ n ∧ Z.of_nat (length file) ≤ n * UPLOAD_LIMITS.CHUNK) as [Hn Hcover].
  { symmetry in Htotal. apply ceilDiv_spec in Htotal; [| done].
    rewrite <- Hlen in Htotal.
    assert (0 < UPLOAD_LIMITS.CHUNK) by done. split; [nia | lia]. }
  match type of Hs with _ = Some ?x => set (s0 := x) in * end.
  destruct (redis_uploadInOrder_run uuid file n order w0 s0 d Hs Hd)
    as (w1 & s1 & d1 & Hup & Hs1 & Hd1 & Hpf1 & Hnd & Hel & Hfields & Hfiles).
  { apply NoDup_nil_2. }
  { intros i Hi. rewrite Hperm in Hi. apply elem_of_seqZ in Hi. simpl. lia. }
  destruct Hfields as (Huser & Htot & Hdir & Hsec & Hmime & Hpart & Hname).
  simpl in Huser, Htot, Hdir, Hsec, Hmime, Hpart, Hname, Hel.
  assert (Z.of_nat (length (r_receivedChunks s1)) = n) as Hsize.
  { assert (r_receivedChunks s1 ≡ₚ seqZ 0 n) as Hp.
    { apply NoDup_Permutation; [done | apply NoDup_seqZ |].
      intros x. rewrite Hel, <- Hperm, elem_of_nil. tauto. }
    rewrite Hp, length_seqZ. lia. }
  destruct (redis_finalizeUpload_run w1 s1 d1 (map (chunkOf file) (seqZ 0 n))
              label caller fin fileId) as (key & w2 & Hfinal & Hstored).
  { by rewrite Hfin. }
  { done. }
  { by rewrite Htot. }
  { by rewrite Hdir. }
  { rewrite Htot. apply chunk_files_in_order. intros i Hi.
    apply (Hfiles i).
    - apply elem_of_seqZ in Hi. lia.
    - rewrite Hperm. exact Hi. }
  { by rewrite Hpf1, Hpf. }
  exists w1, {| res_storageKey := key; res_assetId := fileId |}, w2.
  split; [done |]. split; [done |]. split; [done |].
  rewrite (concat_chunks file n Hn Hcover) in Hstored.
  rewrite Hsec, Hmime in Hstored. simpl.
  destruct (in_isSecure input || _)%bool; [by destruct Hstored | by destruct Hstored as [-> ?]].
Qed.

(** C1: take a file of the declared size, a session that [initUpload]
    created for it, and the chunks [0 .. N-1] of the file cut at the 5 MiB
    boundary, sent in any order that is a permutation of the indices.
    Then every [uploadChunk] succeeds, [finalizeUpload] by the owner
    succeeds (the asset id being free), and the bytes it hands on -- to the
    worker input or to the public storage key -- are the original file:
    the chunks were concatenated by ascending index.  Both services. *)
Theorem finalizeUpload_assembles_in_index_order :
  (∀ (w w0 : World) (caller : string) (input : InitUploadInput) (uuid id : string)
     (now : Z) (file : bytes) (order : list Z) (fin : FinalizeUploadInput)
     (fileId : string),
     Z.of_nat (length file) = in_fileSize input →
     ChunkedUploadService.initUpload caller input uuid now w = (Ok id, w0) →
     order ≡ₚ seqZ 0 (in_totalChunks input) →
     f_uploadId fin = uuid →
     partFiles w !! fileId = None →
     ∃ w1 res w2,
       uploadInOrder uuid file (in_totalChunks input) order w0 = (Ok tt, w1) ∧
       ChunkedUploadService.finalizeUpload caller fin fileId w1 = (Ok res, w2) ∧
       res_assetId res = fileId ∧
       if in_isSecure input
       then tmpFiles w2 !! path_join os_tmpdir
              ("lms-upload-" +:+ fileId +:+ "-input"
               +:+ ChunkedUploadService.getExtension (in_mimeType input)) = Some file
       else (so_body <$> bunny w2 !! res_storageKey res) = Some file) ∧
  (∀ (w w0 : World) (label caller : string) (input : InitUploadInput) (uuid id : string)
     (now : Z) (file : bytes) (order : list Z) (fin : FinalizeUploadInput)
     (fileId : string),
     Z.of_nat (length file) = in_fileSize input →
     RedisChunkedUploadService.initUpload caller input uuid now w = (Ok id, w0) →
     order ≡ₚ seqZ 0 (in_totalChunks input) →
     f_uploadId fin = uuid →
     partFiles w !! fileId = None →
     ∃ w1 res w2,
       redis_uploadInOrder uuid file (in_totalChunks input) order w0 = (Ok tt, w1) ∧
       RedisChunkedUploadService.finalizeUpload label caller fin fileId w1 = (Ok res, w2) ∧
       res_assetId res = fileId ∧
       if in_isSecure input || negb (String.eqb (in_mimeType input) "application/pdf")
       then (so_body <$> bunny w2 !! ("/staging/pdf-input/" +:+ fileId +:+ "/source"
                +:+ RedisChunkedUploadService.getExtension (in_mimeType input))) = Some file
       else (so_body <$> bunny w2 !! res_storageKey res) = Some file).
Proof.
  split.
  - intros w w0 caller input uuid id now file order fin fileId.
    apply assembly_order_in_memory.
  - intros w w0 label caller input uuid id now file order fin fileId.
    apply assembly_order_redis.
Qed.

Lemma finalizeUpload_assembles_in_index_order_witness :
  (Z.of_nat (length two_chunk_file) = in_fileSize init_two_chunks ∧
   ChunkedUploadService.initUpload "instructor-1" init_two_chunks "u1" 0 campus
   = (Ok "u1", two_chunks_open) ∧
   [1; 0] ≡ₚ seqZ 0 (in_totalChunks init_two_chunks) ∧
   f_uploadId finalize_u1 = "u1" ∧
   partFiles campus !! "f1" = None ∧
   ∃ w1 res w2,
     uploadInOrder "u1" two_chunk_file (in_totalChunks init_two_chunks) [1; 0]
       two_chunks_open = (Ok tt, w1) ∧
     ChunkedUploadService.finalizeUpload "instructor-1" finalize_u1 "f1" w1 = (Ok res, w2) ∧
     res_assetId res = "f1" ∧
     (so_body <$> bunny w2 !! res_storageKey res) = Some two_chunk_file) ∧
  (RedisChunkedUploadService.initUpload "instructor-1" init_two_chunks "u1" 0 campus
   = (Ok "u1", two_chunks_open_redis) ∧
   ∃ w1 res w2,
     redis_uploadInOrder "u1" two_chunk_file (in_totalChunks init_two_chunks) [1; 0]
       two_chunks_open_redis = (Ok tt, w1) ∧
     RedisChunkedUploadService.finalizeUpload "label" "instructor-1" finalize_u1 "f1" w1
     = (Ok res, w2) ∧
     res_assetId res = "f1" ∧
     (so_body <$> bunny w2 !! "/staging/pdf-input/f1/source.docx") = Some two_chunk_file).
Proof.
  assert (Z.of_nat (length two_chunk_file) = in_fileSize init_two_chunks) as Hsize.
  { unfold two_chunk_file, init_two_chunks. cbn [in_fileSize].
    rewrite length_app, !length_replicate. lia. }
  assert ([1; 0] ≡ₚ seqZ 0 (in_totalChunks init_two_chunks)) as Horder
    by (change (seqZ 0 (in_totalChunks init_two_chunks)) with [0; 1]; apply perm_swap).
  split.
  - split; [exact Hsize |].
    split; [vm_compute; reflexivity |].
    split; [exact Horder |].
    split; [reflexivity |].
    split; [reflexivity |].
    exact (proj1 finalizeUpload_assembles_in_index_order campus two_chunks_open
             "instructor-1" init_two_chunks "u1" "u1" 0 two_chunk_file [1; 0] finalize_u1
             "f1" Hsize ltac:(vm_compute; reflexivity) Horder eq_refl eq_refl).
  - split; [vm_compute; reflexivity |].
    exact (proj2 finalizeUpload_assembles_in_index_order campus two_chunks_open_redis
             "label" "instructor-1" init_two_chunks "u1" "u1" 0 two_chunk_file [1; 0]
             finalize_u1 "f1" Hsize ltac:(vm_compute; reflexivity) Horder eq_refl eq_refl).
Defined.

(** ** Rows created by the ingestion paths *)

(** Decomposes a preservation goal for a property of the asset rows down
    to the writes of [partFile]. *)
Ltac pres_assets_unfold :=
  progress
    unfold part_findUnique, user_findUnique, enrollment_findUnique,
      partFile_findUnique, getNextOrder,
      uploadPublic, uploadPrivate, storage_upload, downloadStream, storage_delete,
      pdfQueue_add, fs_mkdir, fs_writeFile, fs_readFile, fs_appendFile, fs_rm,
      fs_writeTmpFile, console_log.

Ltac pres_assets :=
  cbv zeta;
  repeat (first [ pres_step | pres_assets_unfold ]; cbv zeta);
  try (apply preserves_modify; intros ? Hinv; exact Hinv).

(** The ingestion paths only create rows, of two shapes: pending (no key,
    PROCESSING, no page) and public (a key under [/public/], COMPLETED). *)
Section Rows.
Variable P : string → PartFile → Prop.
Hypothesis P_pending : ∀ f,
  pf_storageKey f = "" → pf_renderStatus f = PROCESSING → pf_pageCount f = 0 →
  P (pf_id f) f.
Hypothesis P_public : ∀ f a,
  pf_storageKey f = "/public/" +:+ a → pf_renderStatus f = COMPLETED →
  P (pf_id f) f.

Lemma rows_ok_partFile_create (data : PartFile) :
  P (pf_id data) data → preserves (rows_ok P) (partFile_create data).
Proof.
  intros Hdata w Hw. unfold partFile_create. mfwd.
  destruct (partFiles w !! pf_id data) eqn:Hold; mfwd; [exact Hw |].
  intros id f Hf. simpl in Hf.
  destruct (decide (pf_id data = id)) as [<- | Hne].
  - rewrite lookup_insert_eq in Hf. by simplify_eq.
  - rewrite lookup_insert_ne in Hf by done. by apply (Hw id).
Qed.

Lemma rows_ok_assembleChunks dir indices :
  preserves (rows_ok P) (ChunkedUploadService.assembleChunks dir indices).
Proof.
  induction indices as [| i rest IH]; simpl; [apply preserves_ret |].
  apply preserves_bind; [pres_assets |]. intros chunkData.
  apply preserves_bind; [pres_assets |]. intros u. exact IH.
Qed.

Lemma rows_ok_initUpload caller input uuid now :
  preserves (rows_ok P) (ChunkedUploadService.initUpload caller input uuid now).
Proof. unfold ChunkedUploadService.initUpload. pres_assets. Qed.

Lemma rows_ok_uploadChunk input :
  preserves (rows_ok P) (ChunkedUploadService.uploadChunk input).
Proof. unfold ChunkedUploadService.uploadChunk. pres_assets. Qed.

Lemma rows_ok_cleanupSession uploadId :
  preserves (rows_ok P) (ChunkedUploadService.cleanupSession uploadId).
Proof. unfold ChunkedUploadService.cleanupSession. pres_assets. Qed.

Lemma rows_ok_sweepSession now uploadId :
  preserves (rows_ok P) (ChunkedUploadService.sweepSession now uploadId).
Proof.
  unfold ChunkedUploadService.sweepSession. pres_assets.
  apply rows_ok_cleanupSession.
Qed.

Lemma rows_ok_assembleFile dir total :
  preserves (rows_ok P) (ChunkedUploadService.assembleFile dir total).
Proof.
  unfold ChunkedUploadService.assembleFile. pres_assets.
  apply rows_ok_assembleChunks.
Qed.

Ltac created_row :=
  apply rows_ok_partFile_create;
  first [ by apply P_pending | by eapply P_public ].

Lemma rows_ok_storeAsset s fileBuffer fileId :
  preserves (rows_ok P) (ChunkedUploadService.storeAsset s fileBuffer fileId).
Proof. unfold ChunkedUploadService.storeAsset. pres_assets; created_row. Qed.

Lemma rows_ok_finalizeUpload caller input uuid :
  preserves (rows_ok P) (ChunkedUploadService.finalizeUpload caller input uuid).
Proof.
  unfold ChunkedUploadService.finalizeUpload. pres_assets.
  - apply rows_ok_assembleFile.
  - apply rows_ok_storeAsset.
  - apply rows_ok_cleanupSession.
Qed.

Lemma rows_ok_redis_initUpload caller input uuid now :
  preserves (rows_ok P) (RedisChunkedUploadService.initUpload caller input uuid now).
Proof.
  unfold RedisChunkedUploadService.initUpload, RedisChunkedUploadService.redis_setex.
  pres_assets.
Qed.

Lemma rows_ok_redis_uploadChunk input :
  preserves (rows_ok P) (RedisChunkedUploadService.uploadChunk input).
Proof.
  unfold RedisChunkedUploadService.uploadChunk, RedisChunkedUploadService.redis_setex,
    RedisChunkedUploadService.redis_get.
  pres_assets.
Qed.

Lemma rows_ok_redis_storeAsset label s fileBuffer fileId :
  preserves (rows_ok P) (RedisChunkedUploadService.storeAsset label s fileBuffer fileId).
Proof. unfold RedisChunkedUploadService.storeAsset. pres_assets; created_row. Qed.

Lemma rows_ok_redis_finalizeUpload label caller input uuid :
  preserves (rows_ok P) (RedisChunkedUploadService.finalizeUpload label caller input uuid).
Proof.
  unfold RedisChunkedUploadService.finalizeUpload, RedisChunkedUploadService.redis_get,
    RedisChunkedUploadService.redis_del.
  pres_assets.
  - apply rows_ok_assembleFile.
  - apply rows_ok_redis_storeAsset.
Qed.

Lemma rows_ok_uploadLessonPdf caller lessonId file title isSecureStr uuid :
  preserves (rows_ok P)
    (UploadService.uploadLessonPdf caller lessonId file title isSecureStr uuid).
Proof.
  unfold UploadService.uploadLessonPdf, UploadService.validateConfig,
    UploadService.getExtension. pres_assets; created_row.
Qed.

(** Every operation but a run of the worker keeps [P] on all rows. *)
Lemma rows_ok_ingestion (op : Op) (w : World) :
  (∀ env job_id data, op ≠ OpWorker env job_id data) →
  rows_ok P w → rows_ok P (runOp op w).
Proof.
  intros Hop Hw. destruct op; simpl.
  - by apply rows_ok_initUpload.
  - by apply rows_ok_uploadChunk.
  - by apply rows_ok_finalizeUpload.
  - by apply rows_ok_sweepSession.
  - by apply rows_ok_redis_initUpload.
  - by apply rows_ok_redis_uploadChunk.
  - by apply rows_ok_redis_finalizeUpload.
  - done.
  - by apply rows_ok_uploadLessonPdf.
  - by destruct (Hop env job_id data).
Qed.

End Rows.

(** ** The asset rows stay well-formed *)

Lemma assets_ok_partFile_update (id : string) (upd : PartFile → PartFile) :
  (∀ f, asset_ok f → asset_ok (upd f)) →
  preserves assets_ok (partFile_update id upd).
Proof.
  intros Hupd w Hw. unfold partFile_update. mfwd.
  destruct (partFiles w !! id) as [f |] eqn:Hold; mfwd; [| exact Hw].
  intros id' f' Hf'. simpl in Hf'.
  destruct (decide (id = id')) as [<- | Hne].
  - rewrite lookup_insert_eq in Hf'. simplify_eq. apply Hupd. by apply (Hw id).
  - rewrite lookup_insert_ne in Hf' by done. by apply (Hw id').
Qed.

Lemma asset_ok_set_renderStatus (st : RenderStatus) (f : PartFile) :
  st ≠ COMPLETED → asset_ok f → asset_ok (set_renderStatus st f).
Proof.
  intros Hst [H1 H2]. split; simpl; [done |].
  intros Hkey. by destruct (H2 Hkey).
Qed.

Lemma asset_ok_set_completed (key title : string) (n : Z) (f : PartFile) :
  key ≠ "" → asset_ok (set_completed key title n f).
Proof. intros Hkey. split; simpl; done. Qed.

Lemma destinationPathOf_nonempty (id : string) : PdfWorker.destinationPathOf id ≠ "".
Proof. unfold PdfWorker.destinationPathOf. simpl. discriminate. Qed.

Lemma public_key_nonempty (a : string) : "/public/" +:+ a ≠ "".
Proof. simpl. discriminate. Qed.

Lemma asset_ok_pending (f : PartFile) :
  pf_storageKey f = "" → pf_renderStatus f = PROCESSING → pf_pageCount f = 0 →
  asset_ok f.
Proof. intros Hkey Hst Hn. split; [by rewrite Hst | by rewrite Hst]. Qed.

Lemma asset_ok_public (f : PartFile) (a : string) :
  pf_storageKey f = "/public/" +:+ a → pf_renderStatus f = COMPLETED → asset_ok f.
Proof.
  intros Hkey Hst. split; rewrite Hkey; [intros _ | intros Hk];
    [apply public_key_nonempty | by apply public_key_nonempty in Hk].
Qed.

Lemma assets_ok_pdfWorker env job_id data :
  preserves assets_ok (PdfWorker.pdfWorker env job_id data).
Proof.
  unfold PdfWorker.pdfWorker, PdfWorker.smokeTest, PdfWorker.processJob,
    PdfWorker.onFailure, PdfWorker.logWorkerError. pres_assets.
  all: apply assets_ok_partFile_update; intros f Hf.
  all: first [ by apply asset_ok_set_renderStatus
             | apply asset_ok_set_completed, destinationPathOf_nonempty ].
Qed.

Lemma reachable_assets_ok (b : Backend) (w : World) : reachable b w → assets_ok w.
Proof.
  induction 1 as [w (_ & _ & _ & _ & Hpf & _) | w op Hreach IH Hen].
  - intros id f Hf. rewrite Hpf in Hf. by rewrite lookup_empty in Hf.
  - destruct op;
      try (apply (rows_ok_ingestion (λ _, asset_ok)); [| | done | exact IH];
           [intros f; apply asset_ok_pending | intros f; apply asset_ok_public]).
    by apply assets_ok_pdfWorker.
Qed.

(** ** The worker's top-level catch *)

Lemma smokeTest_ok (env : WorkerEnv) (w : World) :
  PdfWorker.smokeTest env w = (Ok tt, exec (PdfWorker.smokeTest env) w).
Proof. unfold PdfWorker.smokeTest, exec. by destruct (sofficeAvailable env). Qed.

Lemma onFailure_run (env : WorkerEnv) (jobId : string) (data : PdfJobData)
    (e : Error) (w1 : World) :
  let id := partFileId data in
  ∃ w2,
    PdfWorker.onFailure env jobId data e w1 = (Throw e, w2) ∧
    bunny w2 = bunny w1 ∧ pdfQueue w2 = pdfQueue w1 ∧
    ((∃ f, fault env DbMarkFailed = None ∧ partFiles w1 !! id = Some f ∧
           partFiles w2 = <[id := set_renderStatus FAILED f]> (partFiles w1) ∧
           console w2 = console w1 ++ [LogCritical jobId id (sourceKey data) e;
                                       LogMarkedFailed jobId])
     ∨ (∃ dbError,
          (fault env DbMarkFailed = Some dbError
           ∨ (fault env DbMarkFailed = None ∧ partFiles w1 !! id = None
              ∧ dbError = PrismaError "P2025")) ∧
          partFiles w2 = partFiles w1 ∧
          console w2 = console w1 ++ [LogCritical jobId id (sourceKey data) e;
                                      LogWorkerError "DB_UPDATE_FAILED" jobId id
                                        (sourceKey data) dbError])).
Proof.
  intros id. unfold PdfWorker.onFailure, PdfWorker.logWorkerError. mfwd.
  set (w' := set_console _ w1). fold id.
  set (mark := bind (at_site env DbMarkFailed _) _).
  destruct (fault env DbMarkFailed) as [dbError |] eqn:Hfault.
  - assert (mark w' = (Throw dbError, w')) as Hmark.
    { subst mark. unfold at_site. rewrite Hfault. reflexivity. }
    erewrite bind_ok; [| erewrite try_catch_throw; [| exact Hmark]; mfwd; reflexivity].
    mfwd. eexists. split; [reflexivity |]. simpl. split; [done |]. split; [done |].
    right. exists dbError. rewrite <- app_assoc. eauto.
  - destruct (partFiles w1 !! id) as [f |] eqn:Hf.
    + assert (mark w' = (Ok tt, set_console (λ c, c ++ [LogMarkedFailed jobId])
                                 (set_partFiles (<[id := set_renderStatus FAILED f]>) w')))
        as Hmark.
      { subst mark. unfold at_site. rewrite Hfault. mfwd. simpl. rewrite Hf. mfwd.
        reflexivity. }
      erewrite bind_ok; [| erewrite try_catch_ok; [| exact Hmark]; reflexivity].
      mfwd. eexists. split; [reflexivity |]. simpl. split; [done |]. split; [done |].
      left. exists f. rewrite <- app_assoc. eauto.
    + assert (mark w' = (Throw (PrismaError "P2025"), w')) as Hmark.
      { subst mark. unfold at_site. rewrite Hfault. mfwd. simpl. rewrite Hf. mfwd.
        reflexivity. }
      erewrite bind_ok; [| erewrite try_catch_throw; [| exact Hmark]; mfwd; reflexivity].
      mfwd. eexists. split; [reflexivity |]. simpl. split; [done |]. split; [done |].
      right. exists (PrismaError "P2025"). rewrite <- app_assoc. eauto 10.
Qed.

(** Inversion of a run with any outcome, one construct at a time. *)
Ltac minv_any H :=
  cbv beta iota zeta in H;
  lazymatch type of H with
  | bind _ _ _ = _ =>
      let a := fresh "a" in
      let w1 := fresh "w" in
      let e1 := fresh "e" in
      let H1 := fresh "Hrun" in
      apply bind_inv in H as [(a & w1 & H1 & H) | (e1 & H & ?)];
      [minv_any H1; minv_any H | minv_any H]
  | try_catch _ _ _ = _ =>
      let a := fresh "a" in
      let w1 := fresh "w" in
      let e1 := fresh "e" in
      let H1 := fresh "Hrun" in
      apply try_catch_inv in H as [(a & H & ?) | (e1 & w1 & H1 & H)];
      [minv_any H | minv_any H1; minv_any H]
  | throw_if ?c _ _ = _ =>
      let Hc := fresh "Hcond" in
      unfold throw_if in H; destruct c eqn:Hc; minv_any H
  | ret _ _ = _ => apply ret_inv in H as [? ?]; simplify_eq
  | throw _ _ = _ => apply throw_inv in H as [? ?]; simplify_eq
  | gets _ _ = _ => apply gets_inv in H as [? ?]; simplify_eq
  | modify _ _ = _ => apply modify_inv in H as [? ?]; simplify_eq
  | (if ?c then _ else _) _ = _ =>
      let Hc := fresh "Hcond" in destruct c eqn:Hc; minv_any H
  | (match ?x with _ => _ end) _ = _ =>
      let Hx := fresh "Hcase" in destruct x eqn:Hx; minv_any H
  | _ => first [ progress (unfold_prims H); minv_any H | idtac ]
  end.




(** ** Redelivery of a job *)

Lemma run_update (env : WorkerEnv) (site : CallSite) (id : string)
    (upd : PartFile → PartFile) (f : PartFile) (w : World) :
  fault env site = None → partFiles w !! id = Some f →
  at_site env site (partFile_update id upd) w
  = (Ok tt, set_partFiles (<[id := upd f]>) w).
Proof.
  intros Hfault Hf. unfold at_site. rewrite Hfault. mfwd. simpl. rewrite Hf.
  reflexivity.
Qed.

Lemma run_download (env : WorkerEnv) (key : string) (o : StoredObject) (w : World) :
  fault env StorageDownload = None → bunny w !! key = Some o →
  at_site env StorageDownload (downloadStream (Some key)) w = (Ok (so_body o), w).
Proof.
  intros Hfault Ho. unfold at_site. rewrite Hfault. mfwd. simpl. rewrite Ho.
  reflexivity.
Qed.

Lemma run_upload (env : WorkerEnv) (file : MulterFile) (dest : string) (w : World) :
  fault env StorageUpload = None →
  at_site env StorageUpload (uploadPrivate file dest) w
  = (Ok tt, set_bunny (<[dest := {| so_zone := PrivateZone; so_body := buffer file;
                                    so_mimetype := mimetype file |}]>) w).
Proof. intros Hfault. unfold at_site. rewrite Hfault. reflexivity. Qed.

(** A run of the [try] block in which every step up to 8 succeeds and the
    delete of step 9 is refused by the storage. *)
Lemma processJob_run (env : WorkerEnv) (jobId : string) (data : PdfJobData)
    (w : World) (key : string) (f : PartFile) (o : StoredObject)
    (pdfBytes out : bytes) (doc : PdfDoc) (err : Error) :
  let id := partFileId data in
  let dest := PdfWorker.destinationPathOf id in
  sourceKey data = Some key →
  fault env DbStep1 = None → partFiles w !! id = Some f →
  fault env StorageDownload = None → bunny w !! key = Some o →
  normalized env data (so_body o) = Ok pdfBytes →
  PDFDocument_load env pdfBytes = Ok doc →
  embedFont env HelveticaBold = Ok tt → embedFont env Helvetica = Ok tt →
  PDFDocument_save env (map (PdfWorker.watermarkPage env) doc) = Ok out →
  fault env StorageUpload = None → fault env DbStep8 = None →
  fault env StorageDelete = Some err →
  ∃ w1, PdfWorker.processJob env jobId data w = (Ok tt, w1) ∧
        partFiles w1
        = <[id := set_completed dest (job_title data) (Z.of_nat (length doc))
                    (set_renderStatus PROCESSING f)]> (partFiles w) ∧
        bunny w1 = <[dest := secured_object out]> (bunny w).
Proof.
  intros id dest Hkey H1 Hf H2 Ho Hnorm Hload Hfont1 Hfont2 Hsave H7 H8 H9.
  unfold PdfWorker.processJob, PdfWorker.logWorkerError. cbv zeta. fold id dest.
  rewrite Hkey.
  erewrite bind_ok; [| by apply run_update].
  erewrite bind_ok; [| erewrite try_catch_ok; [reflexivity | by apply run_download]].
  erewrite bind_ok.
  2: { unfold normalized in Hnorm. destruct (negb _).
       - rewrite Hnorm. reflexivity.
       - injection Hnorm as <-. reflexivity. }
  unfold lift_result. rewrite Hload. mfwd. rewrite Hfont1. mfwd. rewrite Hfont2. mfwd.
  rewrite Hsave. mfwd.
  erewrite bind_ok; [| erewrite try_catch_ok; [reflexivity | by apply run_upload]].
  erewrite bind_ok.
  2: { erewrite try_catch_ok; [reflexivity |]. apply run_update; [done |].
       simpl. apply lookup_insert_eq. }
  erewrite try_catch_throw; [| unfold at_site; rewrite H9; reflexivity].
  mfwd. eexists. split; [reflexivity |]. simpl.
  split; [by rewrite insert_insert_eq | done].
Qed.

(** What a run of the [try] block that ended normally has done. *)
Lemma processJob_ok_inv (env : WorkerEnv) (jobId : string) (data : PdfJobData)
    (w w1 : World) (key : string) :
  let id := partFileId data in
  let dest := PdfWorker.destinationPathOf id in
  PdfWorker.processJob env jobId data w = (Ok tt, w1) →
  sourceKey data = Some key →
  ∃ f o pdfBytes doc out,
    fault env DbStep1 = None ∧ partFiles w !! id = Some f ∧
    fault env StorageDownload = None ∧ bunny w !! key = Some o ∧
    normalized env data (so_body o) = Ok pdfBytes ∧
    PDFDocument_load env pdfBytes = Ok doc ∧
    embedFont env HelveticaBold = Ok tt ∧ embedFont env Helvetica = Ok tt ∧
    PDFDocument_save env (map (PdfWorker.watermarkPage env) doc) = Ok out ∧
    fault env StorageUpload = None ∧ fault env DbStep8 = None ∧
    partFiles w1
    = <[id := set_completed dest (job_title data) (Z.of_nat (length doc))
                (set_renderStatus PROCESSING f)]> (partFiles w) ∧
    (bunny w1 = delete key (<[dest := secured_object out]> (bunny w))
     ∨ (bunny w1 = <[dest := secured_object out]> (bunny w) ∧
        (is_Some (fault env StorageDelete)
         ∨ (<[dest := secured_object out]> (bunny w)) !! key = None))).
Proof.
  intros id dest Hrun Hkey.
  unfold PdfWorker.processJob, PdfWorker.logWorkerError in Hrun.
  rewrite Hkey in Hrun. fold id dest in Hrun.
  minv_any Hrun.
  all: simpl in *.
  all: repeat match goal with u : unit |- _ => destruct u end.
  all: repeat match goal with
         | H : <[?i := _]> _ !! ?i = Some _ |- _ =>
             rewrite lookup_insert_eq in H; injection H as <-
         end.
  all: try match goal with
         | H : _ ≫= _ = Some _ |- _ =>
             apply bind_Some in H as (? & ? & ?); simplify_eq
         end.
  all: try match goal with
         | H : _ ≫= _ = None |- _ =>
             apply bind_None in H as [H | (? & ? & ?)]; [| discriminate]
         end.
  all: eexists _, _, _, _, _.
  all: unfold normalized; rewrite ?Hcond; rewrite ?insert_insert_eq.
  all: repeat (split; [first [eassumption | reflexivity] |]).
  all: first [ left; reflexivity
             | right; split; [reflexivity |];
               first [ left; solve [eauto] | right; eassumption ] ].
Qed.

Lemma smokeTest_frame (env : WorkerEnv) (w : World) :
  partFiles (exec (PdfWorker.smokeTest env) w) = partFiles w ∧
  bunny (exec (PdfWorker.smokeTest env) w) = bunny w.
Proof. unfold PdfWorker.smokeTest, exec. by destruct (sofficeAvailable env). Qed.

Lemma pdfWorker_ok_inv (env : WorkerEnv) (job_id : option string) (data : PdfJobData)
    (w w1 : World) :
  PdfWorker.pdfWorker env job_id data w = (Ok tt, w1) →
  PdfWorker.processJob env (default "unknown" job_id) data
    (exec (PdfWorker.smokeTest env) w) = (Ok tt, w1).
Proof.
  intros Hrun. unfold PdfWorker.pdfWorker in Hrun.
  apply bind_Ok_inv in Hrun as (u & w0 & Hsmoke & Hrun).
  rewrite smokeTest_ok in Hsmoke. injection Hsmoke as _ <-.
  apply try_catch_inv in Hrun as [([] & Hrun & _) | (e & wf & _ & Hfail)]; [done |].
  destruct (onFailure_run env (default "unknown" job_id) data e wf) as (? & Hf & _).
  rewrite Hf in Hfail. discriminate.
Qed.

(** C5, as amended: when a job ran to the end and its staged source is
    still in storage afterwards (the delete of step 9 did not remove it),
    running the same job again with the same collaborators ends normally
    and leaves every asset row and every stored object as the first run
    left them; the asset of the job is COMPLETED. *)
Theorem pdfWorker_redelivery_with_staged_source
    (env : WorkerEnv) (job_id : option string) (data : PdfJobData)
    (w w1 : World) (key : string) :
  PdfWorker.pdfWorker env job_id data w = (Ok tt, w1) →
  sourceKey data = Some key →
  key ≠ PdfWorker.destinationPathOf (partFileId data) →
  is_Some (bunny w1 !! key) →
  ∃ w2, PdfWorker.pdfWorker env job_id data w1 = (Ok tt, w2) ∧
        partFiles w2 = partFiles w1 ∧ bunny w2 = bunny w1 ∧
        (pf_renderStatus <$> partFiles w2 !! partFileId data) = Some COMPLETED.
Proof.
  intros Hrun Hkey Hne Hstaged.
  apply pdfWorker_ok_inv in Hrun.
  destruct (processJob_ok_inv _ _ _ _ _ key Hrun Hkey)
    as (f & o & pdfBytes & doc & out & H1 & Hf & H2 & Ho & Hnorm & Hload & Hfont1
        & Hfont2 & Hsave & H7 & H8 & Hpf & Hbunny).
  set (id := partFileId data) in *.
  set (dest := PdfWorker.destinationPathOf id) in *.
  assert (bunny w1 = <[dest := secured_object out]> (bunny (exec (PdfWorker.smokeTest env) w))
          ∧ ∃ err, fault env StorageDelete = Some err) as [Hkept [err H9]].
  { destruct Hbunny as [Hdel | (Hkept & [[err Herr] | Hmissing])].
    - rewrite Hdel, lookup_delete_eq in Hstaged. by destruct Hstaged.
    - eauto.
    - rewrite Hkept, Hmissing in Hstaged. by destruct Hstaged. }
  set (fc := set_completed dest (job_title data) (Z.of_nat (length doc))
               (set_renderStatus PROCESSING f)) in *.
  destruct (smokeTest_frame env w1) as [Hpf' Hbunny'].
  destruct (processJob_run env (default "unknown" job_id) data
              (exec (PdfWorker.smokeTest env) w1) key fc o pdfBytes out doc err)
    as (w2 & Hrun2 & Hpf2 & Hbunny2); try done.
  { rewrite Hpf', Hpf. apply lookup_insert_eq. }
  { rewrite Hbunny', Hkept. by rewrite lookup_insert_ne. }
  exists w2. split.
  { unfold PdfWorker.pdfWorker.
    rewrite (bind_ok _ _ _ _ _ (smokeTest_ok env w1)).
    by rewrite (try_catch_ok _ _ _ _ _ Hrun2). }
  fold id dest in Hpf2, Hbunny2.
  assert (partFiles w2 = partFiles w1) as Hsame.
  { rewrite Hpf2, Hpf', Hpf. by rewrite insert_insert_eq. }
  split; [done |].
  split; [rewrite Hbunny2, Hbunny', Hkept; by rewrite insert_insert_eq |].
  rewrite Hsame, Hpf. by rewrite lookup_insert_eq.
Qed.

(** C5, counterexample: the job of the uploaded lecture runs to the end and
    the asset is COMPLETED; step 9 has deleted the staged source, so the
    same job delivered again fails at the download, the asset is set to
    FAILED and the error is raised. *)
Lemma redelivery_after_cleanup_marks_failed :
  PdfWorker.pdfWorker healthy_env (Some "1") notes_job lesson_uploaded
  = (Ok tt, lesson_completed) ∧
  (pf_renderStatus <$> partFiles lesson_completed !! "f1") = Some COMPLETED ∧
  fst (PdfWorker.pdfWorker healthy_env (Some "1") notes_job lesson_completed)
  = Throw (StorageError "download" notes_source_key) ∧
  (pf_renderStatus <$> partFiles lesson_redelivered !! "f1") = Some FAILED ∧
  ¬ redelivery_equivalent healthy_env (Some "1") notes_job lesson_completed.
Proof.
  split; [vm_compute; reflexivity |].
  split; [vm_compute; reflexivity |].
  split; [vm_compute; reflexivity |].
  split; [vm_compute; reflexivity |].
  intros (w' & Hrun & _). apply (f_equal fst) in Hrun.
  vm_compute in Hrun. discriminate.
Qed.

Lemma pdfWorker_redelivery_with_staged_source_witness :
  PdfWorker.pdfWorker keep_source_env (Some "1") notes_job lesson_uploaded
  = (Ok tt, lesson_completed_source_kept) ∧
  sourceKey notes_job = Some notes_source_key ∧
  notes_source_key ≠ PdfWorker.destinationPathOf (partFileId notes_job) ∧
  is_Some (bunny lesson_completed_source_kept !! notes_source_key) ∧
  ∃ w2, PdfWorker.pdfWorker keep_source_env (Some "1") notes_job
          lesson_completed_source_kept = (Ok tt, w2) ∧
        partFiles w2 = partFiles lesson_completed_source_kept ∧
        bunny w2 = bunny lesson_completed_source_kept ∧
        (pf_renderStatus <$> partFiles w2 !! partFileId notes_job) = Some COMPLETED.
Proof.
  assert (PdfWorker.pdfWorker keep_source_env (Some "1") notes_job lesson_uploaded
          = (Ok tt, lesson_completed_source_kept)) as Hrun
    by (vm_compute; reflexivity).
  assert (notes_source_key ≠ PdfWorker.destinationPathOf (partFileId notes_job)) as Hne
    by (vm_compute; discriminate).
  assert (is_Some (bunny lesson_completed_source_kept !! notes_source_key)) as Hstaged
    by (vm_compute; eauto).
  split; [exact Hrun |]. split; [reflexivity |]. split; [exact Hne |].
  split; [exact Hstaged |].
  exact (pdfWorker_redelivery_with_staged_source keep_source_env (Some "1") notes_job
           lesson_uploaded lesson_completed_source_kept notes_source_key
           Hrun eq_refl Hne Hstaged).
Defined.

(** ** Storage key and render status *)

Lemma lesson_uploaded_reachable (b : Backend) : reachable b lesson_uploaded.
Proof.
  apply (reachable_step b campus
           (OpUploadLessonPdf "instructor-1" "part-1" pdf_file (Some "Notes")
              (Some (SecBool true)) "f1")); [| done].
  apply reachable_initial, campus_initial.
Qed.

Lemma lesson_completed_reachable (b : Backend) : reachable b lesson_completed.
Proof.
  apply (reachable_step b lesson_uploaded (OpWorker healthy_env (Some "1") notes_job));
    [apply lesson_uploaded_reachable |].
  exists "watermark-pdf".
  assert (pdfQueue lesson_uploaded = [("watermark-pdf", notes_job)]) as ->
    by (vm_compute; reflexivity).
  left.
Qed.

Lemma lesson_redelivered_reachable (b : Backend) : reachable b lesson_redelivered.
Proof.
  apply (reachable_step b lesson_completed (OpWorker healthy_env (Some "1") notes_job));
    [apply lesson_completed_reachable |].
  exists "watermark-pdf".
  assert (pdfQueue lesson_completed = [("watermark-pdf", notes_job)]) as ->
    by (vm_compute; reflexivity).
  left.
Qed.

Lemma redelivered_row_stored : partFiles lesson_redelivered !! "f1" = Some redelivered_row.
Proof. vm_compute. reflexivity. Qed.

Lemma uploaded_row_stored : partFiles lesson_uploaded !! "f1" = Some uploaded_row.
Proof. vm_compute. reflexivity. Qed.

(** C4, counterexample: after the redelivery of the lecture's job the asset
    row is FAILED and still carries the storage key [/secured/f1.pdf]. *)
Lemma storage_key_outlives_completed :
  reachable InMemorySessions lesson_redelivered ∧
  partFiles lesson_redelivered !! "f1" = Some redelivered_row ∧
  pf_storageKey redelivered_row = "/secured/f1.pdf" ∧
  pf_renderStatus redelivered_row = FAILED ∧
  ¬ (∀ (b : Backend) (w : World) (id : string) (f : PartFile),
       reachable b w → partFiles w !! id = Some f → key_iff_completed f).
Proof.
  split; [apply lesson_redelivered_reachable |].
  split; [exact redelivered_row_stored |].
  split; [reflexivity |]. split; [reflexivity |].
  intros Hclaim.
  pose proof (Hclaim InMemorySessions lesson_redelivered "f1" redelivered_row
                (lesson_redelivered_reachable _) redelivered_row_stored) as [Hkey _].
  assert (pf_renderStatus redelivered_row = COMPLETED) as Hst
    by (apply Hkey; vm_compute; discriminate).
  discriminate Hst.
Qed.

(** The asset rows after a run of the [try] block: nothing written, the
    row of the job set to PROCESSING (the run raised), or that row set to
    COMPLETED with the destination key (the run ended normally). *)
Lemma processJob_rows (env : WorkerEnv) (jobId : string) (data : PdfJobData)
    (w w1 : World) (r : Result unit) :
  let id := partFileId data in
  let dest := PdfWorker.destinationPathOf id in
  PdfWorker.processJob env jobId data w = (r, w1) →
  (r ≠ Ok tt ∧
   (partFiles w1 = partFiles w
    ∨ ∃ f, partFiles w !! id = Some f ∧
           partFiles w1 = <[id := set_renderStatus PROCESSING f]> (partFiles w)))
  ∨ (r = Ok tt ∧
     ∃ f title n, partFiles w !! id = Some f ∧
       partFiles w1
       = <[id := set_completed dest title n (set_renderStatus PROCESSING f)]> (partFiles w)).
Proof.
  intros id dest Hrun.
  unfold PdfWorker.processJob, PdfWorker.logWorkerError in Hrun.
  fold id dest in Hrun.
  minv_any Hrun.
  all: simpl in *.
  all: repeat match goal with u : unit |- _ => destruct u end.
  all: repeat match goal with
         | H : <[?i := _]> _ !! ?i = Some _ |- _ =>
             rewrite lookup_insert_eq in H; injection H as <-
         | H : <[?i := _]> _ !! ?i = None |- _ =>
             rewrite lookup_insert_eq in H; discriminate H
         end.
  all: rewrite ?insert_insert_eq.
  all: first [ left; split; [discriminate |];
               first [ left; reflexivity
                     | right; eexists; split; [first [eassumption | reflexivity] | reflexivity] ]
             | right; split; [reflexivity |]; eexists _, _, _;
               split; [first [eassumption | reflexivity] | reflexivity] ].
Qed.

(** The asset rows after a run of the processor. *)
Lemma pdfWorker_rows (env : WorkerEnv) (job_id : option string) (data : PdfJobData)
    (w : World) :
  let id := partFileId data in
  let w' := exec (PdfWorker.pdfWorker env job_id data) w in
  partFiles w' = partFiles w
  ∨ ∃ f f', partFiles w !! id = Some f ∧ partFiles w' = <[id := f']> (partFiles w) ∧
      ((pf_storageKey f' = pf_storageKey f ∧ pf_renderStatus f' ≠ COMPLETED)
       ∨ (pf_storageKey f' = PdfWorker.destinationPathOf id
          ∧ pf_renderStatus f' = COMPLETED)).
Proof.
  intros id w'. subst w'. unfold exec, PdfWorker.pdfWorker.
  erewrite bind_ok by apply smokeTest_ok.
  destruct (smokeTest_frame env w) as [Hrows0 _].
  set (w0 := exec (PdfWorker.smokeTest env) w) in *.
  set (jobId := default "unknown" job_id).
  destruct (PdfWorker.processJob env jobId data w0) as [r w1] eqn:Hrun.
  destruct (processJob_rows _ _ _ _ _ _ Hrun)
    as [[Hr Hrows] | [-> (f & title & n & Hf & Hrows)]].
  - destruct r as [[] | e]; [done |].
    erewrite try_catch_throw by exact Hrun.
    destruct (onFailure_run env jobId data e w1) as (w2 & -> & _ & _ & Hmark).
    simpl. fold id in Hrows, Hmark. rewrite Hrows0 in Hrows.
    destruct Hmark as [(f1 & _ & Hf1 & -> & _) | (dbError & _ & -> & _)],
          Hrows as [Hrows | (f & Hf & Hrows)]; rewrite Hrows in *.
    + right. exists f1, (set_renderStatus FAILED f1). by eauto 10.
    + rewrite lookup_insert_eq in Hf1. injection Hf1 as <-.
      rewrite insert_insert_eq.
      right. exists f, (set_renderStatus FAILED (set_renderStatus PROCESSING f)).
      by eauto 10.
    + by left.
    + right. exists f, (set_renderStatus PROCESSING f). by eauto 10.
  - erewrite try_catch_ok by exact Hrun. simpl.
    fold id in Hf, Hrows. rewrite Hrows0 in Hf, Hrows. rewrite Hrows.
    right. eexists f, _. split; [exact Hf |]. split; [reflexivity |].
    right. by split.
Qed.

Lemma pdfWorker_key_iff (env : WorkerEnv) (job_id : option string) (data : PdfJobData)
    (w : World) (id : string) (f' : PartFile) :
  (∀ f, partFiles w !! id = Some f → key_iff_completed f) →
  (partFileId data = id → ∀ f, partFiles w !! id = Some f → pf_storageKey f = "") →
  partFiles (exec (PdfWorker.pdfWorker env job_id data) w) !! id = Some f' →
  key_iff_completed f'.
Proof.
  intros Hiff Hfirst Hf'.
  destruct (pdfWorker_rows env job_id data w)
    as [Hrows | (f & g & Hf & Hrows & Hg)]; rewrite Hrows in Hf'.
  - by apply Hiff.
  - destruct (decide (partFileId data = id)) as [Heq | Hne].
    + subst id. rewrite lookup_insert_eq in Hf'. injection Hf' as <-.
      pose proof (Hfirst eq_refl f Hf) as Hkey.
      destruct Hg as [[Hk Hst] | [Hk Hst]]; unfold key_iff_completed.
      * rewrite Hk, Hkey. split; [done | by intros Hc].
      * rewrite Hk, Hst. split; [done | intros _; apply destinationPathOf_nonempty].
    + rewrite lookup_insert_ne in Hf' by done. by apply Hiff.
Qed.

Lemma key_iff_completed_pending (f : PartFile) :
  pf_storageKey f = "" → pf_renderStatus f = PROCESSING → key_iff_completed f.
Proof. intros Hkey Hst. unfold key_iff_completed. rewrite Hkey, Hst. by split. Qed.

Lemma key_iff_completed_public (f : PartFile) (a : string) :
  pf_storageKey f = "/public/" +:+ a → pf_renderStatus f = COMPLETED →
  key_iff_completed f.
Proof.
  intros Hkey Hst. unfold key_iff_completed. rewrite Hkey, Hst.
  split; [done | intros _; apply public_key_nonempty].
Qed.

(** C4, as amended: in every reachable state a COMPLETED asset row has a
    non-empty storage key.  The converse is established when a row is
    created and kept by every operation except a run of the worker for an
    asset that already has a storage key: from any state, after an
    operation that is not such a re-run, an asset whose row (if it had one)
    had a non-empty key exactly when COMPLETED still has. *)
Theorem storage_key_iff_completed_until_rerun (b : Backend) (w : World) :
  reachable b w →
  (∀ id f, partFiles w !! id = Some f →
           pf_renderStatus f = COMPLETED → pf_storageKey f ≠ "") ∧
  (∀ op id f',
     no_rerun op id w →
     (∀ f, partFiles w !! id = Some f → key_iff_completed f) →
     partFiles (runOp op w) !! id = Some f' →
     key_iff_completed f').
Proof.
  intros Hreach. split.
  - intros id f Hf. by destruct (reachable_assets_ok b w Hreach id f Hf).
  - intros op id f' Hop Hiff Hf'.
    assert ((∀ env job_id data, op ≠ OpWorker env job_id data) →
            key_iff_completed f') as Hingestion.
    { intros Hop'.
      apply (rows_ok_ingestion (λ id' f, id' = id → key_iff_completed f))
        with (op := op) (w := w) (id := id); [| | exact Hop' | | exact Hf' | done].
      - intros f Hk Hs _ _. by apply key_iff_completed_pending.
      - intros f a Hk Hs _. by eapply key_iff_completed_public.
      - intros id' f Hf <-. by apply Hiff. }
    destruct op; try (by apply Hingestion).
    simpl in Hop, Hf'. by eapply pdfWorker_key_iff.
Qed.

Lemma storage_key_iff_completed_until_rerun_witness :
  reachable RedisSessions lesson_uploaded ∧
  (∀ id f, partFiles lesson_uploaded !! id = Some f →
           pf_renderStatus f = COMPLETED → pf_storageKey f ≠ "") ∧
  (∀ op id f',
     no_rerun op id lesson_uploaded →
     (∀ f, partFiles lesson_uploaded !! id = Some f → key_iff_completed f) →
     partFiles (runOp op lesson_uploaded) !! id = Some f' →
     key_iff_completed f').
Proof.
  split; [apply lesson_uploaded_reachable |].
  exact (storage_key_iff_completed_until_rerun RedisSessions lesson_uploaded
           (lesson_uploaded_reachable _)).
Defined.

(** ** Reading an asset that is not rendered *)

Lemma lookupWithAccess_run (caller id : string) (w w' : World)
    (r : Result (PartFile * option Enrollment * bool * bool)) :
  UploadService.lookupWithAccess caller id w = (r, w') →
  w' = w ∧
  match r with
  | Ok t => partFiles w !! id = Some t.1.1.1
  | Throw e => e ≠ processing_error
  end.
Proof.
  unfold UploadService.lookupWithAccess. intros Hrun. minv_any Hrun.
  all: try (split; [reflexivity | done]).
Qed.

Lemma checkPartAccessWithLocks_run (caller pid : string) (eid : option string)
    (w w' : World) (r : Result unit) :
  UploadService.checkPartAccessWithLocks caller pid eid w = (r, w') →
  w' = w ∧ ∀ e, r = Throw e → e ≠ processing_error.
Proof.
  unfold UploadService.checkPartAccessWithLocks. intros Hrun. minv_any Hrun.
  all: split; [reflexivity | first [done | by intros e' [= <-]]].
Qed.

(** The steps of [getRenderedPage] after the access check [m], for an asset
    without pages: the bounds check raises 404 unless [m] raised first. *)
Lemma bounds_check_after_lock_check {A B} (m : M unit) (pdf : M A) (png : M B)
    (pageNumber : JsInt) (pageCount : Z) (w : World) :
  (∀ r w', m w = (r, w') → w' = w ∧ ∀ e, r = Throw e → e ≠ processing_error) →
  page_out_of_range pageNumber pageCount = true →
  fst ((m ;;; pdf) w) = Throw processing_error →
  fst ((m ;;; throw_if (page_out_of_range pageNumber pageCount)
                (AppError "Page not found" 404) ;;; png) w)
  = Throw (AppError "Page not found" 404).
Proof.
  intros Hm Hrange Hlocked.
  destruct (m w) as [[[] | e] w1] eqn:Hlock;
    specialize (Hm _ _ eq_refl).
  - destruct Hm as [-> _].
    erewrite bind_ok by exact Hlock.
    rewrite bind_throw_if, Hrange. reflexivity.
  - destruct Hm as [_ Hother].
    erewrite bind_throw in Hlocked by exact Hlock.
    simpl in Hlocked. injection Hlocked as ->.
    destruct (Hother _ eq_refl eq_refl).
Qed.

(** C10, counterexample: after the redelivery the lecture's asset is FAILED
    with page count 4; [getSecurePdf] answers 423 and [getRenderedPage]
    passes the bounds check for page 1 and fails at the storage download. *)
Lemma rendered_page_of_failed_asset_is_not_404 :
  reachable InMemorySessions lesson_redelivered ∧
  partFiles lesson_redelivered !! "f1" = Some redelivered_row ∧
  pf_renderStatus redelivered_row = FAILED ∧
  pf_pageCount redelivered_row = 4 ∧
  fst (UploadService.getSecurePdf "instructor-1" "f1" lesson_redelivered)
  = Throw processing_error ∧
  fst (UploadService.getRenderedPage "instructor-1" "f1" (Int 1) lesson_redelivered)
  = Throw (StorageError "download" "/secured/f1.pdf/page-1.png") ∧
  ¬ (∀ (b : Backend) (w : World) (id caller : string),
       reachable b w →
       fst (UploadService.getSecurePdf caller id w) = Throw processing_error →
       unrendered_page_not_found w id caller).
Proof.
  assert (fst (UploadService.getSecurePdf "instructor-1" "f1" lesson_redelivered)
          = Throw processing_error) as Hlocked by (vm_compute; reflexivity).
  split; [apply lesson_redelivered_reachable |].
  split; [exact redelivered_row_stored |].
  split; [reflexivity |]. split; [reflexivity |].
  split; [exact Hlocked |]. split; [vm_compute; reflexivity |].
  intros Hclaim.
  destruct (Hclaim InMemorySessions lesson_redelivered "f1" "instructor-1"
              (lesson_redelivered_reachable _) Hlocked
              redelivered_row redelivered_row_stored) as [Hcount _];
    [discriminate |].
  vm_compute in Hcount. discriminate Hcount.
Qed.

(** C10, as amended: in every reachable state, for an asset whose storage
    key is still empty, the render status is not COMPLETED and the page
    count is 0; a caller to whom [getSecurePdf] answers 423 "Document is
    processing" gets 404 "Page not found" from [getRenderedPage] for every
    page number from 1. *)
Theorem getRenderedPage_not_found_before_first_render
    (b : Backend) (w : World) (id caller : string) (f : PartFile) (page : Z) :
  reachable b w → partFiles w !! id = Some f → pf_storageKey f = "" →
  1 ≤ page →
  fst (UploadService.getSecurePdf caller id w) = Throw processing_error →
  pf_renderStatus f ≠ COMPLETED ∧ pf_pageCount f = 0 ∧
  fst (UploadService.getRenderedPage caller id (Int page) w)
  = Throw (AppError "Page not found" 404).
Proof.
  intros Hreach Hf Hkey Hpage Hlocked.
  destruct (reachable_assets_ok b w Hreach id f Hf) as [_ Hempty].
  destruct (Hempty Hkey) as [Hcount Hstatus].
  split; [exact Hstatus |]. split; [exact Hcount |].
  unfold UploadService.getSecurePdf in Hlocked.
  unfold UploadService.getRenderedPage.
  destruct (UploadService.lookupWithAccess caller id w) as [[t | e] w1] eqn:Hlookup.
  - destruct (lookupWithAccess_run _ _ _ _ _ Hlookup) as [-> Hrow].
    destruct t as [[[partFile enrollment] isInstructor] isAdmin]. simpl in Hrow.
    assert (partFile = f) as -> by congruence.
    erewrite bind_ok in Hlocked by exact Hlookup.
    erewrite bind_ok by exact Hlookup.
    cbv beta iota zeta in Hlocked |- *.
    eapply bounds_check_after_lock_check; [| | exact Hlocked].
    + intros r w'. destruct enrollment as [e0 |];
        [destruct (negb isInstructor && negb isAdmin) |].
      * apply checkPartAccessWithLocks_run.
      * rewrite run_ret. by intros [= <- <-].
      * rewrite run_ret. by intros [= <- <-].
    + unfold page_out_of_range. rewrite Hcount.
      apply orb_true_iff. right. apply Z.ltb_lt. lia.
  - destruct (lookupWithAccess_run _ _ _ _ _ Hlookup) as [_ Hother].
    erewrite bind_throw in Hlocked by exact Hlookup.
    simpl in Hlocked. injection Hlocked as ->. done.
Qed.

Lemma getRenderedPage_not_found_before_first_render_witness :
  reachable InMemorySessions lesson_uploaded ∧
  partFiles lesson_uploaded !! "f1" = Some uploaded_row ∧
  pf_storageKey uploaded_row = "" ∧
  1 ≤ 1 ∧
  fst (UploadService.getSecurePdf "student-1" "f1" lesson_uploaded) = Throw processing_error ∧
  pf_renderStatus uploaded_row ≠ COMPLETED ∧ pf_pageCount uploaded_row = 0 ∧
  fst (UploadService.getRenderedPage "student-1" "f1" (Int 1) lesson_uploaded)
  = Throw (AppError "Page not found" 404).
Proof.
  assert (fst (UploadService.getSecurePdf "student-1" "f1" lesson_uploaded)
          = Throw processing_error) as Hlocked by (vm_compute; reflexivity).
  split; [apply lesson_uploaded_reachable |].
  split; [exact uploaded_row_stored |].
  split; [reflexivity |]. split; [lia |]. split; [exact Hlocked |].
  exact (getRenderedPage_not_found_before_first_render InMemorySessions lesson_uploaded
           "f1" "student-1" uploaded_row 1 (lesson_uploaded_reachable _)
           uploaded_row_stored eq_refl ltac:(lia) Hlocked).
Defined.

(** * Further properties of the services *)

(** ** Scratch file names *)

(** X1: the chunk files of two different indices have different names,
    also beyond the five padded digits, and no chunk file is named like the
    assembled file. *)
Theorem chunk_files_do_not_collide (i j : Z) :
  0 ≤ i → 0 ≤ j → i ≠ j →
  chunkName i ≠ chunkName j ∧ chunkName i ≠ "assembled".
Proof.
  intros Hi Hj Hne. split; [| apply chunkName_not_assembled].
  intros Heq. by apply Hne, chunkName_inj.
Qed.

Lemma chunk_files_do_not_collide_witness :
  0 ≤ 7 ∧ 0 ≤ 123456 ∧ 7 ≠ 123456 ∧
  chunkName 7 ≠ chunkName 123456 ∧ chunkName 7 ≠ "assembled".
Proof.
  split; [lia |]. split; [lia |]. split; [lia |].
  apply (chunk_files_do_not_collide 7 123456); lia.
Defined.

(** ** Starting an upload *)

(** X2: a declaration that [initUpload] accepts is consistent: the size is
    within the limit, the chunks of 5 MiB cover it with a non-empty last
    chunk, there are at most 100 of them, and the new session, owned by the
    caller, has received nothing and has its scratch directory.  Both
    services. *)
Theorem initUpload_accepts_consistent_declaration
    (w w0 : World) (caller : string) (input : InitUploadInput) (uuid id : string)
    (now : Z) :
  ChunkedUploadService.initUpload caller input uuid now w = (Ok id, w0)
  ∨ RedisChunkedUploadService.initUpload caller input uuid now w = (Ok id, w0) →
  id = uuid ∧
  in_fileSize input ≤ UPLOAD_LIMITS.MAX_TOTAL_FILE ∧
  (in_totalChunks input - 1) * UPLOAD_LIMITS.CHUNK < in_fileSize input
    ≤ in_totalChunks input * UPLOAD_LIMITS.CHUNK ∧
  in_totalChunks input ≤ 100 ∧
  is_Some (scratch w0 !! tempDirOf uuid) ∧
  ((receivedChunks <$> uploadSessions w0 !! uuid) = Some ∅ ∧
   (userId <$> uploadSessions w0 !! uuid) = Some caller
   ∨ (r_receivedChunks <$> redis w0 !! RedisChunkedUploadService.getRedisKey uuid) = Some [] ∧
     (r_userId <$> redis w0 !! RedisChunkedUploadService.getRedisKey uuid) = Some caller).
Proof.
  intros Hrun.
  assert (id = uuid ∧ in_fileSize input ≤ UPLOAD_LIMITS.MAX_TOTAL_FILE ∧
          in_totalChunks input = ceilDiv (in_fileSize input) UPLOAD_LIMITS.CHUNK ∧
          is_Some (scratch w0 !! tempDirOf uuid) ∧
          ((receivedChunks <$> uploadSessions w0 !! uuid) = Some ∅ ∧
           (userId <$> uploadSessions w0 !! uuid) = Some caller
           ∨ (r_receivedChunks <$> redis w0 !! RedisChunkedUploadService.getRedisKey uuid)
             = Some [] ∧
             (r_userId <$> redis w0 !! RedisChunkedUploadService.getRedisKey uuid)
             = Some caller))
    as (Hid & Hsize & Hcount & Hdir & Hsession).
  { destruct Hrun as [Hrun | Hrun].
    - apply initUpload_run in Hrun as (? & ? & ? & _ & [d Hd] & Hs).
      repeat (split; [by eauto |]). left. by rewrite Hs.
    - apply redis_initUpload_run in Hrun as (? & ? & ? & _ & [d Hd] & Hs).
      repeat (split; [by eauto |]). right. by rewrite Hs. }
  symmetry in Hcount. apply ceilDiv_spec in Hcount; [| done].
  repeat (split; [done |]). split; [| done].
  unfold UPLOAD_LIMITS.MAX_TOTAL_FILE, UPLOAD_LIMITS.CHUNK in *. lia.
Qed.

Lemma initUpload_accepts_consistent_declaration_witness :
  (ChunkedUploadService.initUpload "instructor-1" init_small_docx "u1" 0 campus
   = (Ok "u1", small_docx_open)
   ∨ RedisChunkedUploadService.initUpload "instructor-1" init_small_docx "u1" 0 campus
     = (Ok "u1", small_docx_open)) ∧
  "u1" = "u1" ∧
  in_fileSize init_small_docx ≤ UPLOAD_LIMITS.MAX_TOTAL_FILE ∧
  (in_totalChunks init_small_docx - 1) * UPLOAD_LIMITS.CHUNK < in_fileSize init_small_docx
    ≤ in_totalChunks init_small_docx * UPLOAD_LIMITS.CHUNK ∧
  in_totalChunks init_small_docx ≤ 100 ∧
  is_Some (scratch small_docx_open !! tempDirOf "u1") ∧
  ((receivedChunks <$> uploadSessions small_docx_open !! "u1") = Some ∅ ∧
   (userId <$> uploadSessions small_docx_open !! "u1") = Some "instructor-1"
   ∨ (r_receivedChunks <$> redis small_docx_open
        !! RedisChunkedUploadService.getRedisKey "u1") = Some [] ∧
     (r_userId <$> redis small_docx_open
        !! RedisChunkedUploadService.getRedisKey "u1") = Some "instructor-1").
Proof.
  assert (ChunkedUploadService.initUpload "instructor-1" init_small_docx "u1" 0 campus
          = (Ok "u1", small_docx_open)) as Hrun by (vm_compute; reflexivity).
  split; [by left |].
  exact (initUpload_accepts_consistent_declaration campus small_docx_open "instructor-1"
           init_small_docx "u1" "u1" 0 (or_introl Hrun)).
Defined.

(** The outcome of [initUpload] once the two size checks have passed and
    the part was found: it only depends on [allowed], the disjunction of
    the role test and the ownership test. *)
Lemma initUpload_gate (w : World) (caller : string) (input : InitUploadInput)
    (uuid : string) (now : Z) (part : Part) :
  in_fileSize input ≤ UPLOAD_LIMITS.MAX_TOTAL_FILE →
  in_totalChunks input = ceilDiv (in_fileSize input) UPLOAD_LIMITS.CHUNK →
  parts w !! in_partId input = Some part →
  let hasRole r := match users w !! caller with
                   | Some u => String.eqb (role u) r
                   | None => false
                   end in
  let isOwner := String.eqb (part_instructorId part) caller in
  (if hasRole "ADMIN" || isOwner
   then fst (ChunkedUploadService.initUpload caller input uuid now w) = Ok uuid
   else ChunkedUploadService.initUpload caller input uuid now w
        = (Throw (AppError "Access denied" 403), w)) ∧
  (if hasRole "INSTRUCTOR" || isOwner
   then fst (RedisChunkedUploadService.initUpload caller input uuid now w) = Ok uuid
   else RedisChunkedUploadService.initUpload caller input uuid now w
        = (Throw (AppError "Access denied" 403), w)).
Proof.
  intros Hsize Hcount Hpart hasRole isOwner.
  apply Z.ltb_ge in Hsize. apply Z.eqb_eq in Hcount.
  unfold ChunkedUploadService.initUpload, RedisChunkedUploadService.initUpload,
    RedisChunkedUploadService.redis_setex.
  rewrite Hsize, Hcount. mfwd. simpl. rewrite Hpart. mfwd. simpl.
  fold (hasRole "ADMIN") (hasRole "INSTRUCTOR") isOwner.
  split.
  - destruct (hasRole "ADMIN"), isOwner; simpl; mfwd; reflexivity.
  - destruct (hasRole "INSTRUCTOR"), isOwner; simpl; mfwd; reflexivity.
Qed.

(** X3: who may start an upload for a part of somebody else's course.
    The in-memory service admits a caller whose role is ADMIN and turns an
    INSTRUCTOR away with 403; the Redis service admits an INSTRUCTOR and
    turns an ADMIN away; any other role is turned away by both.  A refused
    call changes nothing. *)
Theorem initUpload_role_gate (w : World) (caller : string) (input : InitUploadInput)
    (uuid : string) (now : Z) (part : Part) (u : User) :
  in_fileSize input ≤ UPLOAD_LIMITS.MAX_TOTAL_FILE →
  in_totalChunks input = ceilDiv (in_fileSize input) UPLOAD_LIMITS.CHUNK →
  parts w !! in_partId input = Some part →
  part_instructorId part ≠ caller →
  users w !! caller = Some u →
  let denied := (Throw (AppError "Access denied" 403), w) in
  (role u = "ADMIN" →
   fst (ChunkedUploadService.initUpload caller input uuid now w) = Ok uuid ∧
   RedisChunkedUploadService.initUpload caller input uuid now w = denied) ∧
  (role u = "INSTRUCTOR" →
   ChunkedUploadService.initUpload caller input uuid now w = denied ∧
   fst (RedisChunkedUploadService.initUpload caller input uuid now w) = Ok uuid) ∧
  (role u ≠ "ADMIN" → role u ≠ "INSTRUCTOR" →
   ChunkedUploadService.initUpload caller input uuid now w = denied ∧
   RedisChunkedUploadService.initUpload caller input uuid now w = denied).
Proof.
  intros Hsize Hcount Hpart Hother Hu denied.
  destruct (initUpload_gate w caller input uuid now part Hsize Hcount Hpart)
    as [Hmem Hredis].
  rewrite Hu in Hmem, Hredis.
  apply String.eqb_neq in Hother. rewrite Hother, !orb_false_r in Hmem, Hredis.
  split; [| split].
  - intros Hrole. rewrite Hrole in Hmem, Hredis. by split.
  - intros Hrole. rewrite Hrole in Hmem, Hredis. by split.
  - intros Hadmin Hinstructor.
    apply String.eqb_neq in Hadmin, Hinstructor.
    rewrite Hadmin in Hmem. rewrite Hinstructor in Hredis. by split.
Qed.

Lemma initUpload_role_gate_witness :
  in_fileSize init_small_docx ≤ UPLOAD_LIMITS.MAX_TOTAL_FILE ∧
  in_totalChunks init_small_docx
  = ceilDiv (in_fileSize init_small_docx) UPLOAD_LIMITS.CHUNK ∧
  parts campus_staff !! in_partId init_small_docx
  = Some {| part_courseId := "course-1"; part_instructorId := "instructor-1";
            part_courseIsFree := false |} ∧
  "instructor-1" ≠ "admin-1" ∧
  users campus_staff !! "admin-1" = Some {| role := "ADMIN" |} ∧
  fst (ChunkedUploadService.initUpload "admin-1" init_small_docx "u1" 0 campus_staff)
  = Ok "u1" ∧
  RedisChunkedUploadService.initUpload "admin-1" init_small_docx "u1" 0 campus_staff
  = (Throw (AppError "Access denied" 403), campus_staff).
Proof.
  assert (in_fileSize init_small_docx ≤ UPLOAD_LIMITS.MAX_TOTAL_FILE) as Hsize
    by (vm_compute; discriminate).
  assert ("instructor-1" ≠ "admin-1") as Hother by discriminate.
  split; [exact Hsize |]. split; [reflexivity |]. split; [reflexivity |].
  split; [exact Hother |]. split; [reflexivity |].
  exact (proj1 (initUpload_role_gate campus_staff "admin-1" init_small_docx "u1" 0
                  _ _ Hsize eq_refl eq_refl Hother eq_refl) eq_refl).
Defined.

(** ** Refused requests *)

(** X4: a refused [finalizeUpload] changes nothing, so the session and the
    chunks received so far stay for a retry: 404 for an unknown session,
    403 for any caller but the one who created the session (whatever the
    caller's role), 400 with the received count while chunks are missing.
    Both services. *)
Theorem finalizeUpload_refusal_changes_nothing
    (w : World) (label caller : string) (input : FinalizeUploadInput) (uuid : string) :
  let missing received total :=
    AppError ("Missing chunks. Received " +:+ toString received +:+ "/"
              +:+ toString total) 400 in
  ((uploadSessions w !! f_uploadId input = None →
    ChunkedUploadService.finalizeUpload caller input uuid w
    = (Throw (AppError "Upload session not found or expired" 404), w)) ∧
   (∀ s, uploadSessions w !! f_uploadId input = Some s →
         (userId s ≠ caller →
          ChunkedUploadService.finalizeUpload caller input uuid w
          = (Throw (AppError "Access denied" 403), w)) ∧
         (userId s = caller →
          Z.of_nat (size (receivedChunks s)) ≠ totalChunks s →
          ChunkedUploadService.finalizeUpload caller input uuid w
          = (Throw (missing (Z.of_nat (size (receivedChunks s))) (totalChunks s)), w)))) ∧
  ((redis w !! RedisChunkedUploadService.getRedisKey (f_uploadId input) = None →
    RedisChunkedUploadService.finalizeUpload label caller input uuid w
    = (Throw (AppError "Upload session not found or expired" 404), w)) ∧
   (∀ s, redis w !! RedisChunkedUploadService.getRedisKey (f_uploadId input) = Some s →
         (r_userId s ≠ caller →
          RedisChunkedUploadService.finalizeUpload label caller input uuid w
          = (Throw (AppError "Access denied" 403), w)) ∧
         (r_userId s = caller →
          Z.of_nat (length (r_receivedChunks s)) ≠ r_totalChunks s →
          RedisChunkedUploadService.finalizeUpload label caller input uuid w
          = (Throw (missing (Z.of_nat (length (r_receivedChunks s))) (r_totalChunks s)),
             w)))).
Proof.
  intros missing.
  unfold ChunkedUploadService.finalizeUpload, RedisChunkedUploadService.finalizeUpload,
    RedisChunkedUploadService.redis_get.
  split; (split; [intros Hnone; mfwd; rewrite Hnone; mfwd; reflexivity |]).
  - intros s Hs. mfwd. rewrite Hs. split.
    + intros Hother. apply String.eqb_neq in Hother. rewrite Hother. mfwd. reflexivity.
    + intros Hown Hmiss. apply String.eqb_eq in Hown. apply Z.eqb_neq in Hmiss.
      rewrite Hown, Hmiss. mfwd. reflexivity.
  - intros s Hs. mfwd. rewrite Hs. split.
    + intros Hother. apply String.eqb_neq in Hother. rewrite Hother. mfwd. reflexivity.
    + intros Hown Hmiss. apply String.eqb_eq in Hown. apply Z.eqb_neq in Hmiss.
      rewrite Hown, Hmiss. mfwd. reflexivity.
Qed.

Lemma finalizeUpload_refusal_changes_nothing_witness :
  uploadSessions small_docx_open !! f_uploadId finalize_u1 = Some small_docx_new_session ∧
  userId small_docx_new_session ≠ "admin-1" ∧
  ChunkedUploadService.finalizeUpload "admin-1" finalize_u1 "f1" small_docx_open
  = (Throw (AppError "Access denied" 403), small_docx_open).
Proof.
  assert (userId small_docx_new_session ≠ "admin-1") as Hother by discriminate.
  split; [exact small_docx_new_session_stored |]. split; [exact Hother |].
  exact (proj1 (proj2 (proj1 (finalizeUpload_refusal_changes_nothing small_docx_open
                                "label" "admin-1" finalize_u1 "f1"))
                  small_docx_new_session small_docx_new_session_stored) Hother).
Defined.

(** The number of indices of a set within [0, n). *)
Lemma size_indices_bounds (X : gset Z) (n k : Z) :
  (∀ i, i ∈ X → 0 ≤ i < n) → k ∈ X → 1 ≤ Z.of_nat (size X) ≤ n.
Proof.
  intros Hrange Hk. split.
  - destruct (size X) eqn:Hsize; [| lia].
    apply size_empty_iff in Hsize. by rewrite Hsize in Hk.
  - assert (X ⊆ allIndices n) as Hsub
      by (intros i Hi; apply elem_of_allIndices; auto).
    apply subseteq_size in Hsub. pose proof (size_allIndices n).
    destruct (Hrange k Hk). lia.
Qed.

Lemma index_out_of_range (i n : Z) :
  ¬ 0 ≤ i < n → Z.ltb i 0 || Z.leb n i = true.
Proof.
  intros Hout. destruct (Z.ltb_spec i 0), (Z.leb_spec n i); simpl; try done. lia.
Qed.

Lemma index_in_range (i n : Z) :
  0 ≤ i < n → Z.ltb i 0 || Z.leb n i = false.
Proof.
  intros Hin. destruct (Z.ltb_spec i 0), (Z.leb_spec n i); simpl; try done; lia.
Qed.

(** X5: what [uploadChunk] of the in-memory service answers in a reachable
    state.  An unknown session gives 404, an index outside [0, total) gives
    400, a chunk of more than 5 MiB gives 400, and each refusal changes
    nothing; every other call succeeds, stores the bytes in the slot of the
    index and reports a received count between 1 and the total. *)
Theorem uploadChunk_outcome (w : World) (input : ChunkUploadInput) :
  reachable InMemorySessions w →
  let run := ChunkedUploadService.uploadChunk input w in
  let size := Z.of_nat (length (c_chunk input)) in
  (uploadSessions w !! c_uploadId input = None →
   run = (Throw (AppError "Upload session not found or expired" 404), w)) ∧
  (∀ s, uploadSessions w !! c_uploadId input = Some s →
        (¬ 0 ≤ c_chunkIndex input < totalChunks s →
         run = (Throw (AppError "Invalid chunk index" 400), w)) ∧
        (0 ≤ c_chunkIndex input < totalChunks s → UPLOAD_LIMITS.CHUNK < size →
         run = (Throw (AppError "Chunk too large" 400), w)) ∧
        (0 ≤ c_chunkIndex input < totalChunks s → size ≤ UPLOAD_LIMITS.CHUNK →
         ∃ n w', run = (Ok (n, totalChunks s), w') ∧
                 1 ≤ n ≤ totalChunks s ∧
                 (scratch w' !! tempDir s ≫= (λ d, d !! chunkName (c_chunkIndex input)))
                 = Some (c_chunk input))).
Proof.
  intros Hreach run size. subst run size.
  pose proof (reachable_backend_ok _ _ Hreach) as Hok. simpl in Hok.
  split.
  - intros Hnone. unfold ChunkedUploadService.uploadChunk. mfwd.
    rewrite Hnone. mfwd. reflexivity.
  - intros s Hs. destruct (Hok _ _ Hs) as (_ & _ & d & Hd & Hreceived).
    split; [| split].
    + intros Hout. unfold ChunkedUploadService.uploadChunk. mfwd. rewrite Hs.
      rewrite (index_out_of_range _ _ Hout). mfwd. reflexivity.
    + intros Hin Hlarge. unfold ChunkedUploadService.uploadChunk. mfwd. rewrite Hs.
      rewrite (index_in_range _ _ Hin). apply Z.ltb_lt in Hlarge. rewrite Hlarge.
      mfwd. reflexivity.
    + intros Hin Hsmall.
      rewrite (uploadChunk_run w s input d Hs Hd Hin Hsmall).
      eexists _, _. split; [reflexivity |]. split.
      * apply (size_indices_bounds _ _ (c_chunkIndex input));
          [| by apply elem_of_union; left; apply elem_of_singleton].
        intros i [->%elem_of_singleton | Hi]%elem_of_union; [done |].
        by apply Hreceived.
      * simpl. rewrite lookup_insert_eq. simpl. apply lookup_insert_eq.
Qed.

Lemma uploadChunk_outcome_witness :
  reachable InMemorySessions small_docx_open ∧
  uploadSessions small_docx_open !! "u1" = Some small_docx_new_session ∧
  ¬ 0 ≤ 1 < totalChunks small_docx_new_session ∧
  ChunkedUploadService.uploadChunk
    {| c_uploadId := "u1"; c_chunkIndex := 1; c_totalChunks := 1; c_chunk := small_file |}
    small_docx_open
  = (Throw (AppError "Invalid chunk index" 400), small_docx_open).
Proof.
  assert (¬ 0 ≤ 1 < totalChunks small_docx_new_session) as Hout
    by (vm_compute; intros [_ H]; discriminate H).
  split; [exact small_docx_open_reachable |].
  split; [exact small_docx_new_session_stored |]. split; [exact Hout |].
  exact (proj1 (proj2 (uploadChunk_outcome small_docx_open
                         {| c_uploadId := "u1"; c_chunkIndex := 1; c_totalChunks := 1;
                            c_chunk := small_file |} small_docx_open_reachable)
                  small_docx_new_session small_docx_new_session_stored) Hout).
Defined.

(** X6: the same for the Redis service, where the received indices are an
    array without duplicates: 404, 400 and 400 without any change, or
    success with the bytes in the slot and a received count between 1 and
    the total. *)
Theorem redis_uploadChunk_outcome (w : World) (input : ChunkUploadInput) :
  reachable RedisSessions w →
  let run := RedisChunkedUploadService.uploadChunk input w in
  let key := RedisChunkedUploadService.getRedisKey (c_uploadId input) in
  let size := Z.of_nat (length (c_chunk input)) in
  (redis w !! key = None →
   run = (Throw (AppError "Upload session not found or expired" 404), w)) ∧
  (∀ s, redis w !! key = Some s →
        (¬ 0 ≤ c_chunkIndex input < r_totalChunks s →
         run = (Throw (AppError "Invalid chunk index" 400), w)) ∧
        (0 ≤ c_chunkIndex input < r_totalChunks s → UPLOAD_LIMITS.CHUNK < size →
         run = (Throw (AppError "Chunk too large" 400), w)) ∧
        (0 ≤ c_chunkIndex input < r_totalChunks s → size ≤ UPLOAD_LIMITS.CHUNK →
         ∃ n w', run = (Ok (n, r_totalChunks s), w') ∧
                 1 ≤ n ≤ r_totalChunks s ∧
                 (scratch w' !! r_tempDir s ≫= (λ d, d !! chunkName (c_chunkIndex input)))
                 = Some (c_chunk input))).
Proof.
  intros Hreach run key size. subst run key size.
  pose proof (reachable_backend_ok _ _ Hreach) as Hok. simpl in Hok.
  unfold RedisChunkedUploadService.uploadChunk at 1 2 3,
    RedisChunkedUploadService.redis_get.
  split.
  - intros Hnone. mfwd. rewrite Hnone. mfwd. reflexivity.
  - intros s Hs. destruct (Hok _ _ Hs) as (_ & _ & _ & Hnd & d & Hd & Hreceived).
    split; [| split].
    + intros Hout. mfwd. rewrite Hs.
      rewrite (index_out_of_range _ _ Hout). mfwd. reflexivity.
    + intros Hin Hlarge. mfwd. rewrite Hs.
      rewrite (index_in_range _ _ Hin). apply Z.ltb_lt in Hlarge. rewrite Hlarge.
      mfwd. reflexivity.
    + intros Hin Hsmall.
      pose proof (redis_uploadChunk_run w s input d Hs Hd Hin Hsmall) as Hrun.
      cbv zeta in Hrun. rewrite Hrun.
      eexists _, _. split; [reflexivity |]. split.
      * rewrite (jsSet_from_NoDup _ Hnd).
        set (l := jsSet_add (c_chunkIndex input) (r_receivedChunks s)).
        assert (NoDup l) as Hnd' by by apply NoDup_jsSet_add.
        rewrite <- (size_list_to_set (C := gset Z) l Hnd').
        apply (size_indices_bounds _ _ (c_chunkIndex input)).
        -- intros i Hi. apply elem_of_list_to_set in Hi. subst l.
           apply elem_of_jsSet_add in Hi as [-> | Hi]; [done |]. by apply Hreceived.
        -- apply elem_of_list_to_set. subst l. apply elem_of_jsSet_add. by left.
      * simpl. rewrite lookup_insert_eq. simpl. apply lookup_insert_eq.
Qed.

Lemma redis_uploadChunk_outcome_witness :
  reachable RedisSessions small_docx_open_redis ∧
  redis small_docx_open_redis !! RedisChunkedUploadService.getRedisKey "u1"
  = Some small_docx_new_session_redis ∧
  0 ≤ 0 < r_totalChunks small_docx_new_session_redis ∧
  Z.of_nat (length small_file) ≤ UPLOAD_LIMITS.CHUNK ∧
  ∃ n w',
    RedisChunkedUploadService.uploadChunk (chunkRequest "u1" small_file 1 0)
      small_docx_open_redis
    = (Ok (n, r_totalChunks small_docx_new_session_redis), w') ∧
    1 ≤ n ≤ r_totalChunks small_docx_new_session_redis ∧
    (scratch w' !! r_tempDir small_docx_new_session_redis ≫= (λ d, d !! chunkName 0))
    = Some small_file.
Proof.
  assert (0 ≤ 0 < r_totalChunks small_docx_new_session_redis) as Hin
    by (vm_compute; split; [discriminate | reflexivity]).
  assert (Z.of_nat (length small_file) ≤ UPLOAD_LIMITS.CHUNK) as Hsmall
    by (vm_compute; discriminate).
  split; [exact small_docx_open_redis_reachable |].
  split; [exact small_docx_new_session_redis_stored |].
  split; [exact Hin |]. split; [exact Hsmall |].
  exact (proj2 (proj2 (proj2 (redis_uploadChunk_outcome small_docx_open_redis
                                (chunkRequest "u1" small_file 1 0)
                                small_docx_open_redis_reachable)
                         small_docx_new_session_redis small_docx_new_session_redis_stored))
           Hin Hsmall).
Defined.

(** ** A session is consumed by its finalize *)

Lemma finalizeUpload_ok_inv (w w' : World) (caller : string)
    (input : FinalizeUploadInput) (uuid : string) (res : FinalizeResult) :
  ChunkedUploadService.finalizeUpload caller input uuid w = (Ok res, w') →
  ∃ s, uploadSessions w !! f_uploadId input = Some s ∧
       userId s = caller ∧
       Z.of_nat (size (receivedChunks s)) = totalChunks s ∧
       res_assetId res = uuid ∧
       uploadSessions w' !! f_uploadId input = None ∧
       scratch w' !! tempDir s = None.
Proof.
  intros Hrun. unfold ChunkedUploadService.finalizeUpload in Hrun.
  minv Hrun.
  apply negb_false_iff, String.eqb_eq in Hcond.
  apply negb_false_iff, Z.eqb_eq in Hcond0.
  pose proof (since_assembleFile w (tempDir c) (totalChunks c) w (since_refl w)) as Hs0.
  rewrite Hrun0 in Hs0. simpl in Hs0.
  pose proof (since_storeAsset w c a1 uuid w0 Hs0) as Hs1.
  rewrite Hrun1 in Hs1. simpl in Hs1. destruct Hs1 as (Hsessions & _ & _).
  unfold ChunkedUploadService.cleanupSession in Hrun2.
  rewrite bind_gets, Hsessions, Hcase in Hrun2. unfold fs_rm in Hrun2.
  apply bind_Ok_inv in Hrun2 as (u & w3 & Htry & Hdel).
  unfold try_catch in Htry. rewrite run_modify in Htry. injection Htry as _ <-.
  rewrite run_modify in Hdel. injection Hdel as _ <-.
  exists c. repeat (split; [done |]). simpl. split; apply lookup_delete_eq.
Qed.

Lemma redis_finalizeUpload_ok_inv (w w' : World) (label caller : string)
    (input : FinalizeUploadInput) (uuid : string) (res : FinalizeResult) :
  RedisChunkedUploadService.finalizeUpload label caller input uuid w = (Ok res, w') →
  ∃ s, redis w !! RedisChunkedUploadService.getRedisKey (f_uploadId input) = Some s ∧
       r_userId s = caller ∧
       Z.of_nat (length (r_receivedChunks s)) = r_totalChunks s ∧
       res_assetId res = uuid ∧
       redis w' !! RedisChunkedUploadService.getRedisKey (f_uploadId input) = None ∧
       scratch w' !! r_tempDir s = None.
Proof.
  intros Hrun.
  unfold RedisChunkedUploadService.finalizeUpload, RedisChunkedUploadService.redis_get,
    RedisChunkedUploadService.redis_del in Hrun.
  cbv zeta in Hrun. rewrite bind_gets in Hrun.
  destruct (redis w !! _) as [s |] eqn:Hs; [| by rewrite run_throw in Hrun].
  apply bind_Ok_inv in Hrun as (u1 & w1 & Hc1 & Hrun).
  apply throw_if_Ok_inv in Hc1 as (Hown & ->).
  apply bind_Ok_inv in Hrun as (u2 & w2 & Hc2 & Hrun).
  apply throw_if_Ok_inv in Hc2 as (Hall & ->).
  apply bind_Ok_inv in Hrun as (fileBuffer & w3 & Hassemble & Hrun).
  apply bind_Ok_inv in Hrun as (key & w4 & Hstore & Hrun).
  rewrite bind_modify in Hrun. unfold fs_rm in Hrun.
  apply bind_Ok_inv in Hrun as (u3 & w5 & Htry & Hret).
  unfold try_catch in Htry. rewrite run_modify in Htry. injection Htry as _ <-.
  rewrite run_ret in Hret. injection Hret as <- <-.
  apply negb_false_iff, String.eqb_eq in Hown.
  apply negb_false_iff, Z.eqb_eq in Hall.
  exists s. repeat (split; [done |]). simpl. split; apply lookup_delete_eq.
Qed.

(** X7: a successful [finalizeUpload] consumes the session: the caller is
    the owner, the returned asset id is the new one, the session entry and
    its scratch directory are gone, and every later [finalizeUpload] or
    [uploadChunk] for the same upload id is answered 404 without any change.
    Both services. *)
Theorem finalizeUpload_consumes_session
    (w w' : World) (label caller : string) (input : FinalizeUploadInput)
    (uuid : string) (res : FinalizeResult) :
  let gone := AppError "Upload session not found or expired" 404 in
  (ChunkedUploadService.finalizeUpload caller input uuid w = (Ok res, w') →
   res_assetId res = uuid ∧
   (∃ s, uploadSessions w !! f_uploadId input = Some s ∧ userId s = caller ∧
         scratch w' !! tempDir s = None) ∧
   uploadSessions w' !! f_uploadId input = None ∧
   (∀ caller' input' uuid', f_uploadId input' = f_uploadId input →
      ChunkedUploadService.finalizeUpload caller' input' uuid' w' = (Throw gone, w')) ∧
   (∀ chunk, c_uploadId chunk = f_uploadId input →
      ChunkedUploadService.uploadChunk chunk w' = (Throw gone, w'))) ∧
  (RedisChunkedUploadService.finalizeUpload label caller input uuid w = (Ok res, w') →
   res_assetId res = uuid ∧
   (∃ s, redis w !! RedisChunkedUploadService.getRedisKey (f_uploadId input) = Some s ∧
         r_userId s = caller ∧ scratch w' !! r_tempDir s = None) ∧
   redis w' !! RedisChunkedUploadService.getRedisKey (f_uploadId input) = None ∧
   (∀ label' caller' input' uuid', f_uploadId input' = f_uploadId input →
      RedisChunkedUploadService.finalizeUpload label' caller' input' uuid' w'
      = (Throw gone, w')) ∧
   (∀ chunk, c_uploadId chunk = f_uploadId input →
      RedisChunkedUploadService.uploadChunk chunk w' = (Throw gone, w'))).
Proof.
  intros gone. split.
  - intros Hrun.
    apply finalizeUpload_ok_inv in Hrun as (s & Hs & Hown & _ & Hid & Hgone & Hdir).
    split; [done |]. split; [by eauto |]. split; [done |]. split.
    + intros caller' input' uuid' Hsame. rewrite <- Hsame in Hgone.
      unfold ChunkedUploadService.finalizeUpload. mfwd. rewrite Hgone. mfwd. reflexivity.
    + intros chunk Hsame. rewrite <- Hsame in Hgone.
      unfold ChunkedUploadService.uploadChunk. mfwd. rewrite Hgone. mfwd. reflexivity.
  - intros Hrun.
    apply redis_finalizeUpload_ok_inv in Hrun as (s & Hs & Hown & _ & Hid & Hgone & Hdir).
    split; [done |]. split; [by eauto |]. split; [done |]. split.
    + intros label' caller' input' uuid' Hsame. rewrite <- Hsame in Hgone.
      unfold RedisChunkedUploadService.finalizeUpload,
        RedisChunkedUploadService.redis_get.
      mfwd. rewrite Hgone. mfwd. reflexivity.
    + intros chunk Hsame. rewrite <- Hsame in Hgone.
      unfold RedisChunkedUploadService.uploadChunk, RedisChunkedUploadService.redis_get.
      mfwd. rewrite Hgone. mfwd. reflexivity.
Qed.

Lemma finalizeUpload_consumes_session_witness :
  ChunkedUploadService.finalizeUpload "instructor-1" finalize_u1 "f1" small_docx_uploaded
  = (Ok {| res_storageKey := "/public/part-1/f1/notes.docx"; res_assetId := "f1" |},
     small_docx_published) ∧
  uploadSessions small_docx_published !! f_uploadId finalize_u1 = None ∧
  ChunkedUploadService.uploadChunk (chunkRequest "u1" small_file 1 0) small_docx_published
  = (Throw (AppError "Upload session not found or expired" 404), small_docx_published).
Proof.
  assert (ChunkedUploadService.finalizeUpload "instructor-1" finalize_u1 "f1"
            small_docx_uploaded
          = (Ok {| res_storageKey := "/public/part-1/f1/notes.docx"; res_assetId := "f1" |},
             small_docx_published)) as Hrun by (vm_compute; reflexivity).
  split; [exact Hrun |].
  destruct (proj1 (finalizeUpload_consumes_session small_docx_uploaded small_docx_published
                     "label" "instructor-1" finalize_u1 "f1" _) Hrun)
    as (_ & _ & Hgone & _ & Hchunk).
  split; [exact Hgone |]. exact (Hchunk (chunkRequest "u1" small_file 1 0) eq_refl).
Defined.

(** ** The sweep of stale sessions *)

(** X8: one tick of the sweep on a session of the in-memory service, in a
    reachable state.  A session created at most one hour before (the bound
    included) is left alone; an older one is removed together with its
    scratch directory, and nothing else changes: every other session is
    still there with its own scratch directory, and assets, storage and
    queue are as before. *)
Theorem sweepSession_removes_only_stale (w : World) (now : Z) (id : string)
    (s : ChunkedUploadSession) :
  reachable InMemorySessions w →
  uploadSessions w !! id = Some s →
  (now - createdAt s ≤ 60 * 60 * 1000 →
   ChunkedUploadService.sweepSession now id w = (Ok tt, w)) ∧
  (60 * 60 * 1000 < now - createdAt s →
   ∃ w', ChunkedUploadService.sweepSession now id w = (Ok tt, w') ∧
         uploadSessions w' !! id = None ∧
         scratch w' !! tempDir s = None ∧
         (∀ id' s', id' ≠ id → uploadSessions w !! id' = Some s' →
                    uploadSessions w' !! id' = Some s' ∧
                    scratch w' !! tempDir s' = scratch w !! tempDir s') ∧
         partFiles w' = partFiles w ∧ bunny w' = bunny w ∧
         pdfQueue w' = pdfQueue w ∧ tmpFiles w' = tmpFiles w).
Proof.
  intros Hreach Hs.
  pose proof (reachable_backend_ok _ _ Hreach) as Hok. simpl in Hok.
  unfold ChunkedUploadService.sweepSession, ChunkedUploadService.cleanupSession.
  split.
  - intros Hfresh. mfwd. rewrite Hs.
    apply Z.ltb_ge in Hfresh. rewrite Hfresh. mfwd. reflexivity.
  - intros Hstale. mfwd. rewrite Hs.
    apply Z.ltb_lt in Hstale. rewrite Hstale. mfwd. rewrite Hs.
    unfold try_catch. mfwd.
    eexists. split; [reflexivity |]. simpl.
    split; [apply lookup_delete_eq |]. split; [apply lookup_delete_eq |].
    split; [| done].
    intros id' s' Hne Hs'. split; [by rewrite lookup_delete_ne |].
    destruct (Hok _ _ Hs) as (_ & Hdir & _), (Hok _ _ Hs') as (_ & Hdir' & _).
    rewrite lookup_delete_ne; [done |].
    rewrite Hdir, Hdir'. intros Heq. by apply tempDirOf_inj in Heq.
Qed.

Lemma sweepSession_removes_only_stale_witness :
  reachable InMemorySessions small_docx_open ∧
  uploadSessions small_docx_open !! "u1" = Some small_docx_new_session ∧
  3600000 - createdAt small_docx_new_session ≤ 60 * 60 * 1000 ∧
  ChunkedUploadService.sweepSession 3600000 "u1" small_docx_open
  = (Ok tt, small_docx_open).
Proof.
  assert (3600000 - createdAt small_docx_new_session ≤ 60 * 60 * 1000) as Hfresh
    by (vm_compute; discriminate).
  split; [exact small_docx_open_reachable |].
  split; [exact small_docx_new_session_stored |]. split; [exact Hfresh |].
  exact (proj1 (sweepSession_removes_only_stale small_docx_open 3600000 "u1"
                  small_docx_new_session small_docx_open_reachable
                  small_docx_new_session_stored) Hfresh).
Defined.

(** ** What a run of the worker touches *)

(** The row of the job after a run of the processor, in terms of the row
    before: the FAILED mark, the reset of step 1, or the update of step 8. *)
Lemma pdfWorker_row_shape (env : WorkerEnv) (job_id : option string) (data : PdfJobData)
    (w : World) :
  let id := partFileId data in
  let w' := exec (PdfWorker.pdfWorker env job_id data) w in
  partFiles w' = partFiles w
  ∨ ∃ f f', partFiles w !! id = Some f ∧ partFiles w' = <[id := f']> (partFiles w) ∧
      (f' = set_renderStatus FAILED f
       ∨ f' = set_renderStatus FAILED (set_renderStatus PROCESSING f)
       ∨ f' = set_renderStatus PROCESSING f
       ∨ ∃ title n, f' = set_completed (PdfWorker.destinationPathOf id) title n
                            (set_renderStatus PROCESSING f)).
Proof.
  intros id w'. subst w'. unfold exec, PdfWorker.pdfWorker.
  erewrite bind_ok by apply smokeTest_ok.
  destruct (smokeTest_frame env w) as [Hrows0 _].
  set (w0 := exec (PdfWorker.smokeTest env) w) in *.
  set (jobId := default "unknown" job_id).
  destruct (PdfWorker.processJob env jobId data w0) as [r w1] eqn:Hrun.
  destruct (processJob_rows _ _ _ _ _ _ Hrun)
    as [[Hr Hrows] | [-> (f & title & n & Hf & Hrows)]].
  - destruct r as [[] | e]; [done |].
    erewrite try_catch_throw by exact Hrun.
    destruct (onFailure_run env jobId data e w1) as (w2 & -> & _ & _ & Hmark).
    simpl. fold id in Hrows, Hmark. rewrite Hrows0 in Hrows.
    destruct Hmark as [(f1 & _ & Hf1 & -> & _) | (dbError & _ & -> & _)],
          Hrows as [Hrows | (f & Hf & Hrows)]; rewrite Hrows in *.
    + right. exists f1, (set_renderStatus FAILED f1). by eauto 10.
    + rewrite lookup_insert_eq in Hf1. injection Hf1 as <-.
      rewrite insert_insert_eq.
      right. exists f, (set_renderStatus FAILED (set_renderStatus PROCESSING f)).
      by eauto 10.
    + by left.
    + right. exists f, (set_renderStatus PROCESSING f). by eauto 10.
  - erewrite try_catch_ok by exact Hrun. simpl.
    fold id in Hf, Hrows. rewrite Hrows0 in Hf, Hrows. rewrite Hrows.
    right. eexists f, _. split; [exact Hf |]. split; [reflexivity |].
    right. right. right. by eauto.
Qed.

Lemma worker_frame_pdfWorker (w0 : World) env job_id data :
  preserves (worker_frame w0) (PdfWorker.pdfWorker env job_id data).
Proof.
  unfold PdfWorker.pdfWorker, PdfWorker.smokeTest, PdfWorker.processJob,
    PdfWorker.onFailure, PdfWorker.logWorkerError.
  unfold partFile_update, partFile_findUnique, uploadPrivate, storage_upload,
    downloadStream, storage_delete, console_log.
  pres.
  all: apply preserves_modify; intros ? Hinv; exact Hinv.
Qed.

Lemma storage_frame_delete (data : PdfJobData) (w0 : World) :
  preserves (storage_frame data w0) (storage_delete (sourceKey data)).
Proof.
  intros w Hw. unfold storage_delete. mfwd. unfold storage_frame in *.
  destruct (sourceKey data) as [key |] eqn:Hkey; simpl; [| exact Hw].
  destruct (bunny w !! key); simpl; [| exact Hw].
  mfwd. simpl. intros k Hdest Hsource.
  rewrite lookup_delete_ne by congruence. by apply Hw.
Qed.

Lemma storage_frame_pdfWorker (w0 : World) env job_id data :
  preserves (storage_frame data w0) (PdfWorker.pdfWorker env job_id data).
Proof.
  unfold PdfWorker.pdfWorker, PdfWorker.smokeTest, PdfWorker.processJob,
    PdfWorker.onFailure, PdfWorker.logWorkerError.
  unfold partFile_update, partFile_findUnique, uploadPrivate, storage_upload,
    downloadStream, console_log.
  pres.
  all: try apply storage_frame_delete.
  all: apply preserves_modify; intros w Hinv; try exact Hinv.
  intros k Hdest Hsource. simpl. rewrite lookup_insert_ne by done. by apply Hinv.
Qed.

(** X9: a run of the worker, however it ends, touches only its own asset:
    sessions, scratch files, queue and the other tables are as before;
    stored objects other than the destination [/secured/<id>.pdf] and the
    staged source of the job are as before; every other asset row is as
    before; no row is created or deleted, and the row of the job keeps its
    id, part, display name, type, order and security flag. *)
Theorem pdfWorker_touches_only_its_asset
    (env : WorkerEnv) (job_id : option string) (data : PdfJobData) (w : World) :
  let w' := exec (PdfWorker.pdfWorker env job_id data) w in
  worker_frame w w' ∧
  storage_frame data w w' ∧
  (∀ id, id ≠ partFileId data → partFiles w' !! id = partFiles w !! id) ∧
  match partFiles w !! partFileId data with
  | None => partFiles w' !! partFileId data = None
  | Some f =>
      ∃ f', partFiles w' !! partFileId data = Some f' ∧
            pf_id f' = pf_id f ∧ pf_partId f' = pf_partId f ∧
            pf_displayName f' = pf_displayName f ∧ pf_type f' = pf_type f ∧
            pf_order f' = pf_order f ∧ pf_isSecure f' = pf_isSecure f
  end.
Proof.
  intros w'. subst w'.
  split; [by apply worker_frame_pdfWorker |].
  split; [by apply storage_frame_pdfWorker |].
  destruct (pdfWorker_row_shape env job_id data w)
    as [Hrows | (f & f' & Hf & Hrows & Hshape)]; rewrite Hrows.
  - split; [done |]. destruct (partFiles w !! partFileId data); by eauto 10.
  - split; [by intros id Hne; rewrite lookup_insert_ne |].
    rewrite Hf, lookup_insert_eq. exists f'. split; [done |].
    destruct Hshape as [-> | [-> | [-> | (title & n & ->)]]]; done.
Qed.

(** ** Failure and completion of a job *)

Lemma processJob_throw_storage (env : WorkerEnv) (jobId : string) (data : PdfJobData)
    (w w1 : World) (e : Error) :
  PdfWorker.processJob env jobId data w = (Throw e, w1) →
  bunny w1 = bunny w
  ∨ ∃ o, bunny w1 = <[PdfWorker.destinationPathOf (partFileId data) := o]> (bunny w).
Proof.
  intros Hrun.
  unfold PdfWorker.processJob, PdfWorker.logWorkerError in Hrun.
  minv_any Hrun.
  all: simpl in *.
  all: first [ left; reflexivity | right; eexists; reflexivity ].
Qed.

(** X10: a run of the worker that ends with an exception has deleted
    nothing from the storage: every object except possibly the destination
    [/secured/<id>.pdf] is as before, so the staged source is still there
    for another delivery; the asset row is still there as well. *)
Theorem pdfWorker_failure_keeps_staged_source
    (env : WorkerEnv) (job_id : option string) (data : PdfJobData)
    (w w' : World) (e : Error) :
  PdfWorker.pdfWorker env job_id data w = (Throw e, w') →
  (∀ k, k ≠ PdfWorker.destinationPathOf (partFileId data) →
        bunny w' !! k = bunny w !! k) ∧
  (is_Some (partFiles w !! partFileId data) → is_Some (partFiles w' !! partFileId data)).
Proof.
  intros Hrun. split.
  - unfold PdfWorker.pdfWorker in Hrun.
    erewrite bind_ok in Hrun by apply smokeTest_ok.
    destruct (smokeTest_frame env w) as [_ Hb0].
    set (w0 := exec (PdfWorker.smokeTest env) w) in *.
    apply try_catch_inv in Hrun as [(a & _ & [=]) | (e1 & w1 & Hbody & Hfail)].
    destruct (onFailure_run env (default "unknown" job_id) data e1 w1)
      as (w2 & Hfail' & Hb2 & _).
    rewrite Hfail' in Hfail. injection Hfail as _ <-.
    intros k Hk. rewrite Hb2.
    destruct (processJob_throw_storage _ _ _ _ _ _ Hbody) as [-> | [o ->]].
    + by rewrite Hb0.
    + rewrite lookup_insert_ne by done. by rewrite Hb0.
  - pose proof (pdfWorker_row_shape env job_id data w) as Hshape.
    unfold exec in Hshape. rewrite Hrun in Hshape. simpl in Hshape.
    destruct Hshape as [-> | (f & f' & _ & -> & _)]; [done |].
    intros _. rewrite lookup_insert_eq. by eauto.
Qed.

Lemma pdfWorker_failure_keeps_staged_source_witness :
  PdfWorker.pdfWorker broken_pdf_env (Some "1") notes_job lesson_uploaded
  = (Throw (LibError "Failed to parse PDF document"),
     exec (PdfWorker.pdfWorker broken_pdf_env (Some "1") notes_job) lesson_uploaded) ∧
  bunny (exec (PdfWorker.pdfWorker broken_pdf_env (Some "1") notes_job) lesson_uploaded)
    !! notes_source_key
  = bunny lesson_uploaded !! notes_source_key.
Proof.
  assert (PdfWorker.pdfWorker broken_pdf_env (Some "1") notes_job lesson_uploaded
          = (Throw (LibError "Failed to parse PDF document"),
             exec (PdfWorker.pdfWorker broken_pdf_env (Some "1") notes_job) lesson_uploaded))
    as Hrun by (vm_compute; reflexivity).
  split; [exact Hrun |].
  apply (proj1 (pdfWorker_failure_keeps_staged_source broken_pdf_env (Some "1") notes_job
                  lesson_uploaded _ _ Hrun)).
  vm_compute. discriminate.
Defined.

Lemma run_delete (env : WorkerEnv) (key : string) (o : StoredObject) (w : World) :
  fault env StorageDelete = None → bunny w !! key = Some o →
  at_site env StorageDelete (storage_delete (Some key)) w
  = (Ok tt, set_bunny (delete key) w).
Proof.
  intros Hfault Ho. unfold at_site. rewrite Hfault. mfwd. simpl. rewrite Ho.
  reflexivity.
Qed.

(** A run of the [try] block in which every step succeeds. *)
Lemma processJob_completes (env : WorkerEnv) (jobId : string) (data : PdfJobData)
    (w : World) (key : string) (f : PartFile) (o : StoredObject)
    (doc : PdfDoc) (out : bytes) :
  let id := partFileId data in
  let dest := PdfWorker.destinationPathOf id in
  sourceKey data = Some key → key ≠ dest →
  partFiles w !! id = Some f → bunny w !! key = Some o →
  collaborators_work env data (so_body o) doc out →
  PdfWorker.processJob env jobId data w
  = (Ok tt,
     set_bunny (delete key)
       (set_partFiles (<[id := set_completed dest (job_title data) (Z.of_nat (length doc))
                                  (set_renderStatus PROCESSING f)]>)
          (set_bunny (<[dest := secured_object out]>)
             (set_partFiles (<[id := set_renderStatus PROCESSING f]>) w)))).
Proof.
  intros id dest Hkey Hne Hf Ho (Hfault & (pdfBytes & Hnorm & Hload) & Hfont1 & Hfont2 & Hsave).
  unfold PdfWorker.processJob, PdfWorker.logWorkerError. cbv zeta. fold id dest.
  rewrite Hkey.
  erewrite bind_ok; [| by apply run_update].
  erewrite bind_ok; [| erewrite try_catch_ok; [reflexivity | by apply run_download]].
  erewrite bind_ok.
  2: { unfold normalized in Hnorm. destruct (negb _).
       - rewrite Hnorm. reflexivity.
       - injection Hnorm as <-. reflexivity. }
  unfold lift_result. rewrite Hload. mfwd. rewrite Hfont1. mfwd. rewrite Hfont2. mfwd.
  rewrite Hsave. mfwd.
  erewrite bind_ok; [| erewrite try_catch_ok; [reflexivity | by apply run_upload]].
  erewrite bind_ok.
  2: { erewrite try_catch_ok; [reflexivity |]. apply run_update; [done |].
       simpl. apply lookup_insert_eq. }
  erewrite try_catch_ok; [reflexivity |].
  apply (run_delete env key o); [done |].
  simpl. rewrite lookup_insert_ne by done. exact Ho.
Qed.

(** A run of the processor in which every step succeeds: the state it
    ends in. *)
Lemma pdfWorker_run_completes
    (env : WorkerEnv) (job_id : option string) (data : PdfJobData) (w : World)
    (key : string) (f : PartFile) (o : StoredObject) (doc : PdfDoc) (out : bytes) :
  let id := partFileId data in
  let dest := PdfWorker.destinationPathOf id in
  sourceKey data = Some key → key ≠ dest →
  partFiles w !! id = Some f → bunny w !! key = Some o →
  collaborators_work env data (so_body o) doc out →
  ∃ w', PdfWorker.pdfWorker env job_id data w = (Ok tt, w') ∧
        partFiles w'
        = <[id := set_completed dest (job_title data) (Z.of_nat (length doc))
                    (set_renderStatus PROCESSING f)]> (partFiles w) ∧
        bunny w' = delete key (<[dest := secured_object out]> (bunny w)).
Proof.
  intros id dest Hkey Hne Hf Ho Hwork.
  destruct (smokeTest_frame env w) as [Hrows0 Hb0].
  unfold PdfWorker.pdfWorker. erewrite bind_ok by apply smokeTest_ok.
  set (w0 := exec (PdfWorker.smokeTest env) w) in *.
  rewrite <- Hrows0 in Hf. rewrite <- Hb0 in Ho.
  erewrite try_catch_ok
    by exact (processJob_completes env _ data w0 key f o doc out Hkey Hne Hf Ho Hwork).
  eexists. split; [reflexivity |]. simpl.
  rewrite insert_insert_eq, Hrows0, Hb0. by split.
Qed.

(** X11: when the staged source of a job is in storage, its asset row
    exists and the collaborators do their part, a run of the worker ends
    normally whatever the status of the row was before (PROCESSING, FAILED
    or COMPLETED): the row is COMPLETED with the key [/secured/<id>.pdf], the
    normalized title and the number of pages of the document, the
    watermarked bytes are stored under that key, and the staged source is
    deleted. *)
Theorem pdfWorker_completes_when_source_staged
    (env : WorkerEnv) (job_id : option string) (data : PdfJobData) (w : World)
    (key : string) (f : PartFile) (o : StoredObject) (doc : PdfDoc) (out : bytes) :
  let id := partFileId data in
  let dest := PdfWorker.destinationPathOf id in
  sourceKey data = Some key → key ≠ dest →
  partFiles w !! id = Some f → bunny w !! key = Some o →
  collaborators_work env data (so_body o) doc out →
  ∃ w', PdfWorker.pdfWorker env job_id data w = (Ok tt, w') ∧
        partFiles w' !! id
        = Some (set_completed dest (job_title data) (Z.of_nat (length doc))
                  (set_renderStatus PROCESSING f)) ∧
        bunny w' !! dest = Some (secured_object out) ∧
        bunny w' !! key = None.
Proof.
  intros id dest Hkey Hne Hf Ho Hwork.
  destruct (pdfWorker_run_completes env job_id data w key f o doc out Hkey Hne Hf Ho Hwork)
    as (w' & Hrun & Hrows & Hbunny).
  exists w'. split; [exact Hrun |].
  split; [rewrite Hrows; apply lookup_insert_eq |].
  rewrite Hbunny. split; [| apply lookup_delete_eq].
  rewrite lookup_delete_ne by done. apply lookup_insert_eq.
Qed.

Lemma healthy_env_works :
  collaborators_work healthy_env notes_job (so_body staged_notes) notes_doc notes_out.
Proof.
  split; [by intros [] |].
  split; [exists (buffer pdf_file); by split |]. by repeat split.
Qed.

Lemma pdfWorker_completes_when_source_staged_witness :
  sourceKey notes_job = Some notes_source_key ∧
  notes_source_key ≠ PdfWorker.destinationPathOf (partFileId notes_job) ∧
  partFiles lesson_uploaded !! partFileId notes_job = Some uploaded_row ∧
  bunny lesson_uploaded !! notes_source_key = Some staged_notes ∧
  collaborators_work healthy_env notes_job (so_body staged_notes) notes_doc notes_out ∧
  ∃ w', PdfWorker.pdfWorker healthy_env (Some "1") notes_job lesson_uploaded = (Ok tt, w') ∧
        partFiles w' !! partFileId notes_job
        = Some (set_completed (PdfWorker.destinationPathOf (partFileId notes_job))
                  (job_title notes_job) (Z.of_nat (length notes_doc))
                  (set_renderStatus PROCESSING uploaded_row)) ∧
        bunny w' !! PdfWorker.destinationPathOf (partFileId notes_job)
        = Some (secured_object notes_out) ∧
        bunny w' !! notes_source_key = None.
Proof.
  assert (notes_source_key ≠ PdfWorker.destinationPathOf (partFileId notes_job)) as Hne
    by (vm_compute; discriminate).
  assert (bunny lesson_uploaded !! notes_source_key = Some staged_notes) as Hstaged
    by (vm_compute; reflexivity).
  split; [reflexivity |]. split; [exact Hne |]. split; [exact uploaded_row_stored |].
  split; [exact Hstaged |]. split; [exact healthy_env_works |].
  exact (pdfWorker_completes_when_source_staged healthy_env (Some "1") notes_job
           lesson_uploaded notes_source_key uploaded_row staged_notes notes_doc notes_out
           eq_refl Hne uploaded_row_stored Hstaged healthy_env_works).
Defined.

(** ** MIME types and extensions *)

Lemma uploadPdf_mimes_cases (m : string) :
  UploadService.includes uploadPdf_mimes m = true →
  m = "application/pdf"
  ∨ m = "application/vnd.openxmlformats-officedocument.presentationml.presentation"
  ∨ m = "application/vnd.ms-powerpoint"
  ∨ m = "application/msword"
  ∨ m = "application/vnd.openxmlformats-officedocument.wordprocessingml.document"
  ∨ m = "text/plain".
Proof.
  unfold UploadService.includes, uploadPdf_mimes. simpl. intros Hin.
  repeat (apply orb_true_iff in Hin as [Hin%String.eqb_eq | Hin]; [by eauto 10 |]).
  discriminate Hin.
Qed.

(** X12: a file that passes the MIME filter of the document route passes
    the MIME check of [uploadLessonPdf]; [getExtension] does not throw for
    it, and the extension it gives to the staged source is the one the
    worker infers from the MIME type of the job, whatever the file is
    called (the Redis service names its staged source with the same
    extension).  That extension is [.pdf], for which the worker skips the
    conversion, exactly for [application/pdf]. *)
Theorem staged_extension_agrees_with_worker (file : MulterFile) :
  fileFilter uploadPdf_mimes file = Ok true →
  UploadService.includes UploadService.allowedMimes (mimetype file) = true ∧
  ∃ ext, (∀ w, UploadService.getExtension (mimetype file) w = (Ok ext, w)) ∧
         (∀ name, PdfWorker.inferExtension (Some (mimetype file)) name = ext) ∧
         RedisChunkedUploadService.getExtension (mimetype file) = ext ∧
         (ext = ".pdf" ↔ mimetype file = "application/pdf").
Proof.
  unfold fileFilter. intros Hfilter.
  destruct (UploadService.includes uploadPdf_mimes (mimetype file)) eqn:Hin; [| done].
  split; [exact Hin |].
  apply uploadPdf_mimes_cases in Hin.
  destruct Hin as [-> | [-> | [-> | [-> | [-> | ->]]]]];
    eexists; (split; [intros w; reflexivity |]);
    (split; [intros name; reflexivity |]); (split; [reflexivity |]); by split.
Qed.

Lemma staged_extension_agrees_with_worker_witness :
  fileFilter uploadPdf_mimes pdf_file = Ok true ∧
  UploadService.includes UploadService.allowedMimes (mimetype pdf_file) = true ∧
  ∃ ext, (∀ w, UploadService.getExtension (mimetype pdf_file) w = (Ok ext, w)) ∧
         (∀ name, PdfWorker.inferExtension (Some (mimetype pdf_file)) name = ext) ∧
         RedisChunkedUploadService.getExtension (mimetype pdf_file) = ext ∧
         (ext = ".pdf" ↔ mimetype pdf_file = "application/pdf").
Proof.
  split; [reflexivity |].
  exact (staged_extension_agrees_with_worker pdf_file eq_refl).
Defined.

(** ** From the upload of a lecture to its secure read *)

Lemma getExtension_of_allowed (m : string) :
  UploadService.includes UploadService.allowedMimes m = true →
  ∀ name w, UploadService.getExtension m w
            = (Ok (PdfWorker.inferExtension (Some m) name), w).
Proof.
  intros Hin name w. apply uploadPdf_mimes_cases in Hin.
  destruct Hin as [-> | [-> | [-> | [-> | [-> | ->]]]]]; reflexivity.
Qed.

Lemma secure_requested_true (file : MulterFile) (isSecureStr : option SecureArg) :
  secure_requested file isSecureStr →
  match isSecureStr with
  | None => true
  | Some a => secureArg_is_true a
  end || negb (String.eqb (mimetype file) "application/pdf") = true.
Proof.
  intros [-> | [-> | [-> | Hmime]]]; try reflexivity.
  apply String.eqb_neq in Hmime. rewrite Hmime. apply orb_true_r.
Qed.

(** The secure path of [uploadLessonPdf] run to its end. *)
Lemma uploadLessonPdf_secure_run (w : World) (caller lessonId : string)
    (file : MulterFile) (title : option string) (isSecureStr : option SecureArg)
    (uuid : string) (part : Part) :
  bunnyConfigured w = true →
  UploadService.includes UploadService.allowedMimes (mimetype file) = true →
  parts w !! lessonId = Some part → part_instructorId part = caller →
  secure_requested file isSecureStr →
  partFiles w !! uuid = None →
  ∃ w1 f,
    UploadService.uploadLessonPdf caller lessonId file title isSecureStr uuid w
    = (Ok (Queued uuid), w1) ∧
    partFiles w1 = <[uuid := f]> (partFiles w) ∧
    pf_id f = uuid ∧ pf_partId f = lessonId ∧
    pf_title f = or_string title (originalname file) ∧
    pf_displayName f = Some (path_parse_name (originalname file) +:+ ".pdf") ∧
    pf_storageKey f = "" ∧ pf_renderStatus f = PROCESSING ∧
    pf_isSecure f = true ∧ pf_pageCount f = 0 ∧
    bunny w1 = <[staged_key uuid (PdfWorker.inferExtension (Some (mimetype file))
                                    (Some (originalname file)))
                 := {| so_zone := PrivateZone; so_body := buffer file;
                       so_mimetype := mimetype file |}]> (bunny w) ∧
    pdfQueue w1 = pdfQueue w ++ [("watermark-pdf", lesson_job file uuid)] ∧
    parts w1 = parts w ∧ users w1 = users w ∧ enrollments w1 = enrollments w ∧
    partLocks w1 = partLocks w.
Proof.
  intros Hconf Hmime Hpart Hown Hsecure Hfresh.
  apply secure_requested_true in Hsecure. apply String.eqb_eq in Hown.
  unfold UploadService.uploadLessonPdf, UploadService.validateConfig.
  cbv zeta. rewrite Hsecure.
  mfwd. rewrite Hconf, Hmime. cbn [negb].
  destruct (negb _ && negb _); mfwd; simpl; rewrite Hpart; mfwd; rewrite Hown;
    cbn [negb]; mfwd.
  all: erewrite bind_ok by apply (getExtension_of_allowed _ Hmime (Some (originalname file))).
  all: mfwd; simpl; rewrite Hfresh; mfwd.
  all: eexists _, _; split; [reflexivity |]; simpl; by repeat split.
Qed.

(** What the two read endpoints and the metadata endpoint answer to the
    instructor of the course for a COMPLETED asset whose object is stored. *)
Lemma instructor_reads_completed (w : World) (caller id : string) (f : PartFile)
    (part : Part) (o : StoredObject) (name : string) :
  partFiles w !! id = Some f → parts w !! pf_partId f = Some part →
  part_instructorId part = caller →
  pf_renderStatus f = COMPLETED → bunny w !! pf_storageKey f = Some o →
  pf_displayName f = Some (name +:+ ".pdf") →
  UploadService.getSecurePdf caller id w
  = (Ok {| stream := so_body o; contentType := "application/pdf";
           sr_filename := name +:+ ".pdf" |}, w) ∧
  UploadService.getDocumentMetadata caller id w
  = (Ok {| md_title := pf_title f; md_displayName := name +:+ ".pdf";
           md_pageCount := pf_pageCount f; md_renderStatus := COMPLETED;
           md_isSecure := pf_isSecure f; md_id := pf_id f |}, w).
Proof.
  intros Hf Hpart Hown Hdone Ho Hname. apply String.eqb_eq in Hown.
  assert (String.eqb (name +:+ ".pdf") "" = false) as Hnonempty
    by (apply String.eqb_neq; destruct name; discriminate).
  unfold UploadService.getSecurePdf, UploadService.getDocumentMetadata,
    UploadService.lookupWithAccess.
  mfwd. simpl. rewrite Hf. mfwd. rewrite Hpart. mfwd. rewrite Hown. simpl. mfwd.
  rewrite Hdone, Hname. unfold or_string. rewrite Hnonempty.
  split; [| reflexivity].
  destruct (enrollments w !! _); mfwd; rewrite bool_decide_eq_true_2 by done;
    cbn [negb]; mfwd; unfold try_catch; mfwd; rewrite Ho; mfwd; reflexivity.
Qed.

Lemma instructor_reads_unrendered (w : World) (caller id : string) (f : PartFile)
    (part : Part) :
  partFiles w !! id = Some f → parts w !! pf_partId f = Some part →
  part_instructorId part = caller → pf_renderStatus f ≠ COMPLETED →
  UploadService.getSecurePdf caller id w = (Throw processing_error, w).
Proof.
  intros Hf Hpart Hown Hstatus. apply String.eqb_eq in Hown.
  unfold UploadService.getSecurePdf, UploadService.lookupWithAccess.
  mfwd. simpl. rewrite Hf. mfwd. rewrite Hpart. mfwd. rewrite Hown. simpl. mfwd.
  destruct (enrollments w !! _); mfwd; rewrite bool_decide_eq_false_2 by done;
    cbn [negb]; mfwd; reflexivity.
Qed.

Lemma staged_key_not_destination (fileId ext : string) :
  staged_key fileId ext ≠ PdfWorker.destinationPathOf fileId.
Proof. unfold staged_key, PdfWorker.destinationPathOf. simpl. discriminate. Qed.

(** X13: the secure path from end to end.  The instructor of the course
    uploads an accepted document that is not to be published directly, under
    a fresh id.  The upload answers QUEUED and leaves one job on the queue;
    until the job has run, [getSecurePdf] answers 423.  When the worker
    then runs that job and the collaborators do their part, it ends
    normally, and [getSecurePdf] serves the watermarked bytes to the
    instructor as [<name>.pdf], while the metadata endpoint reports
    COMPLETED, the title written by the worker and the number of pages of
    the document. *)
Theorem secure_upload_is_served_after_render
    (w : World) (caller lessonId : string) (file : MulterFile) (title : option string)
    (isSecureStr : option SecureArg) (uuid : string) (part : Part)
    (env : WorkerEnv) (job_id : option string) (doc : PdfDoc) (out : bytes) :
  bunnyConfigured w = true →
  fileFilter uploadPdf_mimes file = Ok true →
  parts w !! lessonId = Some part → part_instructorId part = caller →
  secure_requested file isSecureStr →
  partFiles w !! uuid = None →
  collaborators_work env (lesson_job file uuid) (buffer file) doc out →
  let job := lesson_job file uuid in
  let name := path_parse_name (originalname file) +:+ ".pdf" in
  let w1 := exec (UploadService.uploadLessonPdf caller lessonId file title isSecureStr uuid) w in
  let w2 := exec (PdfWorker.pdfWorker env job_id job) w1 in
  UploadService.uploadLessonPdf caller lessonId file title isSecureStr uuid w
  = (Ok (Queued uuid), w1) ∧
  pdfQueue w1 = pdfQueue w ++ [("watermark-pdf", job)] ∧
  UploadService.getSecurePdf caller uuid w1 = (Throw processing_error, w1) ∧
  PdfWorker.pdfWorker env job_id job w1 = (Ok tt, w2) ∧
  UploadService.getSecurePdf caller uuid w2
  = (Ok {| stream := out; contentType := "application/pdf"; sr_filename := name |}, w2) ∧
  UploadService.getDocumentMetadata caller uuid w2
  = (Ok {| md_title := job_title job; md_displayName := name;
           md_pageCount := Z.of_nat (length doc); md_renderStatus := COMPLETED;
           md_isSecure := true; md_id := uuid |}, w2).
Proof.
  intros Hconf Hfilter Hpart Hown Hsecure Hfresh Hwork job name w1 w2.
  assert (UploadService.includes UploadService.allowedMimes (mimetype file) = true)
    as Hmime.
  { unfold fileFilter in Hfilter.
    by destruct (UploadService.includes uploadPdf_mimes (mimetype file)) eqn:Hin. }
  destruct (uploadLessonPdf_secure_run w caller lessonId file title isSecureStr uuid part
              Hconf Hmime Hpart Hown Hsecure Hfresh)
    as (w1' & f & Hupload & Hrows & Hid & Hpid & Htitle & Hname & Hkey & Hstatus
        & Hsec & Hpages & Hbunny & Hqueue & Hparts & Husers & Henr & Hlocks).
  assert (w1 = w1') as Hw1 by (subst w1; unfold exec; by rewrite Hupload).
  clearbody w1. subst w1'.
  assert (partFiles w1 !! uuid = Some f) as Hf by (rewrite Hrows; apply lookup_insert_eq).
  assert (parts w1 !! pf_partId f = Some part) as Hpart1 by (by rewrite Hparts, Hpid).
  split; [exact Hupload |]. split; [exact Hqueue |].
  split; [apply (instructor_reads_unrendered w1 caller uuid f part); try done;
          by rewrite Hstatus |].
  set (key := staged_key uuid (PdfWorker.inferExtension (Some (mimetype file))
                                 (Some (originalname file)))) in *.
  set (o := {| so_zone := PrivateZone; so_body := buffer file;
               so_mimetype := mimetype file |}) in *.
  assert (bunny w1 !! key = Some o) as Hstaged by (rewrite Hbunny; apply lookup_insert_eq).
  destruct (pdfWorker_run_completes env job_id job w1 key f o doc out eq_refl
              (staged_key_not_destination _ _) Hf Hstaged Hwork)
    as (w2' & Hrun & Hrows2 & Hbunny2).
  assert (partFiles w2' !! uuid
          = Some (set_completed (PdfWorker.destinationPathOf uuid) (job_title job)
                    (Z.of_nat (length doc)) (set_renderStatus PROCESSING f))) as Hrow2
    by (rewrite Hrows2; apply lookup_insert_eq).
  assert (bunny w2' !! PdfWorker.destinationPathOf uuid = Some (secured_object out))
    as Hdest.
  { rewrite Hbunny2, lookup_delete_ne by apply staged_key_not_destination.
    apply lookup_insert_eq. }
  assert (w2 = w2') as Hw2 by (subst w2; unfold exec; by rewrite Hrun).
  clearbody w2. subst w2'.
  split; [exact Hrun |].
  pose proof (worker_frame_pdfWorker w1 env job_id job w1) as Hframe.
  unfold exec in Hframe. rewrite Hrun in Hframe. simpl in Hframe.
  destruct Hframe as (_ & _ & _ & _ & _ & Hparts2 & _); [by repeat split |].
  set (f2 := set_completed _ _ _ _) in Hrow2.
  assert (parts w2 !! pf_partId f2 = Some part) as Hpart2 by (by rewrite Hparts2).
  destruct (instructor_reads_completed w2 caller uuid f2 part (secured_object out)
              (path_parse_name (originalname file)) Hrow2 Hpart2 Hown eq_refl Hdest Hname)
    as [Hpdf Hmeta].
  rewrite Hpdf, Hmeta. subst f2. simpl. by rewrite Hsec, Hid.
Qed.

Lemma secure_upload_is_served_after_render_witness :
  bunnyConfigured campus = true ∧
  fileFilter uploadPdf_mimes pdf_file = Ok true ∧
  parts campus !! "part-1"
  = Some {| part_courseId := "course-1"; part_instructorId := "instructor-1";
            part_courseIsFree := false |} ∧
  secure_requested pdf_file (Some (SecBool true)) ∧
  partFiles campus !! "f1" = None ∧
  collaborators_work healthy_env (lesson_job pdf_file "f1") (buffer pdf_file)
    notes_doc notes_out ∧
  UploadService.uploadLessonPdf "instructor-1" "part-1" pdf_file (Some "Notes")
    (Some (SecBool true)) "f1" campus
  = (Ok (Queued "f1"), lesson_uploaded) ∧
  UploadService.getSecurePdf "instructor-1" "f1" lesson_uploaded
  = (Throw processing_error, lesson_uploaded) ∧
  PdfWorker.pdfWorker healthy_env (Some "1") (lesson_job pdf_file "f1") lesson_uploaded
  = (Ok tt, exec (PdfWorker.pdfWorker healthy_env (Some "1") (lesson_job pdf_file "f1"))
              lesson_uploaded) ∧
  UploadService.getSecurePdf "instructor-1" "f1"
    (exec (PdfWorker.pdfWorker healthy_env (Some "1") (lesson_job pdf_file "f1"))
       lesson_uploaded)
  = (Ok {| stream := notes_out; contentType := "application/pdf";
           sr_filename := "lecture-notes.pdf" |},
     exec (PdfWorker.pdfWorker healthy_env (Some "1") (lesson_job pdf_file "f1"))
       lesson_uploaded).
Proof.
  assert (secure_requested pdf_file (Some (SecBool true))) as Hsecure
    by (right; by left).
  split; [reflexivity |]. split; [reflexivity |]. split; [reflexivity |].
  split; [exact Hsecure |]. split; [reflexivity |]. split; [exact healthy_env_works |].
  destruct (secure_upload_is_served_after_render campus "instructor-1" "part-1" pdf_file
              (Some "Notes") (Some (SecBool true)) "f1" _ healthy_env (Some "1")
              notes_doc notes_out eq_refl eq_refl eq_refl eq_refl Hsecure eq_refl
              healthy_env_works)
    as (Hupload & _ & Hlocked & Hrun & Hpdf & _).
  split; [exact Hupload |]. split; [exact Hlocked |]. split; [exact Hrun |]. exact Hpdf.
Defined.

(** ** Access to a rendered asset *)

(** The access decision shared by the three read endpoints, for a caller
    who is neither the instructor of the course nor an administrator and
    who has an enrollment that gives access. *)
Lemma lookupWithAccess_student (w : World) (caller id : string) (f : PartFile)
    (part : Part) (e : Enrollment) :
  partFiles w !! id = Some f → parts w !! pf_partId f = Some part →
  part_instructorId part ≠ caller →
  (∀ u, users w !! caller = Some u → role u ≠ "ADMIN") →
  enrollments w !! (caller, part_courseId part) = Some e →
  part_courseIsFree part = true ∨ enr_status e = "ACTIVE" →
  UploadService.lookupWithAccess caller id w = (Ok (f, Some e, false, false), w).
Proof.
  intros Hf Hpart Hother Hadmin He Haccess.
  apply String.eqb_neq in Hother.
  unfold UploadService.lookupWithAccess.
  mfwd. simpl. rewrite Hf. mfwd. rewrite Hpart. mfwd. rewrite He, Hother.
  assert (match users w !! caller with
          | Some u => String.eqb (role u) "ADMIN"
          | None => false
          end = false) as ->.
  { destruct (users w !! caller) as [u |]; [| done].
    apply String.eqb_neq. by apply Hadmin. }
  assert (part_courseIsFree part || String.eqb (enr_status e) "ACTIVE" = true) as Hacc.
  { destruct Haccess as [-> | ->%String.eqb_eq]; [done | apply orb_true_r]. }
  simpl. rewrite Hacc. mfwd. reflexivity.
Qed.

(** X14: a part lock set for the enrollment of a caller (who is neither
    the course's instructor nor an administrator, and whose enrollment
    gives access) blocks both stream endpoints with 403, before the render
    status or the page number is looked at; the metadata endpoint has no
    lock check and still answers. *)
Theorem part_lock_blocks_streams_not_metadata
    (w : World) (caller id : string) (f : PartFile) (part : Part) (e : Enrollment)
    (pageNumber : JsInt) :
  partFiles w !! id = Some f → parts w !! pf_partId f = Some part →
  part_instructorId part ≠ caller →
  (∀ u, users w !! caller = Some u → role u ≠ "ADMIN") →
  enrollments w !! (caller, part_courseId part) = Some e →
  part_courseIsFree part = true ∨ enr_status e = "ACTIVE" →
  partLocks w !! (enr_id e, pf_partId f) = Some true →
  UploadService.getRenderedPage caller id pageNumber w = (Throw locked_error, w) ∧
  UploadService.getSecurePdf caller id w = (Throw locked_error, w) ∧
  UploadService.getDocumentMetadata caller id w
  = (Ok {| md_title := pf_title f;
           md_displayName := or_string (pf_displayName f) (pf_title f);
           md_pageCount := pf_pageCount f; md_renderStatus := pf_renderStatus f;
           md_isSecure := pf_isSecure f; md_id := pf_id f |}, w).
Proof.
  intros Hf Hpart Hother Hadmin He Haccess Hlock.
  pose proof (lookupWithAccess_student w caller id f part e Hf Hpart Hother Hadmin He
                Haccess) as Hlookup.
  unfold UploadService.getRenderedPage, UploadService.getSecurePdf,
    UploadService.getDocumentMetadata.
  rewrite !(bind_ok _ _ _ _ _ Hlookup). cbv beta iota zeta. cbn [negb andb].
  unfold UploadService.checkPartAccessWithLocks. mfwd. rewrite Hlock. mfwd.
  by repeat split.
Qed.

Lemma part_lock_blocks_streams_not_metadata_witness :
  partFiles lesson_locked !! "f1" = Some completed_row ∧
  parts lesson_locked !! pf_partId completed_row
  = Some {| part_courseId := "course-1"; part_instructorId := "instructor-1";
            part_courseIsFree := false |} ∧
  "instructor-1" ≠ "student-1" ∧
  (∀ u, users lesson_locked !! "student-1" = Some u → role u ≠ "ADMIN") ∧
  enrollments lesson_locked !! ("student-1", "course-1")
  = Some {| enr_id := "enr-1"; enr_status := "ACTIVE" |} ∧
  partLocks lesson_locked !! ("enr-1", pf_partId completed_row) = Some true ∧
  UploadService.getRenderedPage "student-1" "f1" (Int 1) lesson_locked
  = (Throw locked_error, lesson_locked) ∧
  UploadService.getSecurePdf "student-1" "f1" lesson_locked
  = (Throw locked_error, lesson_locked).
Proof.
  assert (partFiles lesson_locked !! "f1" = Some completed_row) as Hf
    by (vm_compute; reflexivity).
  assert ("instructor-1" ≠ "student-1") as Hother by discriminate.
  assert (∀ u, users lesson_locked !! "student-1" = Some u → role u ≠ "ADMIN") as Hadmin
    by (intros u Hu; vm_compute in Hu; discriminate Hu).
  split; [exact Hf |]. split; [reflexivity |]. split; [exact Hother |].
  split; [exact Hadmin |]. split; [reflexivity |]. split; [reflexivity |].
  destruct (part_lock_blocks_streams_not_metadata lesson_locked "student-1" "f1"
              completed_row _ _ (Int 1) Hf eq_refl Hother Hadmin eq_refl
              (or_intror eq_refl) eq_refl) as (Hpage & Hpdf & _).
  by split.
Defined.

(** X15: what [getRenderedPage] serves.  A successful call changes nothing
    and returns, as [image/png], the object stored under
    [<storageKey>/page-<n>.png] of an asset whose metadata the same caller
    can read; a numeric page number is then within [1, pageCount].  The
    render status of the asset is not looked at. *)
Theorem getRenderedPage_serves_stored_page
    (w w' : World) (caller id : string) (pageNumber : JsInt) (sr : StreamResult) :
  UploadService.getRenderedPage caller id pageNumber w = (Ok sr, w') →
  w' = w ∧
  ∃ f o, partFiles w !! id = Some f ∧
         bunny w !! (pf_storageKey f +:+ "/page-" +:+ JsInt_toString pageNumber +:+ ".png")
         = Some o ∧
         sr = {| stream := so_body o; contentType := "image/png";
                 sr_filename := "page-" +:+ JsInt_toString pageNumber +:+ ".png" |} ∧
         (∀ z, pageNumber = Int z → 1 ≤ z ≤ pf_pageCount f) ∧
         fst (UploadService.getDocumentMetadata caller id w)
         = Ok {| md_title := pf_title f;
                 md_displayName := or_string (pf_displayName f) (pf_title f);
                 md_pageCount := pf_pageCount f; md_renderStatus := pf_renderStatus f;
                 md_isSecure := pf_isSecure f; md_id := pf_id f |}.
Proof.
  intros Hrun. unfold UploadService.getRenderedPage in Hrun.
  apply bind_Ok_inv in Hrun as ([[[partFile enrollment] isInstructor] isAdmin] & w1
                                & Hlookup & Hrun).
  destruct (lookupWithAccess_run _ _ _ _ _ Hlookup) as [-> Hrow]. simpl in Hrow.
  apply bind_Ok_inv in Hrun as ([] & w2 & Hlock & Hrun).
  assert (w2 = w) as ->.
  { destruct enrollment as [e |]; [destruct (negb isInstructor && negb isAdmin) |].
    - by destruct (checkPartAccessWithLocks_run _ _ _ _ _ _ Hlock).
    - by apply ret_inv in Hlock as [_ ->].
    - by apply ret_inv in Hlock as [_ ->]. }
  apply bind_Ok_inv in Hrun as ([] & w3 & Hbounds & Hrun).
  apply throw_if_Ok_inv in Hbounds as [Hbounds ->].
  unfold downloadStream in Hrun. minv Hrun.
  split; [done |]. eexists _, _. split; [exact Hrow |].
  split; [eassumption |]. split; [reflexivity |]. split.
  - intros z ->. simpl in Hbounds. apply orb_false_iff in Hbounds as [H1 H2].
    apply Z.ltb_ge in H1, H2. lia.
  - unfold UploadService.getDocumentMetadata.
    rewrite (bind_ok _ _ _ _ _ Hlookup). reflexivity.
Qed.

Lemma getRenderedPage_serves_stored_page_witness :
  UploadService.getRenderedPage "student-1" "f1" (Int 1) lesson_with_page
  = (Ok {| stream := so_body page_image; contentType := "image/png";
           sr_filename := "page-1.png" |}, lesson_with_page) ∧
  ∃ f o, partFiles lesson_with_page !! "f1" = Some f ∧
         bunny lesson_with_page
           !! (pf_storageKey f +:+ "/page-" +:+ JsInt_toString (Int 1) +:+ ".png")
         = Some o ∧
         (∀ z, Int 1 = Int z → 1 ≤ z ≤ pf_pageCount f).
Proof.
  assert (UploadService.getRenderedPage "student-1" "f1" (Int 1) lesson_with_page
          = (Ok {| stream := so_body page_image; contentType := "image/png";
                   sr_filename := "page-1.png" |}, lesson_with_page)) as Hrun
    by (vm_compute; reflexivity).
  split; [exact Hrun |].
  destruct (getRenderedPage_serves_stored_page _ _ _ _ _ _ Hrun)
    as (_ & f & o & Hf & Ho & _ & Hrange & _).
  by exists f, o.
Defined.

(** X16: what [getSecurePdf] answers.  It never changes anything.  What it
    serves is the object stored under the storage key of a COMPLETED asset,
    as [application/pdf].  Otherwise the answer is one of: 404 for an
    unknown asset, 403 without access, 403 for a locked part, 423 while the
    asset is not COMPLETED, 404 when the storage has no object under the key
    (the storage error itself is not passed on); or the failure of the join
    on an asset row whose part is missing. *)
Theorem getSecurePdf_outcome (w : World) (caller id : string) :
  let '(r, w') := UploadService.getSecurePdf caller id w in
  w' = w ∧
  match r with
  | Ok sr =>
      ∃ f o, partFiles w !! id = Some f ∧ pf_renderStatus f = COMPLETED ∧
             bunny w !! pf_storageKey f = Some o ∧
             stream sr = so_body o ∧ contentType sr = "application/pdf"
  | Throw e =>
      e = AppError "Document not found" 404 ∧ partFiles w !! id = None
      ∨ e = AppError "Access denied" 403
      ∨ e = locked_error
      ∨ (e = processing_error
         ∧ ∃ f, partFiles w !! id = Some f ∧ pf_renderStatus f ≠ COMPLETED)
      ∨ (e = AppError "File not found in storage" 404
         ∧ ∃ f, partFiles w !! id = Some f ∧ bunny w !! pf_storageKey f = None)
      ∨ (e = PrismaError "relation part missing"
         ∧ ∃ f, partFiles w !! id = Some f ∧ parts w !! pf_partId f = None)
  end.
Proof.
  destruct (UploadService.getSecurePdf caller id w) as [r w'] eqn:Hrun.
  unfold UploadService.getSecurePdf, UploadService.lookupWithAccess,
    UploadService.checkPartAccessWithLocks in Hrun.
  minv_any Hrun.
  all: simpl in *; split; [reflexivity |].
  all: repeat match goal with
         | H : negb (bool_decide _) = false |- _ =>
             apply negb_false_iff, bool_decide_eq_true in H
         | H : negb (bool_decide _) = true |- _ =>
             apply negb_true_iff, bool_decide_eq_false in H
         end.
  all: first
         [ by eexists _, _; eauto 10
         | by left
         | by right; left
         | by right; right; left
         | right; right; right; left; split; [reflexivity | by eauto]
         | right; right; right; right; left; split; [reflexivity | by eauto]
         | right; right; right; right; right; split; [reflexivity | by eauto] ].
Qed.

(** ** The single-request upload *)



Lemma instructor_getSecurePdf (w : World) (caller id : string) (f : PartFile)
    (part : Part) (o : StoredObject) :
  partFiles w !! id = Some f → parts w !! pf_partId f = Some part →
  part_instructorId part = caller →
  pf_renderStatus f = COMPLETED → bunny w !! pf_storageKey f = Some o →
  UploadService.getSecurePdf caller id w
  = (Ok {| stream := so_body o; contentType := "application/pdf";
           sr_filename := match pf_displayName f with
                          | Some d => if String.eqb d "" then pf_title f +:+ ".pdf" else d
                          | None => pf_title f +:+ ".pdf"
                          end |}, w).
Proof.
  intros Hf Hpart Hown Hdone Ho. apply String.eqb_eq in Hown.
  unfold UploadService.getSecurePdf, UploadService.lookupWithAccess.
  mfwd. simpl. rewrite Hf. mfwd. rewrite Hpart. mfwd. rewrite Hown. simpl. mfwd.
  rewrite Hdone.
  destruct (enrollments w !! _); mfwd; rewrite bool_decide_eq_true_2 by done;
    cbn [negb]; mfwd; unfold try_catch; mfwd; rewrite Ho; mfwd; reflexivity.
Qed.

(** The downloadable path of [uploadLessonPdf] run to its end. *)
Lemma uploadLessonPdf_public_run
    (w : World) (caller lessonId : string) (file : MulterFile) (title : option string)
    (a : SecureArg) (uuid : string) (part : Part) :
  bunnyConfigured w = true → mimetype file = "application/pdf" →
  parts w !! lessonId = Some part → part_instructorId part = caller →
  partFiles w !! uuid = None →
  a ≠ SecBool true → a ≠ SecString "true" →
  let key := "/public/" +:+ lessonId +:+ "/" +:+ uuid +:+ "/" +:+ originalname file in
  ∃ w1 record,
    UploadService.uploadLessonPdf caller lessonId file title (Some a) uuid w
    = (Ok (Created record), w1) ∧
    pf_id record = uuid ∧ pf_partId record = lessonId ∧
    pf_title record = or_string title (originalname file) ∧
    pf_displayName record = None ∧ pf_storageKey record = key ∧
    pf_renderStatus record = COMPLETED ∧ pf_isSecure record = false ∧
    pf_pageCount record = 0 ∧
    partFiles w1 = <[uuid := record]> (partFiles w) ∧
    bunny w1 = <[key := {| so_zone := PublicZone; so_body := buffer file;
                           so_mimetype := mimetype file |}]> (bunny w) ∧
    pdfQueue w1 = pdfQueue w ∧ parts w1 = parts w.
Proof.
  intros Hconf Hmime Hpart Hown Hfresh Hbool Hstring key.
  assert (secureArg_is_true a = false) as Harg.
  { destruct a as [s | []]; simpl; [| done | done].
    apply String.eqb_neq. intros ->. done. }
  apply String.eqb_eq in Hown.
  unfold UploadService.uploadLessonPdf, UploadService.validateConfig.
  cbv zeta. rewrite Harg, Hmime. simpl orb. cbv iota.
  mfwd. rewrite Hconf. cbn [negb]. simpl. mfwd. simpl. rewrite Hpart. mfwd.
  rewrite Hown. cbn [negb]. mfwd. simpl. rewrite Hfresh. mfwd.
  eexists _, _. split; [reflexivity |]. simpl. rewrite Hmime. by repeat split.
Qed.

(** X18: the direct publication.  For a PDF, every supplied [isSecure]
    value other than the boolean [true] and the string ['true'] (so also
    ['TRUE'], ['1'] or [false]) takes the downloadable path: the
    instructor's upload under a fresh id stores the bytes in the public zone
    under [/public/<part>/<id>/<original name>], creates the asset row
    COMPLETED with that key, not secure, without display name, and queues
    nothing; [getSecurePdf] then serves these bytes to the instructor as
    [<title>.pdf]. *)
Theorem uploadLessonPdf_direct_publish
    (w : World) (caller lessonId : string) (file : MulterFile) (title : option string)
    (a : SecureArg) (uuid : string) (part : Part) :
  bunnyConfigured w = true → mimetype file = "application/pdf" →
  parts w !! lessonId = Some part → part_instructorId part = caller →
  partFiles w !! uuid = None →
  a ≠ SecBool true → a ≠ SecString "true" →
  let key := "/public/" +:+ lessonId +:+ "/" +:+ uuid +:+ "/" +:+ originalname file in
  ∃ w1 record,
    UploadService.uploadLessonPdf caller lessonId file title (Some a) uuid w
    = (Ok (Created record), w1) ∧
    pf_id record = uuid ∧ pf_partId record = lessonId ∧
    pf_title record = or_string title (originalname file) ∧
    pf_displayName record = None ∧ pf_storageKey record = key ∧
    pf_renderStatus record = COMPLETED ∧ pf_isSecure record = false ∧
    pf_pageCount record = 0 ∧
    partFiles w1 = <[uuid := record]> (partFiles w) ∧
    bunny w1 = <[key := {| so_zone := PublicZone; so_body := buffer file;
                           so_mimetype := mimetype file |}]> (bunny w) ∧
    pdfQueue w1 = pdfQueue w ∧
    UploadService.getSecurePdf caller uuid w1
    = (Ok {| stream := buffer file; contentType := "application/pdf";
             sr_filename := or_string title (originalname file) +:+ ".pdf" |}, w1).
Proof.
  intros Hconf Hmime Hpart Hown Hfresh Hbool Hstring key.
  destruct (uploadLessonPdf_public_run w caller lessonId file title a uuid part
              Hconf Hmime Hpart Hown Hfresh Hbool Hstring)
    as (w1 & record & Hrun & Hid & Hpid & Htitle & Hdisp & Hkey & Hstatus & Hsec
        & Hpages & Hrows & Hbunny & Hqueue & Hparts).
  exists w1, record. repeat (split; [done |]).
  set (o := {| so_zone := PublicZone; so_body := buffer file;
               so_mimetype := mimetype file |}) in *.
  rewrite (instructor_getSecurePdf w1 caller uuid record part o).
  - by rewrite Hdisp, Htitle.
  - rewrite Hrows. apply lookup_insert_eq.
  - by rewrite Hparts, Hpid.
  - exact Hown.
  - exact Hstatus.
  - rewrite Hbunny, Hkey. apply lookup_insert_eq.
Qed.

Lemma uploadLessonPdf_direct_publish_witness :
  bunnyConfigured campus = true ∧ mimetype pdf_file = "application/pdf" ∧
  parts campus !! "part-1"
  = Some {| part_courseId := "course-1"; part_instructorId := "instructor-1";
            part_courseIsFree := false |} ∧
  partFiles campus !! "f2" = None ∧
  SecString "TRUE" ≠ SecBool true ∧ SecString "TRUE" ≠ SecString "true" ∧
  ∃ w1 record,
    UploadService.uploadLessonPdf "instructor-1" "part-1" pdf_file (Some "Notes")
      (Some (SecString "TRUE")) "f2" campus
    = (Ok (Created record), w1) ∧
    pf_storageKey record = "/public/part-1/f2/lecture-notes.pdf" ∧
    pf_renderStatus record = COMPLETED ∧ pf_isSecure record = false ∧
    pdfQueue w1 = pdfQueue campus ∧
    UploadService.getSecurePdf "instructor-1" "f2" w1
    = (Ok {| stream := buffer pdf_file; contentType := "application/pdf";
             sr_filename := "Notes.pdf" |}, w1).
Proof.
  assert (SecString "TRUE" ≠ SecBool true) as Hbool by discriminate.
  assert (SecString "TRUE" ≠ SecString "true") as Hstring by discriminate.
  split; [reflexivity |]. split; [reflexivity |]. split; [reflexivity |].
  split; [reflexivity |]. split; [exact Hbool |]. split; [exact Hstring |].
  destruct (uploadLessonPdf_direct_publish campus "instructor-1" "part-1" pdf_file
              (Some "Notes") (SecString "TRUE") "f2" _ eq_refl eq_refl eq_refl eq_refl
              eq_refl Hbool Hstring)
    as (w1 & record & Hrun & _ & _ & _ & _ & Hkey & Hstatus & Hsec & _ & _ & _
        & Hqueue & Hpdf).
  exists w1, record. by repeat split.
Defined.

(** ** The queue and the asset table *)

Lemma pipeline_ok_queued (w w' : World) (id : string) (row : PartFile) (job : PdfJobData) :
  pipeline_ok w → partFiles w !! id = None →
  partFiles w' = <[id := row]> (partFiles w) →
  pdfQueue w' = pdfQueue w ++ [("watermark-pdf", job)] →
  pf_id row = id → pf_isSecure row = true → partFileId job = id →
  pipeline_ok w'.
Proof.
  intros [Hjobs Hrows] Hfresh Hpf Hq Hid Hsec Hjob. split.
  - intros j Hj. rewrite Hq in Hj. apply elem_of_app in Hj as [Hj | Hj].
    + destruct (Hjobs j Hj) as (Hname & f & Hf & Hfsec). split; [done |].
      exists f. split; [| done]. rewrite Hpf, lookup_insert_ne; [done |].
      intros Heq. rewrite <- Heq in Hf. by rewrite Hfresh in Hf.
    + apply list_elem_of_singleton in Hj as ->. split; [done |]. simpl.
      exists row. by rewrite Hpf, Hjob, lookup_insert_eq.
  - intros id' f. rewrite Hpf. destruct (decide (id = id')) as [<- | Hne].
    + rewrite lookup_insert_eq. intros [= <-]. split; [done |].
      intros Hpub. by rewrite Hsec in Hpub.
    + rewrite lookup_insert_ne by done. apply Hrows.
Qed.

Lemma pipeline_ok_published (w w' : World) (id : string) (row : PartFile) :
  pipeline_ok w → partFiles w !! id = None →
  partFiles w' = <[id := row]> (partFiles w) → pdfQueue w' = pdfQueue w →
  pf_id row = id → published_ok row →
  pipeline_ok w'.
Proof.
  intros [Hjobs Hrows] Hfresh Hpf Hq Hid Hpub. split.
  - intros j Hj. rewrite Hq in Hj.
    destruct (Hjobs j Hj) as (Hname & f & Hf & Hfsec). split; [done |].
    exists f. split; [| done]. rewrite Hpf, lookup_insert_ne; [done |].
    intros Heq. rewrite <- Heq in Hf. by rewrite Hfresh in Hf.
  - intros id' f. rewrite Hpf. destruct (decide (id = id')) as [<- | Hne].
    + rewrite lookup_insert_eq. by intros [= <-].
    + rewrite lookup_insert_ne by done. apply Hrows.
Qed.

(** The states an ingestion path can end in: nothing added to the asset
    table and the queue, a secure asset with its job, or a published asset. *)
Ltac pipeline_cases Hw :=
  simpl in *;
  first
    [ exact Hw
    | eapply pipeline_ok_queued;
      [exact Hw | eassumption | reflexivity | reflexivity | reflexivity | reflexivity
       | reflexivity]
    | eapply pipeline_ok_published;
      [exact Hw | eassumption | reflexivity | reflexivity | reflexivity
       | intros _; split; [reflexivity | split; [reflexivity | eexists; reflexivity]]] ].

Lemma pipeline_ok_assembleFile dir total :
  preserves pipeline_ok (ChunkedUploadService.assembleFile dir total).
Proof.
  unfold ChunkedUploadService.assembleFile. pres_assets.
  induction (loopIndices total) as [| i rest IH]; simpl; [apply preserves_ret |].
  apply preserves_bind; [pres_assets |]. intros chunkData.
  apply preserves_bind; [pres_assets |]. intros u. exact IH.
Qed.

Lemma pipeline_ok_cleanupSession uploadId :
  preserves pipeline_ok (ChunkedUploadService.cleanupSession uploadId).
Proof. unfold ChunkedUploadService.cleanupSession. pres_assets. Qed.

Lemma pipeline_ok_storeAsset s fileBuffer fileId :
  preserves pipeline_ok (ChunkedUploadService.storeAsset s fileBuffer fileId).
Proof.
  intros w Hw.
  destruct (ChunkedUploadService.storeAsset s fileBuffer fileId w) as [r w'] eqn:Hrun.
  unfold ChunkedUploadService.storeAsset in Hrun. minv_any Hrun.
  all: pipeline_cases Hw.
Qed.

Lemma pipeline_ok_redis_storeAsset label s fileBuffer fileId :
  preserves pipeline_ok (RedisChunkedUploadService.storeAsset label s fileBuffer fileId).
Proof.
  intros w Hw.
  destruct (RedisChunkedUploadService.storeAsset label s fileBuffer fileId w)
    as [r w'] eqn:Hrun.
  unfold RedisChunkedUploadService.storeAsset in Hrun. minv_any Hrun.
  all: pipeline_cases Hw.
Qed.

Lemma pipeline_ok_uploadLessonPdf caller lessonId file title isSecureStr uuid :
  preserves pipeline_ok
    (UploadService.uploadLessonPdf caller lessonId file title isSecureStr uuid).
Proof.
  intros w Hw.
  destruct (UploadService.uploadLessonPdf caller lessonId file title isSecureStr uuid w)
    as [r w'] eqn:Hrun.
  unfold UploadService.uploadLessonPdf, UploadService.validateConfig,
    UploadService.getExtension in Hrun.
  minv_any Hrun.
  all: pipeline_cases Hw.
Qed.

Lemma pipeline_ok_finalizeUpload caller input uuid :
  preserves pipeline_ok (ChunkedUploadService.finalizeUpload caller input uuid).
Proof.
  unfold ChunkedUploadService.finalizeUpload. pres_assets.
  - apply pipeline_ok_assembleFile.
  - apply pipeline_ok_storeAsset.
  - apply pipeline_ok_cleanupSession.
Qed.

Lemma pipeline_ok_redis_finalizeUpload label caller input uuid :
  preserves pipeline_ok (RedisChunkedUploadService.finalizeUpload label caller input uuid).
Proof.
  unfold RedisChunkedUploadService.finalizeUpload, RedisChunkedUploadService.redis_get,
    RedisChunkedUploadService.redis_del.
  pres_assets.
  - apply pipeline_ok_assembleFile.
  - apply pipeline_ok_redis_storeAsset.
Qed.

Lemma pipeline_ok_pdfWorker (env : WorkerEnv) (job_id : option string)
    (data : PdfJobData) (w : World) :
  pipeline_ok w → (∃ name, (name, data) ∈ pdfQueue w) →
  pipeline_ok (exec (PdfWorker.pdfWorker env job_id data) w).
Proof.
  intros [Hjobs Hrows] [name Hin].
  pose proof (worker_frame_pdfWorker w env job_id data w) as Hframe.
  destruct Hframe as (_ & _ & _ & _ & Hq & _); [by repeat split |].
  fold (exec (PdfWorker.pdfWorker env job_id data) w) in Hq.
  destruct (pdfWorker_row_shape env job_id data w)
    as [Hsame | (f & f' & Hf & Hpf & Hshape)].
  - split.
    + intros j Hj. rewrite Hq in Hj. unfold queued_job_ok. rewrite Hsame.
      by apply Hjobs.
    + intros id g. rewrite Hsame. apply Hrows.
  - destruct (Hjobs _ Hin) as (_ & f0 & Hf0 & Hsec). simpl in Hf0.
    assert (f0 = f) as -> by congruence.
    assert (pf_id f' = pf_id f ∧ pf_isSecure f' = true) as [Hid' Hsec'].
    { destruct Hshape as [-> | [-> | [-> | (title & n & ->)]]]; by split. }
    split.
    + intros j Hj. rewrite Hq in Hj.
      destruct (Hjobs j Hj) as (Hname & g & Hg & Hgsec). split; [done |].
      rewrite Hpf. destruct (decide (partFileId data = partFileId j.2)) as [<- | Hne].
      * exists f'. by rewrite lookup_insert_eq.
      * exists g. by rewrite lookup_insert_ne.
    + intros id g. rewrite Hpf.
      destruct (decide (partFileId data = id)) as [<- | Hne].
      * rewrite lookup_insert_eq. intros [= <-].
        split; [rewrite Hid'; by apply Hrows |].
        intros Hpub. by rewrite Hsec' in Hpub.
      * rewrite lookup_insert_ne by done. apply Hrows.
Qed.

Lemma reachable_pipeline_ok (b : Backend) (w : World) : reachable b w → pipeline_ok w.
Proof.
  induction 1 as [w (_ & _ & _ & _ & Hpf & _ & Hq & _) | w op Hreach IH Hen].
  - split.
    + intros j Hj. rewrite Hq in Hj. by apply elem_of_nil in Hj.
    + intros id f Hf. rewrite Hpf in Hf. by rewrite lookup_empty in Hf.
  - destruct op as [caller input uuid now | input | caller input uuid | now sid
                    | caller input uuid now | input | label caller input uuid | sid
                    | caller lessonId file title isSecureStr uuid | env job_id data];
      simpl.
    + assert (preserves pipeline_ok (ChunkedUploadService.initUpload caller input uuid now))
        as Hp by (unfold ChunkedUploadService.initUpload; pres_assets).
      by apply Hp.
    + assert (preserves pipeline_ok (ChunkedUploadService.uploadChunk input))
        as Hp by (unfold ChunkedUploadService.uploadChunk; pres_assets).
      by apply Hp.
    + by apply pipeline_ok_finalizeUpload.
    + assert (preserves pipeline_ok (ChunkedUploadService.sweepSession now sid))
        as Hp by (unfold ChunkedUploadService.sweepSession; pres_assets;
                  apply pipeline_ok_cleanupSession).
      by apply Hp.
    + assert (preserves pipeline_ok
                (RedisChunkedUploadService.initUpload caller input uuid now))
        as Hp by (unfold RedisChunkedUploadService.initUpload,
                    RedisChunkedUploadService.redis_setex; pres_assets).
      by apply Hp.
    + assert (preserves pipeline_ok (RedisChunkedUploadService.uploadChunk input))
        as Hp by (unfold RedisChunkedUploadService.uploadChunk,
                    RedisChunkedUploadService.redis_setex,
                    RedisChunkedUploadService.redis_get; pres_assets).
      by apply Hp.
    + by apply pipeline_ok_redis_finalizeUpload.
    + exact IH.
    + by apply pipeline_ok_uploadLessonPdf.
    + by apply pipeline_ok_pdfWorker.
Qed.

(** X19: in every reachable state the queue and the asset table fit
    together.  Every queued job is a [watermark-pdf] job for an asset that
    exists and has its security flag set: an asset without the flag is never
    put on the queue.  Every asset without the flag is, and stays, COMPLETED
    under a key of the public zone with page count 0: no run of the worker
    resets or fails it. *)
Theorem queued_jobs_target_secure_assets (b : Backend) (w : World) :
  reachable b w →
  (∀ name data, (name, data) ∈ pdfQueue w →
     name = "watermark-pdf" ∧
     ∃ f, partFiles w !! partFileId data = Some f ∧ pf_isSecure f = true) ∧
  (∀ id f, partFiles w !! id = Some f → pf_isSecure f = false →
     pf_id f = id ∧ pf_renderStatus f = COMPLETED ∧ pf_pageCount f = 0 ∧
     ∃ a, pf_storageKey f = "/public/" +:+ a).
Proof.
  intros Hreach. destruct (reachable_pipeline_ok b w Hreach) as [Hjobs Hrows]. split.
  - intros name data Hin. exact (Hjobs (name, data) Hin).
  - intros id f Hf Hpub. destruct (Hrows id f Hf) as [Hid Hsettled].
    split; [exact Hid |]. by apply Hsettled.
Qed.

Lemma queued_jobs_target_secure_assets_witness :
  reachable InMemorySessions lesson_redelivered ∧
  (∀ name data, (name, data) ∈ pdfQueue lesson_redelivered →
     name = "watermark-pdf" ∧
     ∃ f, partFiles lesson_redelivered !! partFileId data = Some f ∧
          pf_isSecure f = true).
Proof.
  split; [apply lesson_redelivered_reachable |].
  exact (proj1 (queued_jobs_target_secure_assets InMemorySessions lesson_redelivered
                  (lesson_redelivered_reachable _))).
Defined.

(** ** Order numbers *)

(** [lastOrder] is an upper bound of the order numbers of the part, and is
    at least 1 when they all are. *)
Lemma lastOrder_bounds (files : gmap string PartFile) (pid : string) :
  (∀ id f, files !! id = Some f → pf_partId f = pid →
           ∃ m, lastOrder files pid = Some m ∧ pf_order f ≤ m) ∧
  ((∀ id f, files !! id = Some f → 1 ≤ pf_order f) →
   ∀ m, lastOrder files pid = Some m → 1 ≤ m).
Proof.
  unfold lastOrder.
  apply (map_fold_weak_ind
           (λ r m, (∀ id f, m !! id = Some f → pf_partId f = pid →
                            ∃ x, r = Some x ∧ pf_order f ≤ x) ∧
                   ((∀ id f, m !! id = Some f → 1 ≤ pf_order f) →
                    ∀ x, r = Some x → 1 ≤ x))).
  - split; [| done]. intros id f Hf. by rewrite lookup_empty in Hf.
  - intros i x m r Hi [IHup IHlow]. split.
    + intros id f Hf Hpid. destruct (decide (i = id)) as [<- | Hne].
      * rewrite lookup_insert_eq in Hf. injection Hf as ->.
        apply String.eqb_eq in Hpid. rewrite Hpid.
        destruct r as [o |]; eexists; (split; [reflexivity |]); lia.
      * rewrite lookup_insert_ne in Hf by done.
        destruct (IHup id f Hf Hpid) as (o & -> & Ho).
        destruct (String.eqb (pf_partId x) pid); eexists; (split; [reflexivity |]); lia.
    + intros Hall o Ho.
      assert (1 ≤ pf_order x) as Hx by (apply (Hall i); apply lookup_insert_eq).
      assert (∀ id f, m !! id = Some f → 1 ≤ pf_order f) as Hm.
      { intros id f Hf. apply (Hall id). rewrite lookup_insert_ne; [done |].
        intros <-. by rewrite Hi in Hf. }
      destruct (String.eqb (pf_partId x) pid); [| by apply IHlow].
      destruct r as [o' |]; injection Ho as <-; [| done].
      specialize (IHlow Hm o' eq_refl). lia.
Qed.

Lemma orders_ok_insert (w w' : World) (id : string) (row : PartFile) :
  orders_ok w → partFiles w !! id = None →
  partFiles w' = <[id := row]> (partFiles w) →
  pf_order row = or_zero (lastOrder (partFiles w) (pf_partId row)) + 1 →
  orders_ok w'.
Proof.
  intros [Hpos Hdistinct] Hfresh Hpf Horder.
  destruct (lastOrder_bounds (partFiles w) (pf_partId row)) as [Hup Hlow].
  assert (1 ≤ pf_order row) as Hrow.
  { rewrite Horder. destruct (lastOrder _ _) as [m |] eqn:Hlast; simpl; [| lia].
    specialize (Hlow Hpos m eq_refl). lia. }
  assert (∀ id' f, partFiles w !! id' = Some f → pf_partId f = pf_partId row →
                   pf_order f < pf_order row) as Hnew.
  { intros id' f Hf Hpid. destruct (Hup id' f Hf Hpid) as (m & Hm & Hle).
    rewrite Horder, Hm. simpl. lia. }
  split.
  - intros id' f. rewrite Hpf. destruct (decide (id = id')) as [<- | Hne].
    + rewrite lookup_insert_eq. by intros [= <-].
    + rewrite lookup_insert_ne by done. apply Hpos.
  - intros id1 id2 f1 f2. rewrite Hpf.
    destruct (decide (id = id1)) as [<- | Hne1], (decide (id = id2)) as [<- | Hne2];
      rewrite ?lookup_insert_eq, ?lookup_insert_ne by done.
    + done.
    + intros [= <-] Hf2 _ Hpid. symmetry in Hpid.
      specialize (Hnew id2 f2 Hf2 Hpid). lia.
    + intros Hf1 [= <-] _ Hpid. specialize (Hnew id1 f1 Hf1 Hpid). lia.
    + apply Hdistinct.
Qed.

Ltac orders_cases Hw :=
  simpl in *;
  first
    [ exact Hw
    | eapply orders_ok_insert; [exact Hw | eassumption | reflexivity | reflexivity] ].

Lemma orders_ok_storeAsset s fileBuffer fileId :
  preserves orders_ok (ChunkedUploadService.storeAsset s fileBuffer fileId).
Proof.
  intros w Hw.
  destruct (ChunkedUploadService.storeAsset s fileBuffer fileId w) as [r w'] eqn:Hrun.
  unfold ChunkedUploadService.storeAsset in Hrun. minv_any Hrun.
  all: orders_cases Hw.
Qed.

Lemma orders_ok_redis_storeAsset label s fileBuffer fileId :
  preserves orders_ok (RedisChunkedUploadService.storeAsset label s fileBuffer fileId).
Proof.
  intros w Hw.
  destruct (RedisChunkedUploadService.storeAsset label s fileBuffer fileId w)
    as [r w'] eqn:Hrun.
  unfold RedisChunkedUploadService.storeAsset in Hrun. minv_any Hrun.
  all: orders_cases Hw.
Qed.

Lemma orders_ok_uploadLessonPdf caller lessonId file title isSecureStr uuid :
  preserves orders_ok
    (UploadService.uploadLessonPdf caller lessonId file title isSecureStr uuid).
Proof.
  intros w Hw.
  destruct (UploadService.uploadLessonPdf caller lessonId file title isSecureStr uuid w)
    as [r w'] eqn:Hrun.
  unfold UploadService.uploadLessonPdf, UploadService.validateConfig,
    UploadService.getExtension in Hrun.
  minv_any Hrun.
  all: orders_cases Hw.
Qed.

Lemma orders_ok_assembleFile dir total :
  preserves orders_ok (ChunkedUploadService.assembleFile dir total).
Proof.
  unfold ChunkedUploadService.assembleFile. pres_assets.
  induction (loopIndices total) as [| i rest IH]; simpl; [apply preserves_ret |].
  apply preserves_bind; [pres_assets |]. intros chunkData.
  apply preserves_bind; [pres_assets |]. intros u. exact IH.
Qed.

Lemma orders_ok_cleanupSession uploadId :
  preserves orders_ok (ChunkedUploadService.cleanupSession uploadId).
Proof. unfold ChunkedUploadService.cleanupSession. pres_assets. Qed.

Lemma orders_ok_pdfWorker (env : WorkerEnv) (job_id : option string)
    (data : PdfJobData) :
  preserves orders_ok (PdfWorker.pdfWorker env job_id data).
Proof.
  intros w [Hpos Hdistinct].
  destruct (pdfWorker_row_shape env job_id data w)
    as [Hsame | (f & f' & Hf & Hpf & Hshape)]; unfold exec in *.
  - split; rewrite Hsame; done.
  - assert (pf_order f' = pf_order f ∧ pf_partId f' = pf_partId f) as [Ho Hp].
    { destruct Hshape as [-> | [-> | [-> | (title & n & ->)]]]; by split. }
    split.
    + intros id g. rewrite Hpf.
      destruct (decide (partFileId data = id)) as [<- | Hne].
      * rewrite lookup_insert_eq. intros [= <-]. rewrite Ho. by apply (Hpos _ _ Hf).
      * rewrite lookup_insert_ne by done. apply Hpos.
    + intros id1 id2 f1 f2. rewrite Hpf.
      destruct (decide (partFileId data = id1)) as [<- | Hne1],
               (decide (partFileId data = id2)) as [<- | Hne2];
        rewrite ?lookup_insert_eq, ?lookup_insert_ne by done.
      * done.
      * intros [= <-] Hf2 Hne. rewrite Ho, Hp. by apply (Hdistinct _ _ _ _ Hf Hf2).
      * intros Hf1 [= <-] Hne. rewrite Ho, Hp. by apply (Hdistinct _ _ _ _ Hf1 Hf).
      * apply Hdistinct.
Qed.

Lemma reachable_orders_ok (b : Backend) (w : World) : reachable b w → orders_ok w.
Proof.
  induction 1 as [w (_ & _ & _ & _ & Hpf & _) | w op Hreach IH Hen].
  - split.
    + intros id f Hf. rewrite Hpf in Hf. by rewrite lookup_empty in Hf.
    + intros id1 id2 f1 f2 Hf. rewrite Hpf in Hf. by rewrite lookup_empty in Hf.
  - destruct op as [caller input uuid now | input | caller input uuid | now sid
                    | caller input uuid now | input | label caller input uuid | sid
                    | caller lessonId file title isSecureStr uuid | env job_id data];
      simpl.
    + assert (preserves orders_ok (ChunkedUploadService.initUpload caller input uuid now))
        as Hp by (unfold ChunkedUploadService.initUpload; pres_assets).
      by apply Hp.
    + assert (preserves orders_ok (ChunkedUploadService.uploadChunk input))
        as Hp by (unfold ChunkedUploadService.uploadChunk; pres_assets).
      by apply Hp.
    + assert (preserves orders_ok (ChunkedUploadService.finalizeUpload caller input uuid))
        as Hp.
      { unfold ChunkedUploadService.finalizeUpload. pres_assets.
        - apply orders_ok_assembleFile.
        - apply orders_ok_storeAsset.
        - apply orders_ok_cleanupSession. }
      by apply Hp.
    + assert (preserves orders_ok (ChunkedUploadService.sweepSession now sid))
        as Hp by (unfold ChunkedUploadService.sweepSession; pres_assets;
                  apply orders_ok_cleanupSession).
      by apply Hp.
    + assert (preserves orders_ok
                (RedisChunkedUploadService.initUpload caller input uuid now))
        as Hp by (unfold RedisChunkedUploadService.initUpload,
                    RedisChunkedUploadService.redis_setex; pres_assets).
      by apply Hp.
    + assert (preserves orders_ok (RedisChunkedUploadService.uploadChunk input))
        as Hp by (unfold RedisChunkedUploadService.uploadChunk,
                    RedisChunkedUploadService.redis_setex,
                    RedisChunkedUploadService.redis_get; pres_assets).
      by apply Hp.
    + assert (preserves orders_ok
                (RedisChunkedUploadService.finalizeUpload label caller input uuid))
        as Hp.
      { unfold RedisChunkedUploadService.finalizeUpload,
          RedisChunkedUploadService.redis_get, RedisChunkedUploadService.redis_del.
        pres_assets.
        - apply orders_ok_assembleFile.
        - apply orders_ok_redis_storeAsset. }
      by apply Hp.
    + exact IH.
    + by apply orders_ok_uploadLessonPdf.
    + by apply orders_ok_pdfWorker.
Qed.

(** X20: the order numbers given by [getNextOrder].  In every reachable
    state every asset has an order number of at least 1, and two different
    assets of the same part have different order numbers: each new asset
    is numbered one above the largest number of its part, and no run of the
    worker changes a number or moves an asset to another part. *)
Theorem asset_orders_are_distinct (b : Backend) (w : World)
    (id1 id2 : string) (f1 f2 : PartFile) :
  reachable b w →
  partFiles w !! id1 = Some f1 → partFiles w !! id2 = Some f2 →
  1 ≤ pf_order f1 ∧
  (id1 ≠ id2 → pf_partId f1 = pf_partId f2 → pf_order f1 ≠ pf_order f2).
Proof.
  intros Hreach Hf1 Hf2. destruct (reachable_orders_ok b w Hreach) as [Hpos Hdistinct].
  split; [by apply (Hpos id1) |]. by apply Hdistinct.
Qed.

Lemma asset_orders_are_distinct_witness :
  reachable InMemorySessions two_lessons_uploaded ∧
  (∃ f1 f2, partFiles two_lessons_uploaded !! "f1" = Some f1 ∧
            partFiles two_lessons_uploaded !! "f2" = Some f2 ∧
            pf_partId f1 = pf_partId f2 ∧ pf_order f1 ≠ pf_order f2).
Proof.
  assert (reachable InMemorySessions two_lessons_uploaded) as Hreach.
  { apply (reachable_step _ lesson_uploaded
             (OpUploadLessonPdf "instructor-1" "part-1" pdf_file (Some "Slides")
                None "f2")); [| done].
    apply lesson_uploaded_reachable. }
  split; [exact Hreach |].
  destruct (partFiles two_lessons_uploaded !! "f1") as [f1 |] eqn:Hf1;
    [| by vm_compute in Hf1].
  destruct (partFiles two_lessons_uploaded !! "f2") as [f2 |] eqn:Hf2;
    [| by vm_compute in Hf2].
  exists f1, f2. repeat split.
  - vm_compute in Hf1, Hf2. injection Hf1 as <-. injection Hf2 as <-. reflexivity.
  - apply (asset_orders_are_distinct InMemorySessions two_lessons_uploaded
             "f1" "f2" f1 f2 Hreach Hf1 Hf2); [done |].
    vm_compute in Hf1, Hf2. injection Hf1 as <-. injection Hf2 as <-. reflexivity.
Defined.
